(** * phpbb-scraper: a shallow embedding of the crawl engine

    The development follows [phpbb-scraper.py]: the page merger
    ([PageMerger]), the request queue ([RequestsIter]), the fetch worker
    ([send_worker]), the parse worker ([scrape_worker]), the page objects
    ([PhpBBForum], [PhpBBTopic], [PhpBBUsers], [FileSaver]) and the
    start-up of [PhpBBScraper].  HTML documents enter as the results of
    the CSS selections the code performs on them; the network enters as
    the outcome of each [request()] call; the file system enters as the
    answers of [os.path.isfile], [os.walk] and the write calls. *)

From Stdlib Require Import ZArith Lia String Ascii List.
From Stdlib Require Import DecimalString DecimalZ Sorted.
From stdpp Require Import base gmap list strings.

Local Open Scope list_scope.
Local Open Scope Z_scope.

(* ===================================================================== *)
(** * Document keys and save classes *)
(* ===================================================================== *)

(** The key of a pending document is a topic id ([self._topic_id], an
    int) or the literal ['users']. *)
Inductive doc_key : Type :=
  | TopicKey (id : Z)
  | UsersKey.

#[global] Instance doc_key_eq_dec : EqDecision doc_key.
Proof. solve_decision. Defined.

Definition doc_key_encode (k : doc_key) : option Z :=
  match k with TopicKey z => Some z | UsersKey => None end.

Definition doc_key_decode (o : option Z) : doc_key :=
  match o with Some z => TopicKey z | None => UsersKey end.

#[global] Instance doc_key_countable : Countable doc_key.
Proof.
  apply (inj_countable' doc_key_encode doc_key_decode).
  intros []; reflexivity.
Defined.

(** [v['class']]: the class whose static [save] is called. *)
Inductive save_class : Type := ClsTopic | ClsUsers.

(* ===================================================================== *)
(** * Exceptions *)
(* ===================================================================== *)

(** A call either returns or raises; only the exceptions the modelled
    code can meet are listed. *)
Inductive exn : Type :=
  | KeyError | IndexError | ValueError | TypeError | AttributeError.

Inductive py (A : Type) : Type :=
  | Ret (a : A)
  | Raise (e : exn).

Arguments Ret {A} a.
Arguments Raise {A} e.

Definition py_bind {A B : Type} (x : py A) (f : A -> py B) : py B :=
  match x with
  | Ret a => f a
  | Raise e => Raise e
  end.

#[global] Instance py_mret : MRet py := fun A a => Ret a.
#[global] Instance py_mbind : MBind py := fun A B f x => py_bind x f.

Definition py_of_option {A : Type} (e : exn) (o : option A) : py A :=
  match o with Some a => Ret a | None => Raise e end.

Fixpoint py_mapM {A B : Type} (f : A -> py B) (l : list A) : py (list B) :=
  match l with
  | [] => Ret []
  | a :: rest => b ← f a; bs ← py_mapM f rest; Ret (b :: bs)
  end.

(* ===================================================================== *)
(** * PageMerger *)
(* ===================================================================== *)

(** [v['data'][offset:offset+len(data)] = data] for a list and a
    non-negative offset: Python clamps both slice bounds to the length
    of the list, so an offset past the end appends and a slice that
    runs over the end lengthens the list. Offsets are the [start]
    values of page objects, [0] or [i * start_value], never negative. *)
Definition slice_assign {A : Type} (l : list A) (offset : nat) (d : list A) : list A :=
  take offset l ++ d ++ drop (offset + length d) l.

(** [list(filter(None, data))]: the slots that are not [None]. The
    items kept in slots are post and user dicts, which always carry at
    least one key and are therefore truthy. *)
Definition is_filled {A : Type} (s : option A) : bool :=
  match s with Some _ => true | None => false end.

Definition compact {A : Type} (l : list (option A)) : list (option A) :=
  List.filter is_filled l.

Section PageMerger.
(** [Item]: what a slot holds; [Media]: what [save] hands back (the
    follow-up requests); [Ctx]: the [opts], [session] and [paths]
    stored with the document. *)
Context {Item Media Ctx : Type}.

(** [v['class'].save(session=.., id=key, data=.., paths=.., opts=..)] *)
Variable class_save :
  save_class -> Ctx -> doc_key -> list (option Item) -> py (list Media).

Record pending : Type := mkPending {
  p_data : list (option Item);   (* 'data' *)
  p_remain : Z;                  (* 'remain' *)
  p_ctx : Ctx;                   (* 'opts', 'paths', 'session' *)
  p_class : save_class           (* 'class' *)
}.

(** The shared dict [_pages], and the calls of [save] made so far
    (key and the [data] argument), oldest first. *)
Record merger : Type := mkMerger {
  pages : gmap doc_key pending;
  saved : list (doc_key * list (option Item))
}.

Definition PageMerger_init : merger := mkMerger ∅ [].

(** [append], called with the lock free. [self._pages[key]] raises
    [KeyError] for a key that is not open. An exception of [save]
    leaves the document in the dict. The lock is taken at the start
    and released before the return only: a call that raises keeps it,
    and a call made after it would wait for ever. The runs of calls
    considered below ([deliver], [merger_reachable]) therefore end at
    the first call that raises. *)
Definition PageMerger_append (m : merger) (key : doc_key) (data : list Item)
    (offset : nat) : py (list Media) * merger :=
  match pages m !! key with
  | None => (Raise KeyError, m)
  | Some v =>
      let v' := mkPending (slice_assign (p_data v) offset (Some <$> data))
                          (p_remain v - Z.of_nat (length data))
                          (p_ctx v) (p_class v) in
      let pages' := <[key := v']> (pages m) in
      if p_remain v' <=? 0 then
        let saved' := saved m ++ [(key, p_data v')] in
        match class_save (p_class v') (p_ctx v') key (p_data v') with
        | Ret media => (Ret media, mkMerger (delete key pages') saved')
        | Raise e => (Raise e, mkMerger pages' saved')
        end
      else
        (Ret [], mkMerger pages' (saved m))
  end.

Definition PageMerger_add (m : merger) (ctx : Ctx) (key : doc_key)
    (cls : save_class) (data : list Item) (size : nat)
    : py (list Media) * merger :=
  let v := mkPending (replicate size None) (Z.of_nat size) ctx cls in
  PageMerger_append (mkMerger (<[key := v]> (pages m)) (saved m)) key data 0.

(** [force_save]: every open document is saved with its filled slots.
    Nothing is deleted, and [_pages] is left as it is: it is a manager
    dict whose [items()] hands out copies, so the assignment to
    [v['data']] changes the copy only (as the source notes in
    [append], a shared update needs an assignment to
    [self._pages[key]]). The loop ends at the first [save] that
    raises. The order of [items()] is the insertion order of the dict;
    here it is the order of [map_to_list], which no statement below
    depends on. *)
Fixpoint force_save_loop (items : list (doc_key * pending))
    (media : list Media) (log : list (doc_key * list (option Item)))
    : py (list Media) * list (doc_key * list (option Item)) :=
  match items with
  | [] => (Ret media, log)
  | (key, v) :: rest =>
      let data := compact (p_data v) in
      match class_save (p_class v) (p_ctx v) key data with
      | Ret more => force_save_loop rest (media ++ more) (log ++ [(key, data)])
      | Raise e => (Raise e, log ++ [(key, data)])
      end
  end.

Definition PageMerger_force_save (m : merger) : py (list Media) * merger :=
  let r := force_save_loop (map_to_list (pages m)) [] (saved m) in
  (r.1, mkMerger (pages m) r.2).

(** [stats]: remain, size and key of every open document. *)
Definition PageMerger_stats (m : merger) : list (Z * nat * doc_key) :=
  (fun kv => (p_remain kv.2, length (p_data kv.2), kv.1)) <$> map_to_list (pages m).

(** A shard contribution as the page objects deliver it: the
    offset-0 page calls [add] (with the document's size), every other
    page calls [append] (see [PhpBBTopic.scrape]). *)
Definition shard : Type := nat * list Item.

Definition deliver_one (ctx : Ctx) (key : doc_key) (cls : save_class) (size : nat)
    (m : merger) (s : shard) : py (list Media) * merger :=
  match s.1 with
  | O => PageMerger_add m ctx key cls s.2 size
  | S _ => PageMerger_append m key s.2 s.1
  end.

(** Deliveries one after the other; the first exception ends the run. *)
Fixpoint deliver (ctx : Ctx) (key : doc_key) (cls : save_class) (size : nat)
    (m : merger) (ss : list shard) : py (list Media) * merger :=
  match ss with
  | [] => (Ret [], m)
  | s :: rest =>
      match deliver_one ctx key cls size m s with
      | (Raise e, m') => (Raise e, m')
      | (Ret media, m') =>
          match deliver ctx key cls size m' rest with
          | (Raise e, m'') => (Raise e, m'')
          | (Ret media', m'') => (Ret (media ++ media'), m'')
          end
      end
  end.

(** The slices [(offset, items)] of [ss], in this order, tile
    [[o, n)]: each starts where the previous one ends and none is
    empty. *)
Fixpoint chain (o n : nat) (ss : list shard) : Prop :=
  match ss with
  | [] => o = n
  | s :: rest => s.1 = o /\ s.2 <> [] /\ chain (o + length s.2)%nat n rest
  end.

(** [ss] partitions [[0, n)]: some reordering of it is a chain. *)
Definition partitions (n : nat) (ss : list shard) : Prop :=
  exists sorted, Permutation ss sorted /\ chain 0 n sorted.

End PageMerger.

Arguments pending : clear implicits.
Arguments merger : clear implicits.
Arguments shard : clear implicits.

(* ===================================================================== *)
(** * Strings, numbers and paths *)
(* ===================================================================== *)

(** [str(i)] for an int. *)
Definition str_of_int (z : Z) : string :=
  NilZero.string_of_int (Z.to_int z).

(** A [string] holds the code points of a Python [str], one per
    character; this covers the strings whose code points are below
    256. *)

(** White space as [int] strips it: the characters from tab to
    carriage return, the space and, of the code points from 128 on,
    NEL and the no-break space. *)
Definition is_space (c : ascii) : bool :=
  let n := nat_of_ascii c in
  ((9 <=? n) && (n <=? 13) || (n =? 32) || (n =? 133) || (n =? 160))%nat.

Definition is_digit (c : ascii) : bool :=
  let n := nat_of_ascii c in ((48 <=? n) && (n <=? 57))%nat.

Fixpoint lstrip (s : string) : string :=
  match s with
  | EmptyString => EmptyString
  | String c s' => if is_space c then lstrip s' else s
  end.

Fixpoint rstrip (s : string) : string :=
  match s with
  | EmptyString => EmptyString
  | String c s' =>
      match rstrip s' with
      | EmptyString => if is_space c then EmptyString else String c EmptyString
      | r => String c r
      end
  end.

(** The digits of a numeral without its underscores; an underscore
    may only stand between two digits. *)
Fixpoint numeral_digits (after_digit : bool) (s : string) : option string :=
  match s with
  | EmptyString => if after_digit then Some EmptyString else None
  | String c s' =>
      if is_digit c then String c <$> numeral_digits true s'
      else if Ascii.eqb c "_" && after_digit then numeral_digits false s'
      else None
  end.

(** [int(s)] for a string: white space around, an optional sign, and
    decimal digits with single underscores between them; anything
    else raises [ValueError]. The number of digits is not bounded
    (the bound of [sys.set_int_max_str_digits] is a setting of the
    interpreter). *)
Definition int_of_str (s : string) : py Z :=
  let t := rstrip (lstrip s) in
  let neg := match t with String c _ => Ascii.eqb c "-" | EmptyString => false end in
  let body := match t with
              | String c b => if Ascii.eqb c "-" || Ascii.eqb c "+" then b else t
              | EmptyString => t
              end in
  match ds ← numeral_digits false body; NilEmpty.uint_of_string ds with
  | Some u => Ret (if neg then - Z.of_uint u else Z.of_uint u)
  | None => Raise ValueError
  end.

(** [s.startswith(p)] and [s.endswith(p)]. *)
Definition starts_with (p s : string) : bool := String.prefix p s.

Definition ends_with (s p : string) : bool :=
  (String.length p <=? String.length s)%nat &&
  String.eqb (String.substring (String.length s - String.length p)
                               (String.length p) s) p.

(** [sub in s] for strings. *)
Fixpoint contains (sub s : string) : bool :=
  String.prefix sub s ||
  match s with
  | EmptyString => false
  | String _ s' => contains sub s'
  end.

(** [s[:-n]] *)
Definition drop_last (n : nat) (s : string) : string :=
  String.substring 0 (String.length s - n) s.

(** [s.split(c)] for a one-character separator. *)
Fixpoint split_on (c : ascii) (s : string) : list string :=
  match s with
  | EmptyString => [EmptyString]
  | String a s' =>
      if Ascii.eqb a c then EmptyString :: split_on c s'
      else match split_on c s' with
           | [] => [String a EmptyString]
           | w :: ws => String a w :: ws
           end
  end.

(** [s.split(c, 1)]: at the first separator only. *)
Fixpoint split_first (c : ascii) (s : string) : option (string * string) :=
  match s with
  | EmptyString => None
  | String a s' =>
      if Ascii.eqb a c then Some (EmptyString, s')
      else match split_first c s' with
           | Some (l, r) => Some (String a l, r)
           | None => None
           end
  end.

(** [s.rsplit(c, 1)]: at the last separator only. *)
Fixpoint split_last (c : ascii) (s : string) : option (string * string) :=
  match s with
  | EmptyString => None
  | String a s' =>
      match split_last c s' with
      | Some (l, r) => Some (String a l, r)
      | None => if Ascii.eqb a c then Some (EmptyString, s') else None
      end
  end.

(** [os.path.join(a, b)] on POSIX. *)
Definition path_join (a b : string) : string :=
  if starts_with "/" b then b
  else if String.eqb a "" || ends_with a "/" then (a ++ b)%string
  else (a ++ "/" ++ b)%string.

(** [re.sub(r'[/\\|:]', '_', fname)] *)
Definition sanitize_char (c : ascii) : ascii :=
  if Ascii.eqb c "/" || Ascii.eqb c "\" || Ascii.eqb c "|" || Ascii.eqb c ":"
  then "_"%char else c.

Fixpoint sanitize (s : string) : string :=
  match s with
  | EmptyString => EmptyString
  | String c s' => String (sanitize_char c) (sanitize s')
  end.

(** A breadcrumb [(id, name)]; [p[0]] is the directory name. *)
Definition path_seg : Type := string * string.

(** [FileSaver.full_path(output, paths, fname)] *)
Definition full_path (output : string) (paths : list path_seg) (fname : string) : string :=
  let fname := sanitize fname in
  let dname := fold_left path_join (fst <$> paths) output in
  match split_last "." fname with
  | Some (base, ext) => (path_join dname base ++ "." ++ ext)%string
  | None => (path_join dname fname ++ "." ++ "unk")%string
  end.

(** [PhpBBElement._get_url_query]: the query of the URL (after the
    first [?], before a [#]) as a dict; no [=] in it gives the empty
    dict; a part without exactly one [=] makes [dict(...)] raise
    [ValueError]; a repeated name keeps its last value. The query is
    taken as [urlparse] takes it from an address it accepts as
    written; [urlparse] also removes tabs and line ends and refuses
    some hosts (unmatched brackets), which is not followed here. *)
Definition url_query_string (url : string) : string :=
  let nofrag := match split_first "#" url with Some (l, _) => l | None => url end in
  match split_first "?" nofrag with
  | Some (_, q) => q
  | None => EmptyString
  end.

Definition query_pair (x : string) : py (string * string) :=
  match split_on "=" x with
  | [k; v] => Ret (k, v)
  | _ => Raise ValueError
  end.

Definition _get_url_query (url : string) : py (gmap string string) :=
  let q := url_query_string url in
  if negb (contains "=" q) then Ret ∅
  else
    kvs ← py_mapM query_pair (split_on "&" q);
    Ret (fold_left (fun (d : gmap string string) kv => <[kv.1 := kv.2]> d) kvs ∅).

(* ===================================================================== *)
(** * Options and tasks *)
(* ===================================================================== *)

(** [scraper_opts], with the keys the scraper adds ([url], [sid],
    [scraped_topics]). *)
Record opts : Type := mkOpts {
  o_url : string;
  o_output : string;
  o_parse_date : bool;
  o_save_media : bool;
  o_save_attachments : bool;
  o_save_users : bool;
  o_force : Z;
  o_max_retries : Z;
  o_passwords_f : gmap Z string;
  o_passwords_t : gmap Z string;
  o_scraped_topics : list Z;
  o_sid : option string
}.

(** The page objects put on the queue, one constructor per class, with
    the fields their [__init__] stores. [opts] and [session] are
    shared and passed along separately. *)
Inductive task : Type :=
  | FileSaver (paths : list path_seg) (fname url : string) (use_session : bool)
  | PhpBBForumPassword (url : string) (topic_id : Z) (params : gmap string string)
  | PhpBBForum (forum_id : Z) (start : Z)
  | PhpBBTopic (topic_id : Z) (start : Z)
  | PhpBBUsers (start : Z).

(** [hasattr(r, 'url')] and [r.url]: no page class defines an
    attribute of that name (they keep the address in [_url], or build
    it in a method [_url]). *)
Definition task_url_attr (r : task) : option string :=
  match r with
  | FileSaver _ _ _ _ => None
  | PhpBBForumPassword _ _ _ => None
  | PhpBBForum _ _ => None
  | PhpBBTopic _ _ => None
  | PhpBBUsers _ => None
  end.

(** Media and file fetches against document fetches. *)
Definition is_media_task (r : task) : bool :=
  match r with FileSaver _ _ _ _ => true | _ => false end.

(* ===================================================================== *)
(** * Logging *)
(* ===================================================================== *)

Inductive log_level : Type := DEBUG | INFO | WARNING | ERROR.

(** The numeric value of a level in [logging]. *)
Definition severity (l : log_level) : Z :=
  match l with DEBUG => 10 | INFO => 20 | WARNING => 30 | ERROR => 40 end.

(* ===================================================================== *)
(** * RequestsIter *)
(* ===================================================================== *)

Record RequestsIter : Type := mkRequestsIter {
  _queue : list task;
  _enqueued : Z;
  _processed : Z
}.

Definition RequestsIter_init : RequestsIter := mkRequestsIter [] 0 0.

(** [__next__]: [None] is [StopIteration]. *)
Definition RequestsIter_next (q : RequestsIter) : option task * RequestsIter :=
  match _queue q with
  | [] => (None, q)
  | t :: rest => (Some t, mkRequestsIter rest (_enqueued q) (_processed q))
  end.

Definition queue_empty (q : RequestsIter) : bool :=
  match _queue q with [] => true | _ => false end.

Definition is_done (q : RequestsIter) : bool :=
  if negb (queue_empty q) then false
  else if _processed q <? _enqueued q then false
  else true.

(** The log line of [is_done], when there is one. *)
Definition is_done_log (q : RequestsIter) : list log_level :=
  if negb (queue_empty q) then []
  else if _processed q <? _enqueued q then []
  else if _processed q >? _enqueued q then [INFO] else [].

Definition RequestsIter_put (q : RequestsIter) (item : task) : RequestsIter :=
  mkRequestsIter (_queue q ++ [item]) (_enqueued q + 1) (_processed q).

Definition RequestsIter_processed (q : RequestsIter) : RequestsIter :=
  mkRequestsIter (_queue q) (_enqueued q) (_processed q + 1).

Definition RequestsIter_reset (q : RequestsIter) : RequestsIter :=
  mkRequestsIter [] 0 0.

(** The states the queue can be in: what a run of [put], [__next__]
    and [processed] makes of a fresh queue. *)
Inductive queue_reachable : RequestsIter -> Prop :=
  | reach_init : queue_reachable RequestsIter_init
  | reach_put q t : queue_reachable q -> queue_reachable (RequestsIter_put q t)
  | reach_next q : queue_reachable q -> queue_reachable (RequestsIter_next q).2
  | reach_processed q : queue_reachable q -> queue_reachable (RequestsIter_processed q).

(* ===================================================================== *)
(** * send_worker *)
(* ===================================================================== *)

(** An HTTP response: status code and the document in the body (see
    [html_page] below for the type of documents used by the scraper). *)
Record response (Page : Type) : Type := mkResponse {
  status_code : Z;
  content : Page
}.

Arguments mkResponse {Page} _ _.
Arguments status_code {Page} _.
Arguments content {Page} _.

(** What one call of [r.request()] does. Every [request] method
    returns the response whatever its status code. *)
Inductive request_outcome (Page : Type) : Type :=
  | Responded (resp : response Page)
  | ConnectionError
  | InvalidSchema
  | MissingSchema
  | RequestIndexError.

Arguments Responded {Page} resp.
Arguments ConnectionError {Page}.
Arguments InvalidSchema {Page}.
Arguments MissingSchema {Page}.
Arguments RequestIndexError {Page}.

(** How [send_worker] ends: a returned pair, or [sys.exit(1)]. *)
Inductive send_value (Page : Type) : Type :=
  | Returned (resp : option (response Page)) (obj : option task)
  | Exited (code : Z).

Arguments Returned {Page} resp obj.
Arguments Exited {Page} code.

Record send_result (Page : Type) : Type := mkSendResult {
  sr_value : send_value Page;
  sr_requests : list task;      (* the calls of [request()], oldest first *)
  sr_log : list log_level       (* the lines logged during the call, oldest first *)
}.

Arguments mkSendResult {Page} _ _ _.
Arguments sr_value {Page} _.
Arguments sr_requests {Page} _.
Arguments sr_log {Page} _.

(** The level of the line logged after the loop. *)
Definition exhausted_level (url_attr : option string) : log_level :=
  match url_attr with
  | Some u => if ends_with u ".html" then DEBUG else WARNING
  | None => WARNING
  end.

(** The line [request()] itself logs before it returns:
    [FileSaver.request] logs one debug line for an answer whose status
    is not 200; the [request] methods of the other classes log
    nothing. *)
Definition request_log {Page : Type} (r : task) (resp : response Page)
    : list log_level :=
  match r with
  | FileSaver _ _ _ _ => if status_code resp =? 200 then [] else [DEBUG]
  | _ => []
  end.

Section SendWorker.
Context {Page : Type}.

(** [net n] is the outcome of the call of [r.request()] made after
    [n] earlier calls. *)
Variable net : nat -> request_outcome Page.

(** The [while retry < max_retries] loop; [fuel] is
    [max_retries - retry]. *)
Fixpoint send_loop (r : task) (fuel : nat) (retry : nat) (reqs : list task)
    : send_result Page :=
  match fuel with
  | O => mkSendResult (Returned None None) reqs
                      [exhausted_level (task_url_attr r)]
  | S fuel' =>
      let reqs' := reqs ++ [r] in
      match net retry with
      | Responded resp =>
          mkSendResult (Returned (Some resp) (Some r)) reqs' (request_log r resp)
      | ConnectionError => send_loop r fuel' (S retry) reqs'
      | InvalidSchema => mkSendResult (Returned None None) reqs' [DEBUG]
      | MissingSchema => mkSendResult (Returned None None) reqs' [DEBUG]
      | RequestIndexError => mkSendResult (Exited 1) reqs' [ERROR; ERROR]
      end
  end.

Definition send_worker (max_retries : Z) (r : task) : send_result Page :=
  send_loop r (Z.to_nat max_retries) 0 [].

(** The call of [request()] made after [k] connection errors is
    answered with [resp]. *)
Definition answers_after (k : nat) (resp : response Page) : Prop :=
  (forall i, (i < k)%nat -> net i = ConnectionError) /\ net k = Responded resp.

End SendWorker.

(* ===================================================================== *)
(** * File system *)
(* ===================================================================== *)

(** The file system as the scraper meets it: the answers of
    [os.path.isfile], whether [os.makedirs] and the writes succeed, and
    the triples [(dirname, subdirs, files)] that [os.walk] yields. *)
Record filesystem : Type := mkFilesystem {
  isfile : string -> bool;
  makedirs_ok : string -> bool;
  write_ok : string -> bool;
  walk : string -> list (string * list string * list string)
}.

(* ===================================================================== *)
(** * Documents *)
(* ===================================================================== *)

(** [post['date']]: the text of the page, or the epoch seconds when
    [parse_date] is set. *)
Inductive date_val : Type :=
  | DateText (s : string)
  | DateEpoch (t : Z).

(** The dict returned by [_html2bb]. *)
Record bbcontent : Type := mkBB {
  bb_files : list (string * string);
  bb_media : option (list (string * string));
  bb_content : string
}.

(** A post dict. *)
Record post : Type := mkPost {
  msg_id : Z;
  uid_user : option (Z * string);       (* 'uid' and 'user' *)
  post_date : date_val;
  files : list (string * string);
  media : option (list (string * string));
  post_content : string;
  subject : string;
  post_topic_id : Z;
  forum : path_seg
}.

(** A user dict. *)
Record user_rec : Type := mkUser {
  u_uid : string;
  u_date : date_val;
  u_user : string
}.

Inductive item : Type :=
  | PostItem (p : post)
  | UserItem (u : user_rec).

(** The [p.author] paragraph of a post: whether it holds the link
    and the span that the code removes from it, and the text that is
    left. *)
Record author_par : Type := mkAuthor {
  au_link : bool;                              (* date.a *)
  au_span : bool;                              (* date.span *)
  au_text : string                             (* date.text.strip() *)
}.

(** What the code selects from a [div.post]. A [.string] is [None]
    when the element is empty or mixes text and markup. [pe_bb] is
    the value of [_html2bb] on the post's content ([None] when it
    gives nothing); [pe_epoch] is what [dateutil] makes of the date
    ([None] when it raises). *)
Record post_elem : Type := mkPostElem {
  pe_id : string;                              (* p['id'] *)
  pe_member : option (string * option string); (* href and .string of the profile link *)
  pe_date : option author_par;                 (* p.author, if there is one *)
  pe_epoch : option Z;
  pe_content : bool;                           (* 'div.content' is there *)
  pe_bb : option bbcontent;
  pe_attach : list (string * string)           (* alt and src of attachbox images *)
}.

(** A row of [table#memberlist]. *)
Record member_row : Type := mkMemberRow {
  mr_href : string;
  mr_name : string;
  mr_date : string;
  mr_epoch : option Z
}.

(** [form#login_forum] *)
Record login_forum : Type := mkLoginForum {
  lf_action : string;
  lf_password_input : bool;                    (* 'input#password' is there *)
  lf_hidden : list (string * string)           (* name and value of hidden inputs *)
}.

(** A parsed document, as the selections the page objects make on it. *)
Record html_page : Type := mkPage {
  pg_message : bool;                           (* '#message p' *)
  pg_login : bool;                             (* 'form#login' *)
  pg_login_forum : option login_forum;         (* 'form#login_forum' *)
  pg_breadcrumbs : list path_seg;              (* crumbs with data-forum-id *)
  pg_buttons : list (string * string);         (* text and href of pagination buttons *)
  pg_pagination_div : option (option nat);     (* the bar, and the number its text starts with *)
  pg_forum_links : list string;                (* href of a.forumtitle *)
  pg_topic_links : list string;                (* href of a.topictitle *)
  pg_topic_title : option string;              (* h2.topic-title *)
  pg_posts : list post_elem;                   (* div.post *)
  pg_members : list member_row;
  pg_message_string : option string;           (* .string of the first '#message p' *)
  pg_title : bool                              (* the document has a <title> *)
}.

(** The branch of a [scrape] method for a page with a message box:
    the error line formats [msg[0].string.strip()], which raises
    [AttributeError] when the paragraph has no [.string] (it is
    empty, or mixes text and markup); then [[]] is returned. *)
Definition message_wall (pg : html_page) : py (list task) :=
  _ ← py_of_option AttributeError (pg_message_string pg);
  Ret [].

(** [_is_password_required] *)
Definition _is_password_required (pg : html_page) : bool :=
  match pg_login_forum pg with
  | None => false
  | Some f => lf_password_input f
  end.

(** ** Pagination *)

(** [sorted(set(..))] of ints. *)
Fixpoint insert_sorted (x : Z) (l : list Z) : list Z :=
  match l with
  | [] => [x]
  | y :: rest =>
      if x <? y then x :: l
      else if x =? y then l
      else y :: insert_sorted x rest
  end.

Definition sorted_set (l : list Z) : list Z := fold_right insert_sorted [] l.

(** [starts[i] - starts[i-1]] for [i] from 1. *)
Fixpoint deltas (l : list Z) : list Z :=
  match l with
  | a :: (b :: _) as rest => (b - a) :: deltas rest
  | _ => []
  end.

Definition min_list (d : Z) (l : list Z) : Z :=
  match l with
  | [] => d
  | x :: rest => fold_left Z.min rest x
  end.

(** The [start] values of the buttons: an href whose query does not
    parse is skipped; a [start] that is not a number raises. *)
Fixpoint button_starts (bs : list (string * string)) : py (list Z) :=
  match bs with
  | [] => Ret []
  | (_, href) :: rest =>
      match _get_url_query href with
      | Raise _ => button_starts rest
      | Ret u =>
          match u !! "start"%string with
          | None => button_starts rest
          | Some s => n ← int_of_str s; ns ← button_starts rest; Ret (n :: ns)
          end
      end
  end.

Record pagination : Type := mkPagination {
  pn_url : gmap string string;
  pn_start_value : Z;
  pn_pages_count : Z;
  pn_elements_count : option nat    (* [self._elements_count], when it was set *)
}.

(** [_pagination], after the breadcrumbs. *)
Definition _pagination (pg : html_page) : py pagination :=
  r ← match last (pg_buttons pg) with
      | None => Ret (∅, 1, 0)
      | Some (text, href) =>
          pages_count ← int_of_str text;
          url ← _get_url_query href;
          ss ← button_starts (pg_buttons pg);
          let starts := sorted_set (0 :: ss) in
          Ret (url, pages_count, min_list 0 (deltas starts))
      end;
  let '(url, pages_count, start_value) := r in
  match pg_pagination_div pg with
  | None => Ret (mkPagination url 0 0 None)
  | Some None => Raise AttributeError
  | Some (Some n) =>
      Ret (mkPagination url (if pages_count =? 1 then Z.of_nat n else start_value)
                        pages_count (Some n))
  end.

(** [range(1, pages_count)] *)
Definition range_from_1 (pages_count : Z) : list Z :=
  (fun i => Z.of_nat i + 1) <$> seq 0 (Z.to_nat (pages_count - 1)).

(** [range(a, b + 1)] *)
Definition range_incl (a b : Z) : list Z :=
  (fun i => a + Z.of_nat i) <$> seq 0 (Z.to_nat (b + 1 - a)).

(** The sibling pages queued from a first page:
    [if not 'start' in url: return pages], then [int(url['start'])],
    then one page per [i] in [range(1, pages_count)]. *)
Definition sibling_pages (mk : Z -> task) (pn : pagination) : py (list task) :=
  match pn_url pn !! "start"%string with
  | None => Ret []
  | Some s =>
      _ ← int_of_str s;
      Ret ((fun i => mk (i * pn_start_value pn)) <$> range_from_1 (pn_pages_count pn))
  end.

(* ===================================================================== *)
(** * Page objects *)
(* ===================================================================== *)

(** The merger of the scraper: slots hold post or user dicts, [save]
    hands back page objects, and a document remembers its [opts] and
    [paths]. *)
Definition save_ctx : Type := opts * list path_seg.

(** ** FileSaver *)

(** [FileSaver.scrape] writes the body to [full_path(..)] and returns
    [[]] on every path. *)
Definition FileSaver_scrape (o : opts) (paths : list path_seg) (fname : string)
    : py (list task) := Ret [].

(** ** PhpBBForumPassword *)

(** [PhpBBForumPassword.__init__] on the page that shows the form. The
    [sid] of the form's address is also stored in [opts]; it only
    enters the addresses requested later. *)
Definition new_PhpBBForumPassword (o : opts) (pg : html_page) (password : string)
    : py task :=
  f ← py_of_option IndexError (pg_login_forum pg);
  let url := (o_url o ++ "/" ++ lf_action f)%string in
  q ← _get_url_query url;
  _ ← py_of_option KeyError (q !! "sid"%string);
  tid ← match q !! "t"%string with
        | None => Ret 0
        | Some t => int_of_str t
        end;
  Ret (PhpBBForumPassword url tid
         (fold_left (fun (d : gmap string string) kv => <[kv.1 := kv.2]> d)
                    (lf_hidden f)
                    (<["login"%string := "Login"%string]>
                       (<["password"%string := password]> ∅)))).

(** ** PhpBBForum *)

(** The forums queued from the root listing. *)
Definition forum_of_link (href : string) : py task :=
  q ← _get_url_query href;
  fid ← py_of_option KeyError (q !! "f"%string);
  n ← int_of_str fid;
  Ret (PhpBBForum n 0).

(** The topic id of a listing link. *)
Definition topic_of_link (href : string) : py Z :=
  q ← _get_url_query href;
  t ← py_of_option KeyError (q !! "t"%string);
  int_of_str t.

(** [if tid not in self._opts['scraped_topics']: pages.append(..)] *)
Definition queue_topic (o : opts) (tid : Z) : list task :=
  if bool_decide (tid ∈ o_scraped_topics o) then [] else [PhpBBTopic tid 0].

Definition PhpBBForum_scrape (o : opts) (forum_id start : Z) (pg : html_page)
    : py (list task) :=
  if pg_message pg then message_wall pg
  else if pg_login pg then Ret []
  else if _is_password_required pg then
    match o_passwords_f o !! forum_id with
    | None => Ret []
    | Some pw => t ← new_PhpBBForumPassword o pg pw; Ret [t]
    end
  else if forum_id =? 0 then
    py_mapM forum_of_link (pg_forum_links pg)
  else
    tids ← py_mapM topic_of_link (pg_topic_links pg);
    let pages := concat (queue_topic o <$> tids) in
    if negb (start =? 0) then Ret pages
    else
      pn ← _pagination pg;
      sib ← sibling_pages (PhpBBForum forum_id) pn;
      Ret (pages ++ sib).

(** ** PhpBBTopic *)

(** [p['id'][1:]] *)
Definition drop_first (s : string) : string :=
  match s with
  | EmptyString => EmptyString
  | String _ s' => s'
  end.

(** One round of the loop of [_parse_page]: the post dict, or [None]
    when [_html2bb] gave nothing. The profile link is read first
    ([int] of its [u], then its [.string]), then the author paragraph
    ([[0]] of the selection, [date.a.decompose()],
    [date.span.decompose()], the text and [dateutil]), then the
    content ([[0]] of the selection). *)
Definition parse_post (o : opts) (topic_id : Z) (title : string) (forum_id : path_seg)
    (p : post_elem) : py (option post) :=
  mid ← int_of_str (drop_first (pe_id p));
  mem ← match pe_member p with
        | None => Ret None
        | Some (href, name) =>
            q ← _get_url_query href;
            u ← py_of_option KeyError (q !! "u"%string);
            n ← int_of_str u;
            name ← py_of_option AttributeError name;
            Ret (Some (n, name))
        end;
  d ← py_of_option IndexError (pe_date p);
  _ ← (if au_link d && au_span d then Ret tt else Raise AttributeError);
  date ← (if o_parse_date o
          then t ← py_of_option ValueError (pe_epoch p); Ret (DateEpoch t)
          else Ret (DateText (au_text d)));
  _ ← (if pe_content p then Ret tt else Raise IndexError);
  match pe_bb p with
  | None => Ret None
  | Some bb =>
      let attach := (fun a : string * string =>
                       (a.1, (o_url o ++ "/" ++ a.2)%string)) <$> pe_attach p in
      Ret (Some (mkPost mid mem date (bb_files bb ++ attach) (bb_media bb)
                        (bb_content bb) title topic_id forum_id))
  end.

(** [_parse_page]: [False] at the first post that does not parse,
    [True] after the last; with the posts collected so far. *)
Fixpoint _parse_page (o : opts) (topic_id : Z) (title : string) (forum_id : path_seg)
    (ps : list post_elem) (posts : list post) : py (bool * list post) :=
  match ps with
  | [] => Ret (true, posts)
  | p :: rest =>
      r ← parse_post o topic_id title forum_id p;
      match r with
      | None => Ret (false, posts)
      | Some x => _parse_page o topic_id title forum_id rest (posts ++ [x])
      end
  end.

(** One [FileSaver] per file that is not there yet, or per file when
    [force] is 2. *)
Definition media_tasks (fs : filesystem) (o : opts) (fpaths : list path_seg)
    (use_session : bool) (l : list (string * string)) : list task :=
  concat ((fun i : string * string =>
             if negb (isfile fs (full_path (o_output o) fpaths i.1)) || (o_force o =? 2)
             then [FileSaver fpaths i.1 i.2 use_session]
             else []) <$> l).

(** The rounds of [for d in data] in [PhpBBTopic.save]: [d['files']]
    raises [TypeError] on an empty slot and [KeyError] on a dict
    without that key. *)
Definition post_media_tasks (fs : filesystem) (o : opts) (fpaths : list path_seg)
    (d : option item) : py (list task) :=
  match d with
  | None => Raise TypeError
  | Some (UserItem _) => Raise KeyError
  | Some (PostItem p) =>
      Ret (media_tasks fs o fpaths true (files p) ++
           match media p with
           | Some l => media_tasks fs o fpaths false l
           | None => []
           end)
  end.

Definition key_str (id : doc_key) : string :=
  match id with
  | TopicKey z => str_of_int z
  | UsersKey => "users"%string
  end.

(** The [_meta.json] of every directory on the way. *)
Fixpoint meta_names (dir : string) (paths : list path_seg) : list string :=
  match paths with
  | [] => []
  | p :: rest =>
      let dir' := path_join dir p.1 in
      path_join dir' "_meta.json" :: meta_names dir' rest
  end.

(** The three places where [save] gives up with [[]]: [makedirs], a
    missing [_meta.json] that cannot be written, the document itself. *)
Definition save_io_ok (fs : filesystem) (o : opts) (paths : list path_seg)
    (id : doc_key) : bool :=
  let dname := fold_left path_join (fst <$> paths) (o_output o) in
  makedirs_ok fs dname &&
  forallb (fun mname => isfile fs mname || write_ok fs mname)
          (meta_names (o_output o) paths) &&
  write_ok fs (path_join dname (key_str id) ++ ".json")%string.

Definition PhpBBTopic_save (fs : filesystem) (id : doc_key) (data : list (option item))
    (paths : list path_seg) (o : opts) : py (list task) :=
  media ← (if o_save_media o || o_save_attachments o then
             let fpaths := paths ++ [(key_str id, "files"%string)] in
             ms ← py_mapM (post_media_tasks fs o fpaths) data;
             Ret (concat ms)
           else Ret []);
  if save_io_ok fs o paths id then Ret media else Ret [].

(** ** PhpBBUsers *)

(** [PhpBBUsers.save] writes the document and returns [[]] on every
    path. *)
Definition PhpBBUsers_save (fs : filesystem) (id : doc_key) (data : list (option item))
    (paths : list path_seg) (o : opts) : py (list task) := Ret [].

(** [v['class'].save(..)] *)
Definition class_save (fs : filesystem) (cls : save_class) (ctx : save_ctx)
    (key : doc_key) (data : list (option item)) : py (list task) :=
  match cls with
  | ClsTopic => PhpBBTopic_save fs key data ctx.2 ctx.1
  | ClsUsers => PhpBBUsers_save fs key data ctx.2 ctx.1
  end.

Abbreviation page_merger := (merger item save_ctx).

(** The part of [PhpBBTopic.scrape] between the walls and the merger:
    the title, [_pagination], [self._path[-1]] and [_parse_page]. *)
Definition topic_page_parse (o : opts) (topic_id : Z) (pg : html_page)
    : py (pagination * (bool * list post)) :=
  title ← py_of_option IndexError (pg_topic_title pg);
  pn ← _pagination pg;
  forum_id ← py_of_option IndexError (last (pg_breadcrumbs pg));
  r ← _parse_page o topic_id title forum_id (pg_posts pg) [];
  Ret (pn, r).

(** [PhpBBTopic.scrape] *)
Definition PhpBBTopic_scrape (fs : filesystem) (o : opts) (topic_id start : Z)
    (pg : html_page) (m : page_merger) : py (list task) * page_merger :=
  if pg_message pg then (message_wall pg, m)
  else if pg_login pg then (Ret [], m)
  else if _is_password_required pg then
    match o_passwords_t o !! topic_id with
    | None => (Ret [], m)
    | Some pw => (t ← new_PhpBBForumPassword o pg pw; Ret [t], m)
    end
  else
    match topic_page_parse o topic_id pg with
    | Raise e => (Raise e, m)
    | Ret (pn, (false, _)) => (Ret [], m)
    | Ret (pn, (true, posts)) =>
        if negb (start =? 0) then
          PageMerger_append (class_save fs) m (TopicKey topic_id)
                            (PostItem <$> posts) (Z.to_nat start)
        else
          match pn_elements_count pn with
          | None => (Raise AttributeError, m)
          | Some size =>
              match PageMerger_add (class_save fs) m (o, pg_breadcrumbs pg)
                                   (TopicKey topic_id) ClsTopic
                                   (PostItem <$> posts) size with
              | (Raise e, m') => (Raise e, m')
              | (Ret media, m') =>
                  (sib ← sibling_pages (PhpBBTopic topic_id) pn; Ret (media ++ sib), m')
              end
          end
    end.

(** The avatar requests of one member row. *)
Definition avatar_tasks (fs : filesystem) (o : opts) (fpaths : list path_seg)
    (uid : string) : list task :=
  concat ((fun ext : string =>
             let fn := (uid ++ "." ++ ext)%string in
             if isfile fs (full_path (o_output o) fpaths fn) || negb (o_force o =? 0)
             then []
             else [FileSaver fpaths fn
                     (o_url o ++ "/download/file.php?avatar=" ++ uid ++ "." ++ ext)%string
                     true]) <$> ["png"%string; "jpg"%string]).

(** One round of the loop over the member rows: the user dict and the
    avatar requests. *)
Definition member_of_row (fs : filesystem) (o : opts) (fpaths : list path_seg)
    (tr : member_row) : py (user_rec * list task) :=
  rdate ← (if o_parse_date o
           then t ← py_of_option ValueError (mr_epoch tr); Ret (DateEpoch t)
           else Ret (DateText (mr_date tr)));
  q ← _get_url_query (mr_href tr);
  uid ← py_of_option KeyError (q !! "u"%string);
  Ret (mkUser uid rdate (mr_name tr),
       if negb (o_save_attachments o) && negb (o_save_media o) then []
       else avatar_tasks fs o fpaths uid).

(** [PhpBBUsers.scrape]; its second log line formats
    [self._page.title.string], which raises [AttributeError] on a
    document without [<title>]. *)
Definition PhpBBUsers_scrape (fs : filesystem) (o : opts) (start : Z)
    (pg : html_page) (m : page_merger) : py (list task) * page_merger :=
  if negb (pg_title pg) then (Raise AttributeError, m)
  else if pg_message pg then (message_wall pg, m)
  else if pg_login pg then (Ret [], m)
  else
    let fpaths := [("users"%string, "0"%string)] in
    match
      (rows ← py_mapM (member_of_row fs o fpaths) (pg_members pg);
       pn ← _pagination pg;
       Ret (rows, pn))
    with
    | Raise e => (Raise e, m)
    | Ret (rows, pn) =>
        let users := UserItem <$> (fst <$> rows) in
        let pages := concat (snd <$> rows) in
        if negb (start =? 0) then
          match PageMerger_append (class_save fs) m UsersKey users (Z.to_nat start) with
          | (Raise e, m') => (Raise e, m')
          | (Ret media, m') => (Ret (pages ++ media), m')
          end
        else
          match pn_elements_count pn with
          | None => (Raise AttributeError, m)
          | Some size =>
              match PageMerger_add (class_save fs) m (o, pg_breadcrumbs pg)
                                   UsersKey ClsUsers users size with
              | (Raise e, m') => (Raise e, m')
              | (Ret _, m') =>
                  (sib ← sibling_pages PhpBBUsers pn; Ret (pages ++ sib), m')
              end
          end
    end.

(** [PhpBBForumPassword.scrape]; its first log line formats
    [self._page.title.string], and the error line of each wall
    formats [self._params['f']] (before the text of the message). *)
Definition PhpBBForumPassword_scrape (fs : filesystem) (o : opts) (url : string)
    (topic_id : Z) (params : gmap string string)
    (pg : html_page) (m : page_merger) : py (list task) * page_merger :=
  if negb (pg_title pg) then (Raise AttributeError, m)
  else if pg_message pg then
    (_ ← py_of_option KeyError (params !! "f"%string); message_wall pg, m)
  else if pg_login pg then
    (_ ← py_of_option KeyError (params !! "f"%string); Ret [], m)
  else if _is_password_required pg then
    (_ ← py_of_option KeyError (params !! "f"%string); Ret [], m)
  else if contains "viewforum.php" url then
    match (f ← py_of_option KeyError (params !! "f"%string); int_of_str f) with
    | Raise e => (Raise e, m)
    | Ret fid => (PhpBBForum_scrape o fid 0 pg, m)
    end
  else PhpBBTopic_scrape fs o topic_id 0 pg m.

(** [obj.scrape(r, page_merger)] *)
Definition task_scrape (fs : filesystem) (o : opts) (obj : task)
    (resp : response html_page) (m : page_merger) : py (list task) * page_merger :=
  match obj with
  | FileSaver paths fname _ _ => (FileSaver_scrape o paths fname, m)
  | PhpBBForumPassword url tid params =>
      PhpBBForumPassword_scrape fs o url tid params (content resp) m
  | PhpBBForum fid start => (PhpBBForum_scrape o fid start (content resp), m)
  | PhpBBTopic tid start => PhpBBTopic_scrape fs o tid start (content resp) m
  | PhpBBUsers start => PhpBBUsers_scrape fs o start (content resp) m
  end.

(* ===================================================================== *)
(** * PhpBBScraper *)
(* ===================================================================== *)

Definition with_scraped_topics (o : opts) (l : list Z) : opts :=
  mkOpts (o_url o) (o_output o) (o_parse_date o) (o_save_media o)
         (o_save_attachments o) (o_save_users o) (o_force o) (o_max_retries o)
         (o_passwords_f o) (o_passwords_t o) l (o_sid o).

Definition with_passwords_f (o : opts) (d : gmap Z string) : opts :=
  mkOpts (o_url o) (o_output o) (o_parse_date o) (o_save_media o)
         (o_save_attachments o) (o_save_users o) (o_force o) (o_max_retries o)
         d (o_passwords_t o) (o_scraped_topics o) (o_sid o).

Definition with_passwords_t (o : opts) (d : gmap Z string) : opts :=
  mkOpts (o_url o) (o_output o) (o_parse_date o) (o_save_media o)
         (o_save_attachments o) (o_save_users o) (o_force o) (o_max_retries o)
         (o_passwords_f o) d (o_scraped_topics o) (o_sid o).

(** ** _load_state *)

(** What one file name adds to [scraped_topics]. *)
Definition scraped_of_file (f : string) : list Z :=
  if String.eqb f "_meta.json" then []
  else if contains ".json" f then
    match int_of_str (drop_last 5 f) with
    | Ret tid => [tid]
    | Raise _ => []
    end
  else [].

Definition _load_state (fs : filesystem) (output : string) : list Z :=
  concat ((fun e : string * list string * list string =>
             concat (scraped_of_file <$> e.2)) <$> walk fs output).

(** ** _parse_arg *)

(** [if password: self._opts['passwords'][..][r] = password] *)
Definition set_password (is_topics : bool) (r : Z) (password : option string)
    (o : opts) : opts :=
  match password with
  | None => o
  | Some pw =>
      if String.eqb pw "" then o
      else if is_topics then with_passwords_t o (<[r := pw]> (o_passwords_t o))
      else with_passwords_f o (<[r := pw]> (o_passwords_f o))
  end.

(** The rounds of [for i in range(..)]: both constructor calls leave
    out [start], which [__init__] requires, and raise [TypeError]; a
    topic that is already scraped is passed over. *)
Fixpoint parse_range (is_topics : bool) (password : option string)
    (l : list Z) (st : opts * list task) : py (opts * list task) :=
  match l with
  | [] => Ret st
  | i :: rest =>
      let o := set_password is_topics i password st.1 in
      if is_topics && negb (bool_decide (i ∈ o_scraped_topics o)) then Raise TypeError
      else if negb is_topics then Raise TypeError
      else parse_range is_topics password rest (o, st.2)
  end.

(** One round of [for r in item_list]. *)
Definition parse_item (is_topics : bool) (password : option string)
    (r : string) (st : opts * list task) : py (opts * list task) :=
  if negb (contains "-" r) then
    n ← int_of_str r;
    let o := set_password is_topics n password st.1 in
    if is_topics && negb (bool_decide (n ∈ o_scraped_topics o)) then
      Ret (o, st.2 ++ [PhpBBTopic n 0])
    else if negb is_topics then
      Ret (o, st.2 ++ [PhpBBForum n 0])
    else Ret (o, st.2)
  else
    match split_on "-" r with
    | [a; b] =>
        x ← int_of_str a;
        y ← int_of_str b;
        parse_range is_topics password (range_incl x y) st
    | _ => Raise ValueError
    end.

Fixpoint parse_items (is_topics : bool) (password : option string)
    (l : list string) (st : opts * list task) : py (opts * list task) :=
  match l with
  | [] => Ret st
  | r :: rest =>
      st' ← parse_item is_topics password r st;
      parse_items is_topics password rest st'
  end.

(** One round of [for t in arg]. *)
Definition parse_spec (is_topics : bool) (t : string) (st : opts * list task)
    : py (opts * list task) :=
  let '(t, password) :=
    match split_first ":" t with
    | Some (l, r) => (l, Some r)
    | None => (t, None)
    end in
  parse_items is_topics password (split_on "," t) st.

Fixpoint _parse_arg (is_topics : bool) (arg : list string) (st : opts * list task)
    : py (opts * list task) :=
  match arg with
  | [] => Ret st
  | t :: rest =>
      st' ← parse_spec is_topics t st;
      _parse_arg is_topics rest st'
  end.

(** ** The scraper *)

Record PhpBBScraper : Type := mkScraper {
  s_opts : opts;
  s_page_merger : page_merger;
  s_topics : list task;
  s_processed_pages : Z;
  s_queue : RequestsIter
}.

(** The resume set built at start-up: [_load_state] runs only when
    [force] is 0. *)
Definition resume_set (fs : filesystem) (o : opts) : list Z :=
  if o_force o =? 0 then _load_state fs (o_output o) else [].

(** [PhpBBScraper.__init__] *)
Definition PhpBBScraper_init (fs : filesystem) (o : opts)
    (forums_arg topics_arg : list string) : py PhpBBScraper :=
  let o := with_scraped_topics o (resume_set fs o) in
  let topics := if o_save_users o then [PhpBBUsers 0] else [] in
  let forums_arg :=
    if o_save_users o then forums_arg
    else match forums_arg, topics_arg with
         | [], [] => ["0"%string]
         | _, _ => forums_arg
         end in
  st ← _parse_arg false forums_arg (o, topics);
  st' ← _parse_arg true topics_arg st;
  Ret (mkScraper st'.1 PageMerger_init st'.2 0 RequestsIter_init).

Definition PhpBBScraper_enqueue (s : PhpBBScraper) (pages : list task) : PhpBBScraper :=
  mkScraper (s_opts s) (s_page_merger s) (s_topics s) (s_processed_pages s)
            (fold_left RequestsIter_put pages (s_queue s)).

Definition PhpBBScraper_processed (s : PhpBBScraper) : PhpBBScraper :=
  mkScraper (s_opts s) (s_page_merger s) (s_topics s) (s_processed_pages s)
            (RequestsIter_processed (s_queue s)).

(** The tuple that [PhpBBScraper.scrape] yields for one result of
    [send_worker]: [(ok, obj, response, page_merger)]; the last field
    is [true] when the merger is passed and [false] for [None]. *)
Record yielded : Type := mkYielded {
  y_ok : bool;
  y_obj : option task;
  y_resp : option (response html_page);
  y_merger : bool
}.

Definition is_first_topic_page (obj : option task) : bool :=
  match obj with
  | Some (PhpBBTopic _ start) => start =? 0
  | _ => false
  end.

(** The body of the [for response, obj in ..] loop of
    [PhpBBScraper.scrape]. *)
Definition scrape_yield (s : PhpBBScraper) (resp : option (response html_page))
    (obj : option task) : yielded * PhpBBScraper :=
  match resp with
  | None => (mkYielded false obj None false, PhpBBScraper_processed s)
  | Some r =>
      let s1 := mkScraper (s_opts s) (s_page_merger s) (s_topics s)
                  (if is_first_topic_page obj then s_processed_pages s + 1
                   else s_processed_pages s)
                  (s_queue s) in
      if status_code r =? 200 then (mkYielded true obj (Some r) true, s1)
      else (mkYielded false obj (Some r) false, PhpBBScraper_processed s1)
  end.

(** ** scrape_worker *)

(** What [scrape_worker] returns ([None] inside [Ret] is Python's
    [None]), the merger after it, and the calls of [obj.scrape] it
    made. *)
Record worker_result : Type := mkWorkerResult {
  w_pages : py (option (list task));
  w_merger : page_merger;
  w_scraped : list (task * response html_page)
}.

Definition scrape_worker (fs : filesystem) (o : opts) (args : yielded)
    (m : page_merger) : worker_result :=
  match y_obj args with
  | None => mkWorkerResult (Ret (Some [])) m []
  | Some obj =>
      if negb (y_ok args) then mkWorkerResult (Ret (Some [])) m []
      else
        match y_resp args with
        | None => mkWorkerResult (Raise AttributeError) m []
        | Some r =>
            let '(res, m') := task_scrape fs o obj r m in
            mkWorkerResult
              (pages ← res;
               Ret (if (length pages =? 0)%nat then None else Some pages))
              m' [(obj, r)]
        end
  end.

(** ** The loop of main *)

(** The body of [for pages in pool.imap_unordered(scrape_worker, ..)]
    in the first loop of [main]. *)
Definition main_handle (s : PhpBBScraper) (pages : option (list task)) : PhpBBScraper :=
  match pages with
  | None => PhpBBScraper_processed s
  | Some l => PhpBBScraper_processed (PhpBBScraper_enqueue s l)
  end.

(** One task through both stages, one after the other: [send_worker],
    the loop body of [PhpBBScraper.scrape], [scrape_worker], the loop
    body of [main]. [None] when the task goes no further
    ([sys.exit] in [send_worker], or an exception out of
    [scrape_worker]). *)
Record step_result : Type := mkStepResult {
  st_sent : send_result html_page;
  st_yield : option yielded;
  st_worker : option worker_result;
  st_scraper : option PhpBBScraper
}.

Definition with_merger (s : PhpBBScraper) (m : page_merger) : PhpBBScraper :=
  mkScraper (s_opts s) m (s_topics s) (s_processed_pages s) (s_queue s).

Definition pipeline_step (net : nat -> request_outcome html_page) (fs : filesystem)
    (s : PhpBBScraper) (r : task) : step_result :=
  let sent := send_worker net (o_max_retries (s_opts s)) r in
  match sr_value sent with
  | Exited _ => mkStepResult sent None None None
  | Returned resp obj =>
      let '(y, s1) := scrape_yield s resp obj in
      let w := scrape_worker fs (s_opts s) y (s_page_merger s1) in
      mkStepResult sent (Some y) (Some w)
        match w_pages w with
        | Raise _ => None
        | Ret pages => Some (main_handle (with_merger s1 (w_merger w)) pages)
        end
  end.

(** [PhpBBScraper.force_merge] *)
Definition force_merge (fs : filesystem) (s : PhpBBScraper)
    : py (list task) * PhpBBScraper :=
  let r := PageMerger_force_save (class_save fs) (s_page_merger s) in
  (r.1, with_merger s r.2).

(* ===================================================================== *)
(** * Notions used in the statements *)
(* ===================================================================== *)

Section ShardNotions.
Context {Item : Type}.

(** Writing one shard, and a run of shards, into a slot array. *)
Definition place (data : list (option Item)) (s : shard Item) : list (option Item) :=
  slice_assign data s.1 (Some <$> s.2).

Definition place_all (data : list (option Item)) (ss : list (shard Item))
    : list (option Item) :=
  fold_left place ss data.

(** The items of [s] sit in [data] at the offset of [s]. *)
Definition placed (s : shard Item) (data : list (option Item)) : Prop :=
  forall i x, s.2 !! i = Some x -> data !! (s.1 + i)%nat = Some (Some x).

(** Two slices that do not overlap. *)
Definition disjoint_shards (s s' : shard Item) : Prop :=
  (s.1 + length s.2 <= s'.1)%nat \/ (s'.1 + length s'.2 <= s.1)%nat.

(** A slice inside [[0, n)]. *)
Definition in_bounds (n : nat) (s : shard Item) : Prop :=
  (s.1 + length s.2 <= n)%nat.

(** The number of items of a run of shards. *)
Definition total_items (ss : list (shard Item)) : nat :=
  sum_list_with (fun s : shard Item => length s.2) ss.
End ShardNotions.


(** No topic page of a resumed id among the page objects [l]. *)
Definition no_resumed_topic (resumed : list Z) (l : list task) : Prop :=
  forall id start, PhpBBTopic id start ∈ l -> id ∉ resumed.

(** What [_parse_arg] keeps true of the options and the seeded pages. *)
Definition seeded_ok (resumed : list Z) (st : opts * list task) : Prop :=
  o_scraped_topics st.1 = resumed /\ no_resumed_topic resumed st.2.

(* ===================================================================== *)
(** * Sample values *)
(* ===================================================================== *)

(** The options of a run without flags, a disk without files on which
    every write succeeds, and small documents; used in examples. *)
Definition sample_opts : opts :=
  mkOpts "http://forum.example"%string "out"%string
         false false false false 0 3 ∅ ∅ [] None.

Definition empty_disk : filesystem :=
  mkFilesystem (fun _ => false) (fun _ => true) (fun _ => true) (fun _ => []).

Definition sample_post (id : Z) : post :=
  mkPost id None (DateText "today"%string) [] None "text"%string
         "subject"%string 7 ("5"%string, "Forum"%string).

Definition sample_ctx : save_ctx := (sample_opts, [("5"%string, "Forum"%string)]).

(** A response with the given status and an otherwise empty document. *)
Definition blank_page : html_page :=
  mkPage false false None [] [] None [] [] None [] [] None true.

Definition sample_response (status : Z) : response html_page :=
  mkResponse status blank_page.

(** A network on which every request fails to connect. *)
Definition dead_net : nat -> request_outcome html_page :=
  fun _ => ConnectionError.

(** A half-delivered topic: two posts expected, the first page in. *)
Definition half_topic : page_merger :=
  (PageMerger_add (class_save empty_disk) PageMerger_init sample_ctx
                  (TopicKey 7) ClsTopic [PostItem (sample_post 1)] 2).2.

(** A scraper around a given queue. *)
Definition sample_scraper (q : RequestsIter) : PhpBBScraper :=
  mkScraper sample_opts PageMerger_init [] 0 q.

(** The queue after one task was put and taken again. *)
Definition one_in_flight : RequestsIter :=
  (RequestsIter_next (RequestsIter_put RequestsIter_init (PhpBBTopic 7 0))).2.

(** A network that answers every request with the given status. *)
Definition status_net (status : Z) : nat -> request_outcome html_page :=
  fun _ => Responded (sample_response status).

(** A network that fails once and then answers. *)
Definition flaky_net (status : Z) : nat -> request_outcome html_page :=
  fun i => match i with
           | O => ConnectionError
           | S _ => Responded (sample_response status)
           end.

(** A post element whose content [_html2bb] cannot transform, one it
    can, and a topic page showing the good one before the bad one. *)
Definition bad_post_elem : post_elem :=
  mkPostElem "p12"%string None (Some (mkAuthor true true "today"%string)) None
             true None [].

Definition good_post_elem : post_elem :=
  mkPostElem "p11"%string None (Some (mkAuthor true true "today"%string)) None
             true (Some (mkBB [] None "text"%string)) [].

Definition broken_topic_page : html_page :=
  mkPage false false None [("5"%string, "Forum"%string)] [] (Some (Some 2%nat))
         [] [] (Some "subject"%string) [good_post_elem; bad_post_elem] []
         None true.




(** The options of a run with [--force] given [n] times and with
    [--save-media]. *)
Definition forced_opts (n : Z) : opts :=
  mkOpts "http://forum.example"%string "out"%string
         false true false false n 3 ∅ ∅ [] None.

(** A disk holding the document of topic 12 in the directory of
    forum 5, next to the forum's [_meta.json]. *)
Definition resumed_disk : filesystem :=
  mkFilesystem (fun _ => false) (fun _ => true) (fun _ => true)
    (fun _ => [("out"%string, ["5"%string], []);
               ("out/5"%string, [], ["_meta.json"%string; "12.json"%string])]).

(** The listing of forum 5 with links to topics 12 and 13. *)
Definition listing_page : html_page :=
  mkPage false false None [("5"%string, "Forum"%string)] [] None []
         ["./viewtopic.php?f=5&t=12"%string; "./viewtopic.php?f=5&t=13"%string]
         None [] [] None true.

(** A disk on which every file asked for is there. *)
Definition full_disk : filesystem :=
  mkFilesystem (fun _ => true) (fun _ => true) (fun _ => true) (fun _ => []).

(** A member list with one member, and a post with one attachment. *)
Definition members_page : html_page :=
  mkPage false false None [] [] (Some (Some 1%nat)) [] [] None []
         [mkMemberRow "./memberlist.php?mode=viewprofile&u=42"%string
                      "alice"%string "today"%string None]
         None true.

Definition post_with_file : post :=
  mkPost 1 None (DateText "today"%string)
         [("a.png"%string, "http://forum.example/download/file.php?id=9"%string)]
         None "text"%string "subject"%string 7 ("5"%string, "Forum"%string).

(* ===================================================================== *)
(** * Notions used in further statements *)
(* ===================================================================== *)

Section MergerNotions.
Context {Item Media Ctx : Type}.
Variable class_save :
  save_class -> Ctx -> doc_key -> list (option Item) -> py (list Media).

(** Every open document still waits for items. *)
Definition open_positive (m : merger Item Ctx) : Prop :=
  forall k v, pages m !! k = Some v -> 0 < p_remain v.

(** The mergers that calls of [add] and [append] which returned make
    of a new [PageMerger]. *)
Inductive merger_reachable : merger Item Ctx -> Prop :=
  | reach_new : merger_reachable PageMerger_init
  | reach_add m ctx key cls data size media m' :
      merger_reachable m ->
      PageMerger_add class_save m ctx key cls data size = (Ret media, m') ->
      merger_reachable m'
  | reach_append m key data offset media m' :
      merger_reachable m ->
      PageMerger_append class_save m key data offset = (Ret media, m') ->
      merger_reachable m'.
End MergerNotions.

(** A run of the queue in which [processed] is called once for each
    task taken from the queue and at no other time; the number counts
    the tasks taken and not yet marked. *)
Inductive queue_run : RequestsIter -> nat -> Prop :=
  | run_init : queue_run RequestsIter_init 0
  | run_put q n t : queue_run q n -> queue_run (RequestsIter_put q t) n
  | run_next q n t q' :
      queue_run q n -> RequestsIter_next q = (Some t, q') -> queue_run q' (S n)
  | run_processed q n : queue_run q (S n) -> queue_run (RequestsIter_processed q) n.

(** The body of [for pages in pool.imap_unordered(scrape_worker, ..)]
    in the second loop of [main], which fetches the media of the
    documents saved by [force_merge]: [None] is passed over. *)
Definition main_handle_media (s : PhpBBScraper) (pages : option (list task))
    : PhpBBScraper :=
  match pages with
  | None => s
  | Some l => PhpBBScraper_processed (PhpBBScraper_enqueue s l)
  end.

(** One task through both stages in the second loop of [main]. *)
Definition pipeline_step_media (net : nat -> request_outcome html_page)
    (fs : filesystem) (s : PhpBBScraper) (r : task) : step_result :=
  let sent := send_worker net (o_max_retries (s_opts s)) r in
  match sr_value sent with
  | Exited _ => mkStepResult sent None None None
  | Returned resp obj =>
      let '(y, s1) := scrape_yield s resp obj in
      let w := scrape_worker fs (s_opts s) y (s_page_merger s1) in
      mkStepResult sent (Some y) (Some w)
        match w_pages w with
        | Raise _ => None
        | Ret pages => Some (main_handle_media (with_merger s1 (w_merger w)) pages)
        end
  end.

(** The pagination offset of a page object is not negative. *)
Definition start_nonneg (t : task) : Prop :=
  match t with
  | PhpBBForum _ start => 0 <= start
  | PhpBBTopic _ start => 0 <= start
  | PhpBBUsers start => 0 <= start
  | _ => True
  end.

(** [c not in s] for a character. *)
Fixpoint lacks (c : ascii) (s : string) : bool :=
  match s with
  | EmptyString => true
  | String a s' => negb (Ascii.eqb a c) && lacks c s'
  end.

(** Every character of [s] passes the test [p]. *)
Fixpoint all_chars (p : ascii -> bool) (s : string) : bool :=
  match s with
  | EmptyString => true
  | String c s' => p c && all_chars p s'
  end.

(** The characters of a string that [int] reads. *)
Definition int_char (c : ascii) : bool :=
  is_space c || is_digit c || Ascii.eqb c "-" || Ascii.eqb c "+" || Ascii.eqb c "_".

(** A slot array of a topic: empty slots and posts, no user dict. *)
Definition posts_only (data : list (option item)) : Prop :=
  Forall (fun d => match d with Some (UserItem _) => False | _ => True end) data.

(** The file requests that [PhpBBTopic.save] makes for one post when
    it makes one for each reference: attachments on the shared
    session, inline media on a session of their own. *)
Definition all_file_requests (fpaths : list path_seg) (p : post) : list task :=
  ((fun i : string * string => FileSaver fpaths i.1 i.2 true) <$> files p) ++
  ((fun i : string * string => FileSaver fpaths i.1 i.2 false) <$>
     match media p with Some l => l | None => [] end).

(** The same, leaving out the files that are on disk. *)
Definition missing_file_requests (fs : filesystem) (o : opts)
    (fpaths : list path_seg) (p : post) : list task :=
  let missing := List.filter
    (fun i : string * string => negb (isfile fs (full_path (o_output o) fpaths i.1))) in
  ((fun i : string * string => FileSaver fpaths i.1 i.2 true) <$> missing (files p)) ++
  ((fun i : string * string => FileSaver fpaths i.1 i.2 false) <$>
     missing match media p with Some l => l | None => [] end).

(** The two pages of a topic of two posts. *)
Definition first_topic_page : html_page :=
  mkPage false false None [("5"%string, "Forum"%string)] [] (Some (Some 2%nat))
         [] [] (Some "subject"%string) [good_post_elem] [] None true.

Definition second_topic_page : html_page :=
  mkPage false false None [("5"%string, "Forum"%string)] [] (Some (Some 2%nat))
         [] [] (Some "subject"%string)
         [mkPostElem "p13"%string None (Some (mkAuthor true true "later"%string)) None
                     true (Some (mkBB [] None "more"%string)) []] []
         None true.

(** A page that shows the board's message box. *)
Definition message_page : html_page :=
  mkPage true false None [] [] None [] [] None [] []
         (Some "The requested topic does not exist."%string) true.

(** A message box whose paragraph mixes text and markup, so that its
    [.string] is [None]. *)
Definition markup_message_page : html_page :=
  mkPage true false None [] [] None [] [] None [] [] None true.

(** The log lines of a wall can be formatted: the message is a single
    string, and for the two classes that log the title and the forum
    id, the document has a title and the submission holds [f]. *)
Definition wall_readable (obj : task) (pg : html_page) : Prop :=
  (pg_message pg = true -> is_Some (pg_message_string pg)) /\
  match obj with
  | PhpBBUsers _ => pg_title pg = true
  | PhpBBForumPassword _ _ params =>
      pg_title pg = true /\ is_Some (params !! "f"%string)
  | _ => True
  end.

(** [for r in queue]: taking tasks until [StopIteration]; the number
    bounds the rounds. *)
Fixpoint drain (n : nat) (q : RequestsIter) : list task * RequestsIter :=
  match n with
  | O => ([], q)
  | S n' =>
      match RequestsIter_next q with
      | (None, q') => ([], q')
      | (Some t, q') => let r := drain n' q' in (t :: r.1, r.2)
      end
  end.

(** ['&'.join(args)], for any separator. *)
Fixpoint join (sep : string) (args : list string) : string :=
  match args with
  | [] => EmptyString
  | a :: rest =>
      match rest with
      | [] => a
      | _ => (a ++ sep ++ join sep rest)%string
      end
  end.

(** [if 'sid' in self._opts: args.append('sid={}'.format(..))] *)
Definition sid_arg (o : opts) : list string :=
  match o_sid o with
  | Some sid => [("sid=" ++ sid)%string]
  | None => []
  end.

(** [if n: args.append('name={}'.format(n))] for an int [n]. *)
Definition int_arg (name : string) (n : Z) : list string :=
  if n =? 0 then [] else [(name ++ "=" ++ str_of_int n)%string].

(** [PhpBBForum._url]: the address alone when there is no argument. *)
Definition PhpBBForum_url (o : opts) (forum_id start : Z) : string :=
  match (sid_arg o ++ int_arg "f" forum_id ++ int_arg "start" start)%list with
  | [] => o_url o
  | args => (o_url o ++ "/viewforum.php?" ++ join "&" args)%string
  end.

(** [PhpBBTopic._url]; [post] is only ever given for a log line. *)
Definition PhpBBTopic_url (o : opts) (topic_id start post : Z) : string :=
  (o_url o ++ "/viewtopic.php?" ++
   join "&" (sid_arg o ++ int_arg "t" topic_id ++ int_arg "start" start ++
             int_arg "p" post)%list)%string.

(** [PhpBBUsers._url] *)
Definition PhpBBUsers_url (o : opts) (start : Z) : string :=
  (o_url o ++ "/memberlist.php?" ++
   join "&" (sid_arg o ++ int_arg "start" start)%list)%string.

(** The value a query holds for an int argument of an address: none
    when it is [0]. *)
Definition int_param (n : Z) : option string :=
  if n =? 0 then None else Some (str_of_int n).

(** A string that can stand in a query without changing how it is
    split. *)
Definition query_safe (s : string) : Prop :=
  lacks "&" s = true /\ lacks "=" s = true /\ lacks "#" s = true.

(** An address without query and fragment, and a session id that can
    stand in a query. *)
Definition splits_plainly (o : opts) : Prop :=
  lacks "?" (o_url o) = true /\ lacks "#" (o_url o) = true /\
  forall sid, o_sid o = Some sid -> query_safe sid.

Definition is_alnum (c : ascii) : bool :=
  let n := nat_of_ascii c in
  ((48 <=? n) && (n <=? 57) || (65 <=? n) && (n <=? 90) ||
   (97 <=? n) && (n <=? 122))%nat.

(** The characters of an address that [urlparse] takes as they are
    and that end neither the path nor the query: letters, digits and
    [- . _ ~ : / %]. White space and control characters (which
    [urlparse] removes), brackets (which it checks) and characters
    from 128 on are not among them. *)
Definition address_char (c : ascii) : bool :=
  is_alnum c || Ascii.eqb c "-" || Ascii.eqb c "." || Ascii.eqb c "_" ||
  Ascii.eqb c "~" || Ascii.eqb c ":" || Ascii.eqb c "/" || Ascii.eqb c "%".

(** A board address made of such characters, and a session id made of
    letters and digits. *)
Definition plain_address (o : opts) : Prop :=
  all_chars address_char (o_url o) = true /\
  forall sid, o_sid o = Some sid -> all_chars is_alnum sid = true.

(** The file name [full_path] uses: separators replaced, and [.unk]
    when the name has no dot. *)
Definition saved_name (fname : string) : string :=
  (sanitize fname ++ (if lacks "." fname then ".unk" else ""))%string.

Definition session_opts : opts :=
  mkOpts "http://forum.test" "out" false false false false 0 3 ∅ ∅ []
         (Some "abc"%string).

(** The [name=value] parts of the addresses, as pairs. *)
Definition sid_kv (o : opts) : list (string * string) :=
  match o_sid o with
  | Some sid => [("sid"%string, sid)]
  | None => []
  end.

Definition int_kv (name : string) (n : Z) : list (string * string) :=
  if n =? 0 then [] else [(name, str_of_int n)].

Definition query_of (kvs : list (string * string)) : gmap string string :=
  fold_left (fun (d : gmap string string) kv => <[kv.1 := kv.2]> d) kvs ∅.

(* ===================================================================== *)
(** * Command line *)
(* ===================================================================== *)

(** [scraper_opts] while [main] reads the command line: the keys the
    option loop writes, with the two lists [forums] and [topics] it
    fills. [mo_url] is the key [url], absent at the start. *)
Record main_opts : Type := mkMainOpts {
  mo_url : option string;
  mo_headers : gmap string string;
  mo_output : option string;
  mo_log_level : log_level;
  mo_log_file : option string;
  mo_parse_date : bool;
  mo_save_media : bool;
  mo_save_attachments : bool;
  mo_save_users : bool;
  mo_force : Z;
  mo_max_workers : Z;
  mo_pool_size : Z;
  mo_forums : list string;
  mo_topics : list string
}.

(** The module-level [scraper_opts]. *)
Definition scraper_opts : main_opts :=
  mkMainOpts None ∅ None WARNING None false false false false 0 10 1 [] [].

(** How [main] goes on: to the next statement, out by [sys.exit], or
    out by an exception nothing catches. *)
Inductive main_outcome (A : Type) : Type :=
  | Goes (a : A)
  | Exits (rc : Z)
  | Fails (e : exn).

Arguments Goes {A} a.
Arguments Exits {A} rc.
Arguments Fails {A} e.

Definition set_url (st : main_opts) (u : string) : main_opts :=
  mkMainOpts (Some u) (mo_headers st) (mo_output st) (mo_log_level st)
    (mo_log_file st) (mo_parse_date st) (mo_save_media st)
    (mo_save_attachments st) (mo_save_users st) (mo_force st)
    (mo_max_workers st) (mo_pool_size st) (mo_forums st) (mo_topics st).

Definition set_header (st : main_opts) (k v : string) : main_opts :=
  mkMainOpts (mo_url st) (<[k := v]> (mo_headers st)) (mo_output st)
    (mo_log_level st) (mo_log_file st) (mo_parse_date st) (mo_save_media st)
    (mo_save_attachments st) (mo_save_users st) (mo_force st)
    (mo_max_workers st) (mo_pool_size st) (mo_forums st) (mo_topics st).

Definition set_output (st : main_opts) (a : string) : main_opts :=
  mkMainOpts (mo_url st) (mo_headers st) (Some a) (mo_log_level st)
    (mo_log_file st) (mo_parse_date st) (mo_save_media st)
    (mo_save_attachments st) (mo_save_users st) (mo_force st)
    (mo_max_workers st) (mo_pool_size st) (mo_forums st) (mo_topics st).

Definition set_log_level (st : main_opts) (l : log_level) : main_opts :=
  mkMainOpts (mo_url st) (mo_headers st) (mo_output st) l
    (mo_log_file st) (mo_parse_date st) (mo_save_media st)
    (mo_save_attachments st) (mo_save_users st) (mo_force st)
    (mo_max_workers st) (mo_pool_size st) (mo_forums st) (mo_topics st).

Definition set_log_file (st : main_opts) (a : string) : main_opts :=
  mkMainOpts (mo_url st) (mo_headers st) (mo_output st) (mo_log_level st)
    (Some a) (mo_parse_date st) (mo_save_media st)
    (mo_save_attachments st) (mo_save_users st) (mo_force st)
    (mo_max_workers st) (mo_pool_size st) (mo_forums st) (mo_topics st).

Definition set_flags (st : main_opts) (parse_date save_media save_attachments
    save_users : bool) : main_opts :=
  mkMainOpts (mo_url st) (mo_headers st) (mo_output st) (mo_log_level st)
    (mo_log_file st) parse_date save_media save_attachments save_users
    (mo_force st) (mo_max_workers st) (mo_pool_size st) (mo_forums st)
    (mo_topics st).

Definition set_numbers (st : main_opts) (force max_workers pool_size : Z)
    : main_opts :=
  mkMainOpts (mo_url st) (mo_headers st) (mo_output st) (mo_log_level st)
    (mo_log_file st) (mo_parse_date st) (mo_save_media st)
    (mo_save_attachments st) (mo_save_users st) force max_workers pool_size
    (mo_forums st) (mo_topics st).

Definition set_targets (st : main_opts) (forums topics : list string) : main_opts :=
  mkMainOpts (mo_url st) (mo_headers st) (mo_output st) (mo_log_level st)
    (mo_log_file st) (mo_parse_date st) (mo_save_media st)
    (mo_save_attachments st) (mo_save_users st) (mo_force st)
    (mo_max_workers st) (mo_pool_size st) forums topics.

(** [int(a)] where nothing catches the [ValueError]. *)
Definition main_int (a : string) (k : Z -> main_outcome main_opts)
    : main_outcome main_opts :=
  match int_of_str a with
  | Ret n => k n
  | Raise e => Fails e
  end.

(** The [-v] branch: one step from [WARNING] to [INFO], one from
    [INFO] to [DEBUG]. *)
Definition more_verbose (l : log_level) : log_level :=
  match l with
  | WARNING => INFO
  | INFO => DEBUG
  | l => l
  end.

(** The body of [for o, a in opts]; [o in (..)] is membership in the
    tuple as written, [o == ..] equality. *)
Definition read_option (st : main_opts) (oa : string * string)
    : main_outcome main_opts :=
  let o := oa.1 in
  let a := oa.2 in
  if bool_decide (o ∈ ["-h"; "--help"]%string) then Exits 0
  else if bool_decide (o = "--parse-date"%string) then
    Goes (set_flags st true (mo_save_media st) (mo_save_attachments st)
                    (mo_save_users st))
  else if bool_decide (o = "--force"%string) then
    Goes (set_numbers st (mo_force st + 1) (mo_max_workers st) (mo_pool_size st))
  else if bool_decide (o ∈ ["-f"; "--forum"]%string) then
    Goes (set_targets st (mo_forums st ++ [a]) (mo_topics st))
  else if bool_decide (o ∈ ["-t"; "--topic"]%string) then
    Goes (set_targets st (mo_forums st) (mo_topics st ++ [a]))
  else if bool_decide (o ∈ ["-w"; "--workers="]%string) then
    main_int a (fun n => Goes (set_numbers st (mo_force st) n (mo_pool_size st)))
  else if bool_decide (o ∈ ["-p"; "--pool-size="]%string) then
    main_int a (fun n => Goes (set_numbers st (mo_force st) (mo_max_workers st) n))
  else if bool_decide (o ∈ ["-a"; "--user-agent="]%string) then
    Goes (set_header st "user-agent" a)
  else if bool_decide (o ∈ ["-c"; "--cookie="]%string) then
    Goes (set_header st "cookie" a)
  else if bool_decide (o ∈ ["-m"; "--save-media"]%string) then
    Goes (set_flags st (mo_parse_date st) true (mo_save_attachments st)
                    (mo_save_users st))
  else if bool_decide (o ∈ ["-s"; "--save-attachments"]%string) then
    Goes (set_flags st (mo_parse_date st) (mo_save_media st) true
                    (mo_save_users st))
  else if bool_decide (o ∈ ["-u"; "--save-users"]%string) then
    Goes (set_flags st (mo_parse_date st) (mo_save_media st)
                    (mo_save_attachments st) true)
  else if bool_decide (o ∈ ["-o"; "--output="]%string) then
    Goes (set_output st a)
  else if bool_decide (o ∈ ["-l"; "--log-file="]%string) then
    Goes (set_log_file st a)
  else if bool_decide (o = "-v"%string) then
    Goes (set_log_level st (more_verbose (mo_log_level st)))
  else Goes st.

Fixpoint read_options (parsed : list (string * string)) (st : main_opts)
    : main_outcome main_opts :=
  match parsed with
  | [] => Goes st
  | oa :: rest =>
      match read_option st oa with
      | Goes st' => read_options rest st'
      | Exits rc => Exits rc
      | Fails e => Fails e
      end
  end.

(** [if scraper_opts['log_file'] is None: ..['log_level'] = logging.INFO] *)
Definition settle_log_level (st : main_opts) : main_opts :=
  match mo_log_file st with
  | None => set_log_level st INFO
  | Some _ => st
  end.

(** [main] from [getopt.getopt] to the log level, on the answer of
    [getopt]: [None] for a [GetoptError], else the options as pairs
    (for a long option the name as [--name], without [=]) and the
    remaining arguments. The [IndexError] of [args[-1]] is raised in
    the [try], which catches [GetoptError] only. The output directory
    left at [None] is set to the host of the address afterwards. *)
Definition main_options (st : main_opts)
    (r : option (list (string * string) * list string))
    : main_outcome main_opts :=
  match r with
  | None => Exits 2
  | Some (parsed, args) =>
      match last args with
      | None => Fails IndexError
      | Some u =>
          let st := set_url st u in
          match mo_url st with
          | None => Exits 1
          | Some _ =>
              match read_options parsed st with
              | Goes st' => Goes (settle_log_level st')
              | Exits rc => Exits rc
              | Fails e => Fails e
              end
          end
      end
  end.

(** How often an option is given. *)
Definition times (o : string) (parsed : list (string * string)) : nat :=
  length (filter (fun oa => oa.1 = o) parsed).

(** The options with a value that [main] reads under their short
    name only. *)
Definition short_value_options : list string :=
  ["-w"; "-p"; "-a"; "-c"; "-o"; "-l"]%string.

(** The option names [getopt.getopt] can return for the short and
    long options [main] asks for. *)
Definition getopt_names : list string :=
  ["-h"; "-f"; "-t"; "-w"; "-a"; "-c"; "-m"; "-s"; "-o"; "-u"; "-p"; "-v"; "-l";
   "--help"; "--force"; "--forum"; "--topic"; "--workers"; "--pool-size";
   "--user-agent"; "--cookie"; "--save-media"; "--save-attachments";
   "--save-users"; "--output"; "--log-file"; "--parse-date"]%string.

Definition long_value_options : list (string * string) :=
  [("--workers", "4"); ("--pool-size", "x"); ("--user-agent", "ua");
   ("--cookie", "c"); ("--output", "dir"); ("--log-file", "f")]%string.

(** A disk with oddly named documents. *)
Definition odd_names_disk : filesystem :=
  mkFilesystem (fun _ => false) (fun _ => true) (fun _ => true)
    (fun _ => [("out"%string, [],
                ["+7.json"; " 8.json"; "1_0.json"; "_meta.json"; "users.json";
                 "9.json.bak"; "1__1.json"]%string)]).

(** The items of a command-line target: the part before the first
    [:], split at the commas. *)
Definition target_items (t : string) : list string :=
  split_on "," (match split_first ":" t with Some (l, _) => l | None => t end).

(** The page an item without a minus sign seeds. *)
Definition item_seed (is_topics : bool) (scraped : list Z) (r : string) : list task :=
  if contains "-" r then []
  else match int_of_str r with
       | Ret n =>
           if is_topics
           then (if bool_decide (n ∈ scraped) then [] else [PhpBBTopic n 0])
           else [PhpBBForum n 0]
       | Raise _ => []
       end.

Definition arg_seed (is_topics : bool) (scraped : list Z) (arg : list string)
    : list task :=
  concat ((fun t => concat (item_seed is_topics scraped <$> target_items t)) <$> arg).

(* ===================================================================== *)
(** * Properties *)
(* ===================================================================== *)

(* ===================================================================== *)
(** * Slice assignment *)
(* ===================================================================== *)

Section SliceAssign.
Context {A : Type}.
Implicit Types (l d : list A) (o i j : nat).

Lemma length_slice_assign l o d :
  (o + length d <= length l)%nat ->
  length (slice_assign l o d) = length l.
Proof.
  intros H. unfold slice_assign.
  rewrite !length_app, length_take, length_drop. lia.
Qed.

Lemma lookup_slice_assign_in l o d i :
  (o <= length l)%nat -> (i < length d)%nat ->
  slice_assign l o d !! (o + i)%nat = d !! i.
Proof.
  intros Ho Hi. unfold slice_assign.
  rewrite lookup_app_r; rewrite length_take; [|lia].
  replace (o + i - o `min` length l)%nat with i by lia.
  by rewrite lookup_app_l.
Qed.

Lemma lookup_slice_assign_before l o d j :
  (o <= length l)%nat -> (j < o)%nat -> slice_assign l o d !! j = l !! j.
Proof.
  intros Ho Hj. unfold slice_assign.
  rewrite lookup_app_l; [|rewrite length_take; lia].
  by rewrite lookup_take_lt.
Qed.

Lemma lookup_slice_assign_after l o d j :
  (o + length d <= length l)%nat -> (o + length d <= j)%nat ->
  slice_assign l o d !! j = l !! j.
Proof.
  intros Hb Hj. unfold slice_assign.
  rewrite lookup_app_r; rewrite length_take; [|lia].
  rewrite lookup_app_r by lia.
  rewrite lookup_drop. f_equal. lia.
Qed.

Lemma slice_assign_fresh d n :
  (length d <= n)%nat ->
  forall x : A, slice_assign (replicate n x) 0 d = d ++ replicate (n - length d) x.
Proof.
  intros Hn x. unfold slice_assign. simpl.
  by rewrite drop_replicate.
Qed.
End SliceAssign.
Section MergerFacts.
Context {Item Media Ctx : Type}.
Variable class_save :
  save_class -> Ctx -> doc_key -> list (option Item) -> py (list Media).

Implicit Types (m : merger Item Ctx) (v : pending Item Ctx)
               (s : shard Item) (ss : list (shard Item))
               (data : list (option Item)).

Lemma place_length n data s :
  length data = n -> in_bounds n s -> length (place data s) = n.
Proof.
  unfold in_bounds, place. intros <- Hb.
  apply length_slice_assign. by rewrite length_fmap.
Qed.

Lemma placed_place n data s :
  length data = n -> in_bounds n s -> placed s (place data s).
Proof.
  unfold in_bounds, place, placed. intros Hn Hb i x Hi.
  pose proof (lookup_lt_Some _ _ _ Hi) as Hlt.
  rewrite lookup_slice_assign_in; [|lia|by rewrite length_fmap].
  by rewrite list_lookup_fmap, Hi.
Qed.

Lemma placed_place_other n data s s' :
  length data = n -> in_bounds n s' -> disjoint_shards s s' ->
  placed s data -> placed s (place data s').
Proof.
  unfold in_bounds, place, placed, disjoint_shards.
  intros Hn Hb Hd Hp i x Hi.
  pose proof (lookup_lt_Some _ _ _ Hi) as Hlt.
  destruct Hd as [Hd|Hd].
  - rewrite lookup_slice_assign_before by lia. by apply Hp.
  - rewrite lookup_slice_assign_after; rewrite ?length_fmap; try lia.
    by apply Hp.
Qed.

Lemma place_all_length n ss : forall data,
  length data = n -> Forall (in_bounds n) ss -> length (place_all data ss) = n.
Proof.
  induction ss as [|s ss IH]; intros data Hn Hb; [done|].
  inversion_clear Hb. simpl. apply IH; [|done]. by apply place_length.
Qed.

Lemma placed_place_all n s ss : forall data,
  length data = n -> Forall (in_bounds n) ss -> Forall (disjoint_shards s) ss ->
  placed s data -> placed s (place_all data ss).
Proof.
  induction ss as [|s' ss IH]; intros data Hn Hb Hd Hp; [done|].
  inversion_clear Hb. inversion_clear Hd. simpl.
  apply IH; [by apply place_length|done|done|].
  by apply (placed_place_other n).
Qed.

Lemma place_all_placed n ss : forall data,
  length data = n -> Forall (in_bounds n) ss ->
  ForallOrdPairs disjoint_shards ss ->
  Forall (fun s => placed s (place_all data ss)) ss.
Proof.
  induction ss as [|s ss IH]; intros data Hn Hb Hd; [constructor|].
  inversion_clear Hb. inversion_clear Hd. constructor; simpl.
  - apply (placed_place_all n); [by apply place_length|done|done|].
    by apply (placed_place n).
  - apply IH; [by apply place_length|done|done].
Qed.

(** A chain pins down the whole tail of the slot array. *)
Lemma chain_placed n ss : forall o data,
  chain o n ss -> length data = n ->
  Forall (fun s => placed s data) ss ->
  drop o data = Some <$> concat (snd <$> ss).
Proof.
  induction ss as [|s ss IH]; intros o data Hc Hn Hp; simpl in *.
  - subst o. apply drop_ge. lia.
  - destruct Hc as (Ho & Hne & Hc). inversion_clear Hp as [|? ? Hs Hrest].
    rewrite fmap_app.
    rewrite <- (take_drop (length s.2) (drop o data)).
    rewrite drop_drop, (IH _ _ Hc Hn Hrest). f_equal.
    apply list_eq. intros i.
    destruct (s.2 !! i) as [x|] eqn:Hi.
    + pose proof (lookup_lt_Some _ _ _ Hi) as Hlt.
      rewrite lookup_take_lt, lookup_drop, list_lookup_fmap, Hi by done.
      simpl. rewrite <- Ho. by apply Hs.
    + pose proof (proj1 (lookup_ge_None _ _) Hi) as Hge.
      rewrite lookup_take_ge by done.
      by rewrite list_lookup_fmap, Hi.
Qed.

Lemma chain_bounds n ss : forall o,
  chain o n ss ->
  (o <= n)%nat /\ Forall (fun s => (o <= s.1)%nat /\ in_bounds n s) ss.
Proof.
  induction ss as [|s ss IH]; intros o Hc; simpl in *.
  - split; [lia|constructor].
  - destruct Hc as (Ho & Hne & Hc). destruct (IH _ Hc) as [Hle Hall].
    split; [lia|]. constructor.
    + split; [lia|]. unfold in_bounds. lia.
    + eapply Forall_impl; [exact Hall|]. simpl. intros s' [? ?]. split; [lia|done].
Qed.

Lemma chain_disjoint n ss : forall o,
  chain o n ss -> ForallOrdPairs disjoint_shards ss.
Proof.
  induction ss as [|s ss IH]; intros o Hc; simpl in *; [constructor|].
  destruct Hc as (Ho & Hne & Hc). constructor; [|by eapply IH].
  destruct (chain_bounds _ _ _ Hc) as [_ Hall].
  eapply Forall_impl; [exact Hall|]. simpl. intros s' [? ?].
  left. lia.
Qed.

Lemma chain_nonempty n ss : forall o,
  chain o n ss -> Forall (fun s => s.2 <> []) ss.
Proof.
  induction ss as [|s ss IH]; intros o Hc; simpl in *; [constructor|].
  destruct Hc as (Ho & Hne & Hc). constructor; [done|by eapply IH].
Qed.

Lemma chain_total n ss : forall o,
  chain o n ss -> (o + total_items ss = n)%nat.
Proof.
  induction ss as [|s ss IH]; intros o Hc; simpl in *; [lia|].
  destruct Hc as (Ho & Hne & Hc). specialize (IH _ Hc).
  unfold total_items in *. simpl. lia.
Qed.

(** In a chain from 0 only the first slice has offset 0. *)
Lemma chain_offsets n ss : forall o,
  chain o n ss -> Forall (fun s => (o <= s.1)%nat) ss.
Proof.
  intros o Hc. destruct (chain_bounds _ _ _ Hc) as [_ H].
  eapply Forall_impl; [exact H|]. by intros s' [? ?].
Qed.

Lemma disjoint_shards_sym s s' : disjoint_shards s s' -> disjoint_shards s' s.
Proof. unfold disjoint_shards. tauto. Qed.

Lemma ForallOrdPairs_Permutation (R : shard Item -> shard Item -> Prop) ss ss' :
  (forall a b, R a b -> R b a) ->
  Permutation ss ss' -> ForallOrdPairs R ss -> ForallOrdPairs R ss'.
Proof.
  intros Hsym Hperm. induction Hperm as [|x l l' Hp IH|x y l|l l' l'' _ IH1 _ IH2];
    intros H.
  - constructor.
  - inversion_clear H as [|? ? Hx Hl]. constructor; [|by apply IH].
    by rewrite <- Hp.
  - inversion_clear H as [|? ? Hy Hl]. inversion_clear Hl as [|? ? Hx Hl'].
    inversion_clear Hy as [|? ? Hyx Hyl].
    constructor; [|by constructor].
    constructor; [by apply Hsym|done].
  - by apply IH2, IH1.
Qed.

Lemma total_items_Permutation ss ss' :
  Permutation ss ss' -> total_items ss = total_items ss'.
Proof.
  unfold total_items. induction 1; simpl; lia.
Qed.
End MergerFacts.

Section MergerRuns.
Context {Item Media Ctx : Type}.
Variable class_save :
  save_class -> Ctx -> doc_key -> list (option Item) -> py (list Media).
Variables (ctx : Ctx) (key : doc_key) (cls : save_class) (size : nat).

Implicit Types (m : merger Item Ctx) (v : pending Item Ctx)
               (s : shard Item) (ss : list (shard Item)).

(** [append] on an open document that stays incomplete. *)
Lemma append_incomplete m v (d : list Item) o :
  pages m !! key = Some v ->
  0 < p_remain v - Z.of_nat (length d) ->
  PageMerger_append class_save m key d o =
    (Ret [], mkMerger (<[key := mkPending (slice_assign (p_data v) o (Some <$> d))
                                 (p_remain v - Z.of_nat (length d))
                                 (p_ctx v) (p_class v)]> (pages m))
                      (saved m)).
Proof.
  intros Hv Hr. unfold PageMerger_append. rewrite Hv. simpl.
  destruct (Z.leb_spec (p_remain v - Z.of_nat (length d)) 0); [lia|done].
Qed.

(** [append] on an open document that it completes. *)
Lemma append_complete m v (d : list Item) o :
  pages m !! key = Some v ->
  p_remain v - Z.of_nat (length d) <= 0 ->
  let data := slice_assign (p_data v) o (Some <$> d) in
  let r := PageMerger_append class_save m key d o in
  r.1 = class_save (p_class v) (p_ctx v) key data /\
  saved r.2 = saved m ++ [(key, data)] /\
  (forall media, r.1 = Ret media -> pages r.2 = delete key (pages m)).
Proof.
  intros Hv Hr. unfold PageMerger_append. rewrite Hv. simpl.
  destruct (Z.leb_spec (p_remain v - Z.of_nat (length d)) 0); [|lia].
  destruct (class_save _ _ _ _) as [media|e]; simpl.
  - split; [done|]. split; [done|]. intros _ _. apply delete_insert_eq.
  - split; [done|]. split; [done|]. intros ? [=].
Qed.

Lemma total_items_pos s ss :
  Forall (fun s : shard Item => s.2 <> []) (s :: ss) -> (0 < total_items (s :: ss))%nat.
Proof.
  inversion_clear 1 as [|? ? Hs _]. unfold total_items. simpl.
  destruct s.2; [done|simpl; lia].
Qed.

(** A run of [append]s whose items add up to what remains: the last
    one completes the document, none before does. *)
Lemma deliver_appends ss : forall m v,
  pages m !! key = Some v ->
  Forall (fun s => s.1 <> 0%nat) ss ->
  Forall (fun s => s.2 <> []) ss ->
  ss <> [] ->
  p_remain v = Z.of_nat (total_items ss) ->
  let data := place_all (p_data v) ss in
  let r := deliver class_save ctx key cls size m ss in
  r.1 = class_save (p_class v) (p_ctx v) key data /\
  saved r.2 = saved m ++ [(key, data)] /\
  (forall media, r.1 = Ret media -> pages r.2 = delete key (pages m)).
Proof.
  induction ss as [|s ss IH]; intros m v Hv Hoff Hne Hnil Hrem; [done|].
  inversion Hoff as [|? ? Hs Hoff']; subst.
  inversion Hne as [|? ? Hd Hne']; subst.
  cbn [deliver]. unfold deliver_one.
  destruct s.1 as [|o'] eqn:Eo; [done|]. rewrite <- Eo. clear Eo o' Hs.
  unfold total_items in Hrem. simpl in Hrem. fold (total_items ss) in Hrem.
  destruct ss as [|s' ss'].
  - (* the last shard *)
    unfold total_items in Hrem. simpl in Hrem.
    assert (p_remain v - Z.of_nat (length s.2) <= 0) as Hle by lia.
    destruct (append_complete m v s.2 s.1 Hv Hle) as (H1 & H2 & H3).
    simpl. destruct (PageMerger_append _ _ _ _ _) as [[media|e] m'];
      simpl in *.
    + rewrite app_nil_r. split; [done|]. split; [done|]. intros. by eapply H3.
    + split; [done|]. split; [done|]. intros ? [=].
  - (* more to come *)
    pose proof (total_items_pos _ _ Hne') as Hpos.
    assert (0 < p_remain v - Z.of_nat (length s.2)) as Hlt by lia.
    rewrite (append_incomplete m v _ _ Hv Hlt).
    set (v' := mkPending _ _ _ _).
    set (m' := mkMerger _ _).
    specialize (IH m' v').
    destruct IH as (H1 & H2 & H3); [apply lookup_insert_eq|done|done|done| |].
    { subst v'. cbn [p_remain]. lia. }
    change (place_all (p_data v) (s :: s' :: ss'))
      with (place_all (p_data v') (s' :: ss')).
    destruct (deliver _ _ _ _ _ m' _) as [[media|e] m''] eqn:Ed; simpl in *.
    + split; [done|]. split; [done|]. intros ? _.
      rewrite (H3 _ eq_refl). apply delete_insert_eq.
    + split; [done|]. split; [done|]. intros ? [=].
Qed.

(** Writing the slices of a partition into an empty slot array, in
    any order, gives the slices side by side in offset order. *)
Lemma place_all_partition ss sorted :
  chain 0 size sorted -> Permutation ss sorted ->
  place_all (replicate size None) ss = Some <$> concat (snd <$> sorted).
Proof.
  intros Hc Hperm.
  assert (Forall (in_bounds size) ss) as Hb.
  { rewrite Hperm. destruct (chain_bounds _ _ _ Hc) as [_ H].
    eapply Forall_impl; [exact H|]. by intros ? [? ?]. }
  assert (ForallOrdPairs disjoint_shards ss) as Hd.
  { eapply ForallOrdPairs_Permutation;
      [apply disjoint_shards_sym|symmetry; exact Hperm|by eapply chain_disjoint]. }
  pose proof (place_all_placed size ss (replicate size None)
                (length_replicate _ _) Hb Hd) as Hp.
  rewrite Hperm in Hp.
  assert (length (place_all (replicate size None) ss) = size) as Hlen.
  { apply place_all_length; [apply length_replicate|done]. }
  by rewrite <- (chain_placed size sorted 0 _ Hc Hlen Hp).
Qed.

(** C1, as the code has it: when the slices [(offset, items)] of the
    contributions partition [[0, N)] and the offset-0 contribution is
    delivered first (by [add], which opens the document with
    [size = N]), then in whatever order the other contributions
    arrive (by [append]), [save] is called exactly once for the key,
    with the slices side by side in offset order (no slot empty,
    none written twice), and the document is closed when [save]
    returns. *)
Theorem merge_completeness_add_first m (d0 : list Item) rest sorted :
  chain 0 size sorted ->
  Permutation ((0%nat, d0) :: rest) sorted ->
  let doc := Some <$> concat (snd <$> sorted) in
  let r := deliver class_save ctx key cls size m ((0%nat, d0) :: rest) in
  r.1 = class_save cls ctx key doc /\
  saved r.2 = saved m ++ [(key, doc)] /\
  (forall media, r.1 = Ret media -> pages r.2 = delete key (pages m)).
Proof.
  intros Hc Hperm doc r. subst doc r.
  rewrite <- (place_all_partition _ _ Hc Hperm).
  assert (Forall (fun s => s.2 <> []) ((0%nat, d0) :: rest)) as Hne.
  { rewrite Hperm. by eapply chain_nonempty. }
  assert (ForallOrdPairs disjoint_shards ((0%nat, d0) :: rest)) as Hd.
  { eapply ForallOrdPairs_Permutation;
      [apply disjoint_shards_sym|symmetry; exact Hperm|by eapply chain_disjoint]. }
  assert (total_items ((0%nat, d0) :: rest) = size) as Htot.
  { rewrite (total_items_Permutation _ _ Hperm).
    by rewrite <- (chain_total _ _ _ Hc). }
  inversion_clear Hne as [|? ? Hd0 Hne']. simpl in Hd0.
  inversion_clear Hd as [|? ? Hd1 _].
  assert (Forall (fun s => s.1 <> 0%nat) rest) as Hoff.
  { rewrite Forall_forall in Hd1, Hne'. apply Forall_forall. intros s Hs.
    specialize (Hd1 s Hs). specialize (Hne' s Hs).
    unfold disjoint_shards in Hd1. simpl in Hd1.
    destruct d0; [done|]. destruct s.2; [done|]. simpl in Hd1. lia. }
  unfold total_items in Htot. simpl in Htot. fold (total_items rest) in Htot.
  cbn [deliver]. unfold deliver_one. cbn [fst snd]. unfold PageMerger_add.
  set (v0 := mkPending (replicate size None) (Z.of_nat size) ctx cls).
  set (m0 := mkMerger (<[key := v0]> (pages m)) (saved m)).
  assert (pages m0 !! key = Some v0) as Hv0 by apply lookup_insert_eq.
  destruct rest as [|s rest'].
  - unfold total_items in Htot. simpl in Htot.
    assert (p_remain v0 - Z.of_nat (length d0) <= 0) as Hle.
    { subst v0. cbn [p_remain]. lia. }
    destruct (append_complete m0 v0 d0 0 Hv0 Hle) as (H1 & H2 & H3).
    destruct (PageMerger_append _ _ _ _ _) as [[media|e] m']; simpl in *.
    + rewrite app_nil_r. split; [done|]. split; [done|]. intros ? _.
      rewrite (H3 _ eq_refl). apply delete_insert_eq.
    + split; [done|]. split; [done|]. intros ? [=].
  - pose proof (total_items_pos _ _ Hne') as Hpos.
    assert (0 < p_remain v0 - Z.of_nat (length d0)) as Hlt.
    { subst v0. cbn [p_remain]. unfold shard in *. lia. }
    rewrite (append_incomplete m0 v0 _ _ Hv0 Hlt).
    set (v1 := mkPending _ _ _ _).
    set (m1 := mkMerger _ _).
    destruct (deliver_appends (s :: rest') m1 v1) as (H1 & H2 & H3);
      [apply lookup_insert_eq|done|done|done| |].
    { subst v1 v0. cbn [p_remain]. lia. }
    change (place_all (replicate size None) ((0%nat, d0) :: s :: rest'))
      with (place_all (p_data v1) (s :: rest')).
    destruct (deliver _ _ _ _ _ m1 _) as [[media|e] m''] eqn:Ed; simpl in *.
    + split; [done|]. split; [done|]. intros ? _.
      rewrite (H3 _ eq_refl). subst m0. simpl.
      by rewrite !delete_insert_eq.
    + split; [done|]. split; [done|]. intros ? [=].
Qed.

(** C10: [add] for a key that has an open document replaces that
    document wholesale. The outcome is the one [add] has when the key
    is not open at all; the new slot array holds the new items
    followed by empty slots and [remain] starts again from the new
    size; while the new document is incomplete no [save] is made, and
    a [save] that is made carries the new slot array only. *)
Theorem add_replaces_open_document m old (d : list Item) :
  pages m !! key = Some old ->
  let fresh := (Some <$> d) ++ replicate (size - length d) None in
  let r := PageMerger_add class_save m ctx key cls d size in
  r = PageMerger_add class_save (mkMerger (delete key (pages m)) (saved m))
                     ctx key cls d size /\
  ((length d < size)%nat ->
     r = (Ret [],
          mkMerger (<[key := mkPending fresh (Z.of_nat size - Z.of_nat (length d))
                                       ctx cls]> (pages m))
                   (saved m))) /\
  ((size <= length d)%nat -> saved r.2 = saved m ++ [(key, fresh)]).
Proof.
  intros Hold fresh r. subst r.
  assert (slice_assign (replicate size None) 0 (Some <$> d) = fresh) as Hfresh.
  { unfold slice_assign, fresh. simpl.
    by rewrite drop_replicate, length_fmap. }
  unfold PageMerger_add, PageMerger_append. simpl.
  rewrite !lookup_insert_eq. simpl. rewrite Hfresh.
  rewrite !insert_insert_eq, !delete_insert_eq, !insert_delete_eq, delete_delete_eq.
  split; [done|].
  destruct (Z.leb_spec (Z.of_nat size - Z.of_nat (length d)) 0) as [Hle|Hgt].
  - split; [lia|]. intros _. by destruct (class_save _ _ _ _).
  - split; [done|lia].
Qed.

(** ** force_save *)

Lemma compact_filled (data : list (option Item)) :
  compact data = Some <$> omap id data.
Proof.
  unfold compact. induction data as [|[x|] data IH]; simpl; [done| |done].
  f_equal. exact IH.
Qed.

Lemma force_save_loop_returns items : forall media log,
  Forall (fun kv : doc_key * pending Item Ctx =>
            exists more, class_save (p_class kv.2) (p_ctx kv.2) kv.1
                                    (compact (p_data kv.2)) = Ret more) items ->
  let r := force_save_loop class_save items media log in
  (exists all, r.1 = Ret all) /\
  r.2 = log ++ ((fun kv => (kv.1, compact (p_data kv.2))) <$> items).
Proof.
  induction items as [|[k v] items IH]; intros media log Hall; simpl.
  - split; [eauto|by rewrite app_nil_r].
  - inversion_clear Hall as [|? ? [more Hm] Hrest]. simpl in Hm. rewrite Hm.
    destruct (IH (media ++ more) (log ++ [(k, compact (p_data v))]) Hrest)
      as [Hret Hlog].
    split; [done|]. rewrite Hlog. by rewrite <- app_assoc.
Qed.

(** C4, as the code has it: [force_save] calls [save] once for every
    open document (here: provided no [save] raises), with the filled
    slots of the document only, in slot order; it removes nothing:
    the open documents are afterwards what they were before. *)
Theorem force_save_keeps_documents m k v :
  pages m !! k = Some v ->
  (forall k' v', pages m !! k' = Some v' ->
     exists media, class_save (p_class v') (p_ctx v') k' (compact (p_data v')) = Ret media) ->
  let r := PageMerger_force_save class_save m in
  (exists media, r.1 = Ret media) /\
  pages r.2 = pages m /\
  (exists before after,
     saved r.2 = saved m ++ before ++ [(k, compact (p_data v))] ++ after /\
     (k ∉ before.*1) /\ (k ∉ after.*1)) /\
  compact (p_data v) = Some <$> omap id (p_data v).
Proof.
  intros Hk Hsave r. subst r. unfold PageMerger_force_save.
  destruct (force_save_loop_returns (map_to_list (pages m)) [] (saved m))
    as [Hret Hlog].
  { apply Forall_forall. intros [k' v'] Hin. simpl.
    apply Hsave. by apply elem_of_map_to_list. }
  simpl. split; [done|]. split; [done|]. split; [|apply compact_filled].
  rewrite Hlog.
  assert ((k, v) ∈ map_to_list (pages m)) as Hin by by apply elem_of_map_to_list.
  apply list_elem_of_split in Hin as (l1 & l2 & Heq).
  pose proof (NoDup_fst_map_to_list (pages m)) as Hnd.
  rewrite Heq in Hnd |- *.
  rewrite fmap_app, NoDup_app in Hnd. destruct Hnd as (_ & Hnd1 & Hnd2).
  rewrite fmap_cons in Hnd1, Hnd2. simpl in Hnd1, Hnd2.
  apply NoDup_cons in Hnd2 as [Hnd2 _].
  exists ((fun kv => (kv.1, compact (p_data kv.2))) <$> l1),
         ((fun kv => (kv.1, compact (p_data kv.2))) <$> l2).
  rewrite fmap_app, fmap_cons. simpl. split; [done|].
  rewrite <- !list_fmap_compose. split.
  - intros Hin. apply (Hnd1 k); [done|left].
  - done.
Qed.
End MergerRuns.

(* ===================================================================== *)
(** * The merger on concrete documents *)
(* ===================================================================== *)

(** Two posts of topic 7 delivered as two contributions, first page
    first. *)
Lemma merge_completeness_add_first_example :
  let p1 := PostItem (sample_post 1) in
  let p2 := PostItem (sample_post 2) in
  let r := deliver (class_save empty_disk) sample_ctx (TopicKey 7) ClsTopic 2
                   PageMerger_init [(0%nat, [p1]); (1%nat, [p2])] in
  r.1 = class_save empty_disk ClsTopic sample_ctx (TopicKey 7) [Some p1; Some p2] /\
  saved r.2 = [(TopicKey 7, [Some p1; Some p2])] /\
  (forall media, r.1 = Ret media -> pages r.2 = delete (TopicKey 7) ∅).
Proof.
  intros p1 p2.
  apply (merge_completeness_add_first (class_save empty_disk) sample_ctx
           (TopicKey 7) ClsTopic 2 PageMerger_init [p1] [(1%nat, [p2])]
           [(0%nat, [p1]); (1%nat, [p2])]).
  - simpl. repeat split; congruence.
  - reflexivity.
Defined.

(** C1 as stated fails: the two contributions of a two-post topic
    partition [[0, 2)], but when the second page arrives first its
    [append] finds no open document and raises [KeyError]; nothing is
    saved. *)
Lemma merge_any_order_counterexample :
  let p1 := PostItem (sample_post 1) in
  let p2 := PostItem (sample_post 2) in
  let ss := [(1%nat, [p2]); (0%nat, [p1])] in
  let r := deliver (class_save empty_disk) sample_ctx (TopicKey 7) ClsTopic 2
                   PageMerger_init ss in
  partitions 2 ss /\ r.1 = Raise KeyError /\ saved r.2 = [].
Proof.
  intros p1 p2 ss r. split; [|split; reflexivity].
  exists [(0%nat, [p1]); (1%nat, [p2])]. split.
  - apply perm_swap.
  - simpl. repeat split; congruence.
Qed.


Lemma add_replaces_open_document_example :
  let p3 := PostItem (sample_post 3) in
  let r := PageMerger_add (class_save empty_disk) half_topic sample_ctx
                          (TopicKey 7) ClsTopic [p3] 3 in
  r = PageMerger_add (class_save empty_disk)
        (mkMerger (delete (TopicKey 7) (pages half_topic)) (saved half_topic))
        sample_ctx (TopicKey 7) ClsTopic [p3] 3 /\
  ((1 < 3)%nat ->
     r = (Ret [],
          mkMerger (<[TopicKey 7 := mkPending [Some p3; None; None] (3 - 1)
                                      sample_ctx ClsTopic]> (pages half_topic))
                   (saved half_topic))) /\
  ((3 <= 1)%nat -> saved r.2 = saved half_topic ++ [(TopicKey 7, [Some p3; None; None])]).
Proof.
  intros p3.
  apply (add_replaces_open_document (class_save empty_disk) sample_ctx
           (TopicKey 7) ClsTopic 3 half_topic
           (mkPending [Some (PostItem (sample_post 1)); None] 1 sample_ctx ClsTopic)
           [p3]).
  reflexivity.
Defined.

Lemma force_save_keeps_documents_example :
  let v := mkPending [Some (PostItem (sample_post 1)); None] 1 sample_ctx ClsTopic in
  let r := PageMerger_force_save (class_save empty_disk) half_topic in
  (exists media, r.1 = Ret media) /\
  pages r.2 = pages half_topic /\
  (exists before after,
     saved r.2 = saved half_topic ++ before ++
                 [(TopicKey 7, compact (p_data v))] ++ after /\
     (TopicKey 7 ∉ before.*1) /\ (TopicKey 7 ∉ after.*1)) /\
  compact (p_data v) = Some <$> omap id (p_data v).
Proof.
  intros v.
  apply (force_save_keeps_documents (class_save empty_disk) half_topic (TopicKey 7) v).
  - reflexivity.
  - intros k' v' Hk'.
    destruct (decide (k' = TopicKey 7)) as [->|Hne].
    + assert (pages half_topic !! TopicKey 7 = Some v) as Hv by reflexivity.
      assert (v' = v) as -> by congruence.
      eexists. reflexivity.
    + exfalso.
      assert (pages half_topic = {[TopicKey 7 := v]}) as Hp by reflexivity.
      rewrite Hp, lookup_singleton_ne in Hk' by done. discriminate.
Defined.

(** C4 as stated fails: after [force_save] the half-filled topic
    (one slot of two still empty, [remain] 1) is saved with its one
    post, and is still open. *)
Lemma force_save_not_removed_counterexample :
  let r := PageMerger_force_save (class_save empty_disk) half_topic in
  (p_remain <$> pages half_topic !! TopicKey 7) = Some 1 /\
  saved r.2 = [(TopicKey 7, [Some (PostItem (sample_post 1))])] /\
  pages r.2 !! TopicKey 7 <> None.
Proof.
  vm_compute. repeat split. discriminate.
Qed.

(* ===================================================================== *)
(** * RequestsIter *)
(* ===================================================================== *)

(** C2, as the code has it: [is_done] answers true exactly when the
    queue holds no task and the count of processed tasks is not below
    the count of enqueued ones; a processed count above the enqueued
    count is logged and still answers true. *)
Theorem is_done_iff (q : RequestsIter) :
  is_done q = true <-> _queue q = [] /\ _enqueued q <= _processed q.
Proof.
  unfold is_done, queue_empty. destruct (_queue q) as [|t rest]; simpl.
  - destruct (Z.ltb_spec (_processed q) (_enqueued q)).
    + split; [done|lia].
    + split; [intros _; split; [done|lia]|done].
  - split; [done|]. by intros [? _].
Qed.

(** The line that [is_done] logs comes exactly with a processed count
    above the enqueued count. *)
Lemma is_done_log_spec (q : RequestsIter) :
  is_done_log q = [INFO] <-> _queue q = [] /\ _enqueued q < _processed q.
Proof.
  unfold is_done_log, queue_empty. destruct (_queue q) as [|t rest]; simpl.
  - destruct (Z.ltb_spec (_processed q) (_enqueued q)).
    + split; [done|lia].
    + destruct (Z.gtb_spec (_processed q) (_enqueued q)).
      * split; [intros _; split; [done|lia]|done].
      * split; [done|lia].
  - split; [done|]. by intros [? _].
Qed.

(* ===================================================================== *)
(** * send_worker *)
(* ===================================================================== *)

Section SendWorkerFacts.
Context {Page : Type}.
Variable net : nat -> request_outcome Page.

Lemma send_loop_connection_errors (r : task) fuel : forall retry reqs,
  (forall n, net n = ConnectionError) ->
  send_loop net r fuel retry reqs =
    mkSendResult (Returned None None) (reqs ++ replicate fuel r)
                 [exhausted_level (task_url_attr r)].
Proof.
  induction fuel as [|fuel IH]; intros retry reqs Hnet; simpl.
  - by rewrite app_nil_r.
  - rewrite Hnet, IH by done. by rewrite <- app_assoc.
Qed.

(** C3: when every call of [request()] raises [ConnectionError],
    [send_worker] makes exactly [max_retries] calls, all on the task
    it was given, and returns [(None, None)]. *)
Theorem send_worker_retry_bound (max_retries : Z) (r : task) :
  (forall n, net n = ConnectionError) ->
  0 <= max_retries ->
  let res := send_worker net max_retries r in
  sr_value res = Returned None None /\
  sr_requests res = replicate (Z.to_nat max_retries) r /\
  Z.of_nat (length (sr_requests res)) = max_retries.
Proof.
  intros Hnet Hpos res. subst res. unfold send_worker.
  rewrite send_loop_connection_errors by done. simpl.
  split; [done|]. split; [done|]. rewrite length_replicate. lia.
Qed.

Lemma send_loop_first_outcome (r : task) k : forall fuel retry reqs,
  (forall i, (i < k)%nat -> net (retry + i)%nat = ConnectionError) ->
  (k < fuel)%nat ->
  send_loop net r fuel retry reqs =
    send_loop net r (fuel - k) (retry + k) (reqs ++ replicate k r).
Proof.
  induction k as [|k IH]; intros fuel retry reqs Hnet Hk.
  - simpl. by rewrite app_nil_r, Nat.sub_0_r, Nat.add_0_r.
  - destruct fuel as [|fuel]; [lia|]. simpl.
    pose proof (Hnet 0%nat ltac:(lia)) as H0. rewrite Nat.add_0_r in H0.
    rewrite H0. rewrite (IH fuel (S retry) (reqs ++ [r])); [|intros i Hi|lia].
    + f_equal; [lia|]. by rewrite <- app_assoc.
    + replace (S retry + i)%nat with (retry + S i)%nat by lia. apply Hnet. lia.
Qed.

Lemma replicate_snoc (k : nat) (r : task) : replicate k r ++ [r] = replicate (S k) r.
Proof. induction k as [|k IH]; simpl; [done|]. by rewrite IH. Qed.

(** The first response ends the loop, whatever its status code. *)
Lemma send_worker_responds (max_retries : Z) (r : task) (k : nat) resp :
  answers_after net k resp ->
  Z.of_nat k < max_retries ->
  send_worker net max_retries r =
    mkSendResult (Returned (Some resp) (Some r)) (replicate (S k) r)
                 (request_log r resp).
Proof.
  intros [Hnet Hk] Hlt. unfold send_worker.
  rewrite (send_loop_first_outcome r k); [|done|lia].
  destruct (Z.to_nat max_retries - k)%nat as [|fuel] eqn:E; [lia|].
  cbn [send_loop Nat.add app]. by rewrite replicate_snoc, Hk.
Qed.

(** C9, as the code has it: the line logged after the retries are
    used up is at [DEBUG] only for an object that has a [url]
    attribute ending in [.html] and at [WARNING] otherwise; no page
    class has such an attribute, so for every task, a media or file
    fetch like a document fetch, the line is at [WARNING]. *)
Theorem exhausted_log_level (max_retries : Z) (r : task) :
  (forall n, net n = ConnectionError) ->
  sr_log (send_worker net max_retries r) = [WARNING] /\
  (forall u, exhausted_level u = DEBUG <->
             exists s, u = Some s /\ ends_with s ".html" = true).
Proof.
  intros Hnet. split.
  - unfold send_worker. rewrite send_loop_connection_errors by done.
    simpl. by destruct r.
  - intros [s|]; simpl.
    + destruct (ends_with s ".html") eqn:E; split; try done.
      * intros _. by exists s.
      * intros (s' & [= <-] & Hs). congruence.
    + split; [done|]. by intros (s & ? & _).
Qed.
End SendWorkerFacts.

Lemma send_worker_retry_bound_example :
  let res := send_worker dead_net 3 (PhpBBTopic 7 0) in
  sr_value res = Returned None None /\
  sr_requests res = replicate (Z.to_nat 3) (PhpBBTopic 7 0) /\
  Z.of_nat (length (sr_requests res)) = 3.
Proof.
  apply (send_worker_retry_bound dead_net 3 (PhpBBTopic 7 0)).
  - reflexivity.
  - lia.
Defined.

Lemma exhausted_log_level_example :
  sr_log (send_worker dead_net 3
            (FileSaver [("5"%string, "Forum"%string)] "a.png"%string
                       "http://forum.example/a.png"%string true)) = [WARNING] /\
  (forall u, exhausted_level u = DEBUG <->
             exists s, u = Some s /\ ends_with s ".html" = true).
Proof.
  apply (exhausted_log_level dead_net 3). reflexivity.
Defined.

(** C9 as stated fails: with the retries used up, the line for a file
    fetch and the line for a topic fetch are both at [WARNING]; the
    file fetch is not logged at a lower severity. *)
Lemma exhausted_severity_counterexample :
  let f := FileSaver [("5"%string, "Forum"%string)] "a.png"%string
                     "http://forum.example/a.png"%string true in
  let t := PhpBBTopic 7 0 in
  is_media_task f = true /\ is_media_task t = false /\
  severity <$> sr_log (send_worker dead_net 3 f) = [30] /\
  severity <$> sr_log (send_worker dead_net 3 t) = [30].
Proof. repeat split. Qed.

(* ===================================================================== *)
(** * The two stages on one task *)
(* ===================================================================== *)

(** C2 as stated fails in a state the program reaches: a task whose
    fetch runs out of retries is counted as processed twice (once in
    [PhpBBScraper.scrape], once more in [main], which gets [[]] and not
    [None] from [scrape_worker]); [is_done] then answers true with 2
    processed against 1 enqueued. *)
Lemma is_done_counterexample :
  exists s',
    st_scraper (pipeline_step dead_net empty_disk (sample_scraper one_in_flight)
                              (PhpBBTopic 7 0)) = Some s' /\
    queue_reachable (s_queue s') /\
    is_done (s_queue s') = true /\
    _queue (s_queue s') = [] /\
    _enqueued (s_queue s') = 1 /\ _processed (s_queue s') = 2.
Proof.
  eexists. split; [reflexivity|]. split; [|repeat split].
  exact (reach_processed _ (reach_processed _
           (reach_next _ (reach_put _ (PhpBBTopic 7 0) reach_init)))).
Qed.

(** C6, as the code has it: a response with a status other than 200,
    on whichever call of [request()] within the budget it arrives
    (the first, or one after connection errors), comes back from
    [send_worker] with its task, is yielded as
    [(False, obj, response, None)] and counted as processed;
    [scrape_worker] then returns [[]] without calling the [scrape]
    method of the task, the merger is not touched and nothing is
    enqueued. *)
Theorem non_200_not_expanded (net : nat -> request_outcome html_page)
    (fs : filesystem) (s : PhpBBScraper) (r : task) (resp : response html_page)
    (k : nat) :
  answers_after net k resp ->
  Z.of_nat k < o_max_retries (s_opts s) ->
  status_code resp <> 200 ->
  let st := pipeline_step net fs s r in
  sr_value (st_sent st) = Returned (Some resp) (Some r) /\
  sr_requests (st_sent st) = replicate (S k) r /\
  st_yield st = Some (mkYielded false (Some r) (Some resp) false) /\
  (exists w, st_worker st = Some w /\
     w_pages w = Ret (Some []) /\ w_scraped w = [] /\
     w_merger w = s_page_merger s) /\
  (exists s', st_scraper st = Some s' /\
     s_page_merger s' = s_page_merger s /\
     _queue (s_queue s') = _queue (s_queue s) /\
     _enqueued (s_queue s') = _enqueued (s_queue s) /\
     _processed (s_queue s') = _processed (s_queue s) + 2).
Proof.
  intros Hnet Hk Hstatus st. subst st. unfold pipeline_step.
  rewrite (send_worker_responds net _ r k resp Hnet Hk).
  cbn [sr_value sr_requests st_sent]. unfold scrape_yield.
  destruct (Z.eqb_spec (status_code resp) 200) as [|_]; [done|].
  cbn [st_sent sr_value sr_requests]. split; [done|]. split; [done|].
  simpl. split; [done|]. split.
  - eexists. by repeat split.
  - eexists. split; [reflexivity|]. simpl. repeat split. lia.
Qed.

Lemma non_200_not_expanded_example :
  let st := pipeline_step (flaky_net 404) empty_disk
                          (sample_scraper one_in_flight) (PhpBBTopic 7 0) in
  sr_value (st_sent st) =
    Returned (Some (sample_response 404)) (Some (PhpBBTopic 7 0)) /\
  sr_requests (st_sent st) = replicate 2 (PhpBBTopic 7 0) /\
  st_yield st = Some (mkYielded false (Some (PhpBBTopic 7 0))
                                (Some (sample_response 404)) false) /\
  (exists w, st_worker st = Some w /\
     w_pages w = Ret (Some []) /\ w_scraped w = [] /\
     w_merger w = s_page_merger (sample_scraper one_in_flight)) /\
  (exists s', st_scraper st = Some s' /\
     s_page_merger s' = s_page_merger (sample_scraper one_in_flight) /\
     _queue (s_queue s') = _queue (s_queue (sample_scraper one_in_flight)) /\
     _enqueued (s_queue s') = _enqueued (s_queue (sample_scraper one_in_flight)) /\
     _processed (s_queue s') = _processed (s_queue (sample_scraper one_in_flight)) + 2).
Proof.
  apply (non_200_not_expanded (flaky_net 404) empty_disk
           (sample_scraper one_in_flight) (PhpBBTopic 7 0) (sample_response 404) 1).
  - split; [|reflexivity]. intros [|i] Hi; [reflexivity|lia].
  - reflexivity.
  - discriminate.
Defined.

(** C6 as stated fails: for a topic page answered with status 404 the
    response is handed on, but the list of [scrape] calls made by
    [scrape_worker] is empty, where the same task answered with 200
    has its [scrape] called once. *)
Lemma non_200_expand_counterexample :
  let run status := pipeline_step (status_net status) empty_disk
                      (sample_scraper one_in_flight) (PhpBBTopic 7 0) in
  sr_value (st_sent (run 404)) =
    Returned (Some (sample_response 404)) (Some (PhpBBTopic 7 0)) /\
  (w_scraped <$> st_worker (run 404)) = Some [] /\
  (w_scraped <$> st_worker (run 200)) =
    Some [(PhpBBTopic 7 0, sample_response 200)].
Proof. repeat split. Qed.

(* ===================================================================== *)
(** * Topic pages *)
(* ===================================================================== *)

Lemma message_wall_Ret (pg : html_page) (pages : list task) :
  message_wall pg = Ret pages -> pages = [].
Proof.
  unfold message_wall. destruct (pg_message_string pg); [|done].
  by intros [= <-].
Qed.







(** The page of the example does reach the posts, and comes out empty;
    without the bad post the same page is delivered to the merger. *)
Lemma broken_topic_page_dropped :
  PhpBBTopic_scrape empty_disk sample_opts 7 0 broken_topic_page PageMerger_init
    = (Ret [], PageMerger_init) /\
  topic_page_parse sample_opts 7 broken_topic_page <> Raise IndexError.
Proof. split; [reflexivity|discriminate]. Qed.

(* ===================================================================== *)
(** * Numbers and file names *)
(* ===================================================================== *)

Lemma all_chars_lacks (p : ascii -> bool) (c : ascii) (s : string) :
  p c = false -> all_chars p s = true -> lacks c s = true.
Proof.
  intros Hc. induction s as [|a s IH]; cbn [all_chars lacks]; [done|].
  intros [Ha Hs]%andb_true_iff. rewrite (IH Hs), andb_true_r.
  apply negb_true_iff, Ascii.eqb_neq. intros ->. congruence.
Qed.

Lemma all_chars_impl (p q : ascii -> bool) (s : string) :
  (forall c, p c = true -> q c = true) ->
  all_chars p s = true -> all_chars q s = true.
Proof.
  intros Hpq. induction s as [|a s IH]; cbn [all_chars]; [done|].
  intros [Ha Hs]%andb_true_iff. by rewrite (Hpq _ Ha), (IH Hs).
Qed.

Lemma is_digit_not_space (c : ascii) : is_digit c = true -> is_space c = false.
Proof.
  unfold is_digit, is_space. cbv zeta.
  intros [H1 H2]%andb_true_iff. apply Nat.leb_le in H1, H2.
  repeat (apply orb_false_iff; split);
    try apply andb_false_iff; try (apply Nat.eqb_neq; lia).
  right. apply Nat.leb_gt. lia.
Qed.

Lemma lstrip_no_space (s : string) :
  all_chars (fun c => negb (is_space c)) s = true -> lstrip s = s.
Proof.
  destruct s as [|c s]; cbn [all_chars lstrip]; [done|].
  intros [Hc _]%andb_true_iff. apply negb_true_iff in Hc. by rewrite Hc.
Qed.

Lemma rstrip_no_space (s : string) :
  all_chars (fun c => negb (is_space c)) s = true -> rstrip s = s.
Proof.
  induction s as [|c s IH]; cbn [all_chars rstrip]; [done|].
  intros [Hc Hs]%andb_true_iff. apply negb_true_iff in Hc.
  rewrite (IH Hs), Hc. by destruct s.
Qed.

Lemma numeral_digits_digits (s : string) : forall b,
  all_chars is_digit s = true -> (s <> EmptyString \/ b = true) ->
  numeral_digits b s = Some s.
Proof.
  induction s as [|c s IH]; intros b; cbn [all_chars numeral_digits].
  - intros _ [?| ->]; done.
  - intros [Hc Hs]%andb_true_iff _. rewrite Hc, (IH true Hs); [done|by right].
Qed.

Lemma string_of_uint_digits (d : Decimal.uint) :
  all_chars is_digit (NilEmpty.string_of_uint d) = true.
Proof. induction d; cbn [NilEmpty.string_of_uint all_chars]; by rewrite ?IHd. Qed.

Lemma nilzero_string_of_uint_digits (d : Decimal.uint) :
  all_chars is_digit (NilZero.string_of_uint d) = true /\
  NilZero.string_of_uint d <> EmptyString /\
  exists u, NilEmpty.uint_of_string (NilZero.string_of_uint d) = Some u /\
            Z.of_uint u = Z.of_uint d.
Proof.
  unfold NilZero.string_of_uint. destruct d; try
    (split; [apply string_of_uint_digits|]; split; [done|];
     eexists; split; [apply NilEmpty.usu|done]).
  split; [done|]. split; [done|]. by eexists.
Qed.

(** [int(str(i)) == i] *)
Lemma int_of_str_of_int (z : Z) : int_of_str (str_of_int z) = Ret z.
Proof.
  assert (forall d, int_of_str (NilZero.string_of_uint d) = Ret (Z.of_uint d)) as Hpos.
  { intros d. destruct (nilzero_string_of_uint_digits d) as (Hd & Hne & u & Hu & Hz).
    unfold int_of_str. cbv zeta.
    assert (all_chars (fun c => negb (is_space c)) (NilZero.string_of_uint d) = true)
      as Hns.
    { eapply all_chars_impl; [|exact Hd]. intros c Hc.
      by rewrite (is_digit_not_space c Hc). }
    rewrite (lstrip_no_space _ Hns), (rstrip_no_space _ Hns).
    destruct (NilZero.string_of_uint d) as [|c s] eqn:E; [done|].
    cbn [all_chars] in Hd. apply andb_true_iff in Hd as [Hc Hs].
    assert ((c =? "-")%char = false) as ->.
    { apply Ascii.eqb_neq. by intros ->. }
    assert ((c =? "+")%char = false) as ->.
    { apply Ascii.eqb_neq. by intros ->. }
    cbn [orb]. rewrite numeral_digits_digits; [|by cbn; rewrite Hc, Hs|by left].
    cbn [mbind option_bind]. by rewrite Hu, Hz. }
  assert (forall d, int_of_str (String "-" (NilZero.string_of_uint d))
                    = Ret (- Z.of_uint d)) as Hneg.
  { intros d. destruct (nilzero_string_of_uint_digits d) as (Hd & Hne & u & Hu & Hz).
    unfold int_of_str. cbv zeta.
    assert (all_chars (fun c => negb (is_space c))
                      (String "-" (NilZero.string_of_uint d)) = true) as Hns.
    { cbn [all_chars]. apply andb_true_iff. split; [done|].
      eapply all_chars_impl; [|exact Hd]. intros c Hc.
      by rewrite (is_digit_not_space c Hc). }
    rewrite (lstrip_no_space _ Hns), (rstrip_no_space _ Hns).
    cbn [Ascii.eqb Bool.eqb orb]. rewrite numeral_digits_digits; [|done|by left].
    cbn [mbind option_bind]. by rewrite Hu, Hz. }
  unfold str_of_int. destruct z as [|p|p]; cbn [Z.to_int NilZero.string_of_int].
  - done.
  - rewrite Hpos. f_equal. unfold Z.of_uint.
    by rewrite DecimalPos.Unsigned.of_to.
  - rewrite Hneg. f_equal. unfold Z.of_uint.
    by rewrite DecimalPos.Unsigned.of_to.
Qed.

Lemma lstrip_chars (p : ascii -> bool) (s : string) :
  (forall c, is_space c = true -> p c = true) ->
  all_chars p (lstrip s) = true -> all_chars p s = true.
Proof.
  intros Hp. induction s as [|c s IH]; cbn [lstrip all_chars]; [done|].
  destruct (is_space c) eqn:Hc; [|done].
  intros H. by rewrite (Hp c Hc), (IH H).
Qed.

Lemma rstrip_chars (p : ascii -> bool) (s : string) :
  (forall c, is_space c = true -> p c = true) ->
  all_chars p (rstrip s) = true -> all_chars p s = true.
Proof.
  intros Hp. induction s as [|c s IH]; cbn [rstrip all_chars]; [done|].
  destruct (rstrip s) as [|c' r] eqn:E.
  - destruct (is_space c) eqn:Hc.
    + intros _. rewrite (Hp c Hc). by apply IH.
    + cbn [all_chars]. intros [-> _]%andb_true_iff. by apply IH.
  - cbn [all_chars]. intros [-> H]%andb_true_iff. by apply IH.
Qed.

Lemma numeral_digits_chars (s : string) : forall b ds,
  numeral_digits b s = Some ds -> all_chars int_char s = true.
Proof.
  induction s as [|c s IH]; intros b ds; cbn [numeral_digits all_chars]; [done|].
  unfold int_char at 1.
  destruct (is_digit c).
  - destruct (numeral_digits true s) as [ds'|] eqn:E; [|done]. intros _.
    rewrite (IH _ _ E). by rewrite orb_true_r.
  - destruct (Ascii.eqb c "_"); [|done]. destruct b; [|done]. cbn [andb].
    intros H. rewrite (IH _ _ H). by rewrite !orb_true_r.
Qed.

Lemma int_of_str_chars (s : string) (z : Z) :
  int_of_str s = Ret z -> all_chars int_char s = true.
Proof.
  unfold int_of_str. cbv zeta. intros H.
  assert (forall c, is_space c = true -> int_char c = true) as Hsp.
  { intros c Hc. unfold int_char. by rewrite Hc. }
  apply lstrip_chars, rstrip_chars; try done.
  destruct (rstrip (lstrip s)) as [|c t]; [done|].
  destruct (numeral_digits false _) as [ds|] eqn:E; [|done]. clear H.
  destruct (Ascii.eqb c "-") eqn:E1; [|destruct (Ascii.eqb c "+") eqn:E2];
    cbn [orb] in E.
  - cbn [all_chars]. unfold int_char at 1.
    rewrite E1, (numeral_digits_chars _ _ _ E). by rewrite !orb_true_r.
  - cbn [all_chars]. unfold int_char at 1.
    rewrite E2, (numeral_digits_chars _ _ _ E). by rewrite !orb_true_r.
  - by eapply numeral_digits_chars.
Qed.

Lemma substring_append_prefix (s t : string) :
  String.substring 0 (String.length s) (s ++ t)%string = s.
Proof.
  induction s as [|c s IH]; simpl.
  - by destruct t.
  - by rewrite IH.
Qed.

Lemma string_length_append (s t : string) :
  String.length (s ++ t)%string = (String.length s + String.length t)%nat.
Proof. induction s as [|c s IH]; simpl; [done|]. by rewrite IH. Qed.

Lemma drop_last_append (s t : string) :
  drop_last (String.length t) (s ++ t)%string = s.
Proof.
  unfold drop_last. rewrite string_length_append.
  replace (String.length s + String.length t - String.length t)%nat
    with (String.length s) by lia.
  apply substring_append_prefix.
Qed.

Lemma prefix_refl (s : string) : String.prefix s s = true.
Proof.
  induction s as [|c s IH]; simpl; [done|].
  destruct (ascii_dec c c); [exact IH|done].
Qed.

Lemma contains_append (sub s : string) : contains sub (s ++ sub)%string = true.
Proof.
  induction s as [|c s IH].
  - change (contains sub sub = true).
    destruct sub as [|a sub]; [done|]. cbn [contains]. by rewrite prefix_refl.
  - change (contains sub (String c (s ++ sub)%string) = true).
    cbn [contains]. rewrite IH. apply orb_true_r.
Qed.

Lemma elem_of_concat {A : Type} (x : A) (ls : list (list A)) :
  x ∈ concat ls <-> exists l, x ∈ l /\ l ∈ ls.
Proof.
  induction ls as [|l ls IH]; simpl.
  - split; [by intros ?%not_elem_of_nil|]. by intros (l & _ & ?%not_elem_of_nil).
  - rewrite elem_of_app, IH. split.
    + intros [H|(l' & H1 & H2)]; [exists l; split; [done|by left]|].
      exists l'. split; [done|by right].
    + intros (l' & H1 & H2). apply elem_of_cons in H2 as [->|H2]; [by left|].
      right. by exists l'.
Qed.

(** The file of topic [id] adds [id] to the resume set. *)
Lemma scraped_of_topic_file (id : Z) :
  scraped_of_file (str_of_int id ++ ".json")%string = [id].
Proof.
  unfold scraped_of_file.
  pose proof (drop_last_append (str_of_int id) ".json") as Hdrop. simpl in Hdrop.
  destruct (String.eqb_spec (str_of_int id ++ ".json")%string "_meta.json") as [Heq|_].
  - exfalso. rewrite Heq in Hdrop.
    pose proof (int_of_str_of_int id) as Hint. rewrite <- Hdrop in Hint.
    vm_compute in Hint. discriminate.
  - rewrite contains_append, Hdrop. by rewrite int_of_str_of_int.
Qed.

Lemma _load_state_topic_file (fs : filesystem) (output : string) (id : Z)
    (dir : string) (subdirs flist : list string) :
  (dir, subdirs, flist) ∈ walk fs output ->
  (str_of_int id ++ ".json")%string ∈ flist ->
  id ∈ _load_state fs output.
Proof.
  intros Hdir Hfile. unfold _load_state.
  apply elem_of_concat. exists (concat (scraped_of_file <$> flist)). split.
  - apply elem_of_concat. exists [id]. split; [by left|].
    apply list_elem_of_fmap. eexists. split; [|exact Hfile].
    by rewrite scraped_of_topic_file.
  - apply list_elem_of_fmap. by exists (dir, subdirs, flist).
Qed.

(* ===================================================================== *)
(** * The resume set *)
(* ===================================================================== *)

Lemma py_mapM_Ret {A B : Type} (f : A -> py B) (l : list A) : forall bs,
  py_mapM f l = Ret bs -> Forall2 (fun a b => f a = Ret b) l bs.
Proof.
  induction l as [|a l IH]; intros bs H; simpl in H.
  - injection H as <-. constructor.
  - destruct (f a) as [b|] eqn:Ea; [|done]. simpl in H.
    destruct (py_mapM f l) as [bs'|]; [|done]. simpl in H.
    injection H as <-. constructor; [done|by apply IH].
Qed.

Lemma set_password_scraped (is_topics : bool) (r : Z) (password : option string)
    (o : opts) :
  o_scraped_topics (set_password is_topics r password o) = o_scraped_topics o.
Proof.
  unfold set_password. destruct password as [pw|]; [|done].
  destruct (String.eqb pw ""); [done|]. by destruct is_topics.
Qed.

Lemma parse_range_ok resumed is_topics password l : forall st st',
  parse_range is_topics password l st = Ret st' ->
  seeded_ok resumed st -> seeded_ok resumed st'.
Proof.
  induction l as [|i l IH]; intros st st' H Hok; simpl in H.
  - by injection H as <-.
  - destruct (is_topics && _); [done|]. destruct (negb is_topics); [done|].
    apply (IH _ _ H). destruct Hok as [Hs Ht]. split; [|done].
    simpl. by rewrite set_password_scraped.
Qed.

Lemma parse_item_ok resumed is_topics password r st st' :
  parse_item is_topics password r st = Ret st' ->
  seeded_ok resumed st -> seeded_ok resumed st'.
Proof.
  unfold parse_item. intros H [Hs Ht].
  destruct (negb (contains "-" r)).
  - destruct (int_of_str r) as [n|]; [|done]. simpl in H.
    rewrite set_password_scraped in H.
    destruct is_topics; simpl in H.
    + destruct (bool_decide (n ∈ o_scraped_topics st.1)) eqn:Hin; simpl in H;
        injection H as <-; (split; [simpl; by rewrite set_password_scraped|]); [done|].
      simpl. intros id start [Hold|Hnew%list_elem_of_singleton]%elem_of_app.
      * by eapply Ht.
      * injection Hnew as -> ->. apply bool_decide_eq_false in Hin.
        by rewrite <- Hs.
    + injection H as <-. split; [simpl; by rewrite set_password_scraped|].
      simpl. intros id start [Hold|Hnew%list_elem_of_singleton]%elem_of_app;
        [by eapply Ht|done].
  - destruct (split_on "-" r) as [|a [|b [|? ?]]]; try done.
    destruct (int_of_str a) as [x|]; [|done]. simpl in H.
    destruct (int_of_str b) as [y|]; [|done]. simpl in H.
    by eapply parse_range_ok.
Qed.

Lemma parse_items_ok resumed is_topics password l : forall st st',
  parse_items is_topics password l st = Ret st' ->
  seeded_ok resumed st -> seeded_ok resumed st'.
Proof.
  induction l as [|r l IH]; intros st st' H Hok; simpl in H.
  - by injection H as <-.
  - destruct (parse_item is_topics password r st) as [st1|] eqn:E; [|done].
    simpl in H. eapply IH; [exact H|]. by eapply parse_item_ok.
Qed.

Lemma _parse_arg_ok resumed is_topics arg : forall st st',
  _parse_arg is_topics arg st = Ret st' ->
  seeded_ok resumed st -> seeded_ok resumed st'.
Proof.
  induction arg as [|t arg IH]; intros st st' H Hok; simpl in H.
  - by injection H as <-.
  - destruct (parse_spec is_topics t st) as [st1|] eqn:E; [|done].
    simpl in H. eapply IH; [exact H|].
    unfold parse_spec in E.
    destruct (split_first ":" t) as [[l r]|]; by eapply parse_items_ok.
Qed.

(** The pages seeded by [PhpBBScraper.__init__]. *)
Lemma PhpBBScraper_init_ok (fs : filesystem) (o : opts)
    (forums_arg topics_arg : list string) (s : PhpBBScraper) :
  PhpBBScraper_init fs o forums_arg topics_arg = Ret s ->
  o_scraped_topics (s_opts s) = resume_set fs o /\
  no_resumed_topic (resume_set fs o) (s_topics s).
Proof.
  unfold PhpBBScraper_init. intros H.
  destruct (_parse_arg false _ _) as [st|] eqn:E1; [|done]. simpl in H.
  destruct (_parse_arg true _ st) as [st'|] eqn:E2; [|done]. simpl in H.
  injection H as <-. simpl.
  eapply (_parse_arg_ok (resume_set fs o)); [exact E2|].
  eapply (_parse_arg_ok (resume_set fs o)); [exact E1|].
  split; [done|]. simpl. intros id start Hin.
  destruct (o_save_users _); [|by apply not_elem_of_nil in Hin].
  by apply list_elem_of_singleton in Hin.
Qed.

Lemma queue_topic_ok (o : opts) (tids : list Z) :
  no_resumed_topic (o_scraped_topics o) (concat (queue_topic o <$> tids)).
Proof.
  intros id start (l & Hid & Hl)%elem_of_concat.
  apply list_elem_of_fmap in Hl as (tid & -> & _).
  unfold queue_topic in Hid.
  destruct (bool_decide (tid ∈ o_scraped_topics o)) eqn:Hin.
  - by apply not_elem_of_nil in Hid.
  - apply list_elem_of_singleton in Hid. injection Hid as -> ->.
    by apply bool_decide_eq_false in Hin.
Qed.

Lemma sibling_pages_kind (mk : Z -> task) (pn : pagination) (pages : list task) :
  sibling_pages mk pn = Ret pages -> Forall (fun t => exists i, t = mk i) pages.
Proof.
  unfold sibling_pages. destruct (pn_url pn !! "start"%string) as [s|].
  - destruct (int_of_str s); [|done]. simpl. intros [= <-].
    apply Forall_forall. intros t (i & -> & _)%list_elem_of_fmap. eauto.
  - intros [= <-]. constructor.
Qed.

(** The pages that a forum listing queues. *)
Lemma PhpBBForum_scrape_ok (o : opts) (forum_id start : Z) (pg : html_page)
    (pages : list task) :
  PhpBBForum_scrape o forum_id start pg = Ret pages ->
  no_resumed_topic (o_scraped_topics o) pages.
Proof.
  unfold PhpBBForum_scrape. intros H id st Hin.
  destruct (pg_message pg).
  { apply message_wall_Ret in H as ->. by apply not_elem_of_nil in Hin. }
  destruct (pg_login pg).
  { injection H as <-. by apply not_elem_of_nil in Hin. }
  destruct (_is_password_required pg).
  { destruct (o_passwords_f o !! forum_id) as [pw|].
    - unfold new_PhpBBForumPassword in H.
      destruct (py_of_option IndexError (pg_login_forum pg)); [|done]. simpl in H.
      destruct (_get_url_query _) as [q|]; [|done]. simpl in H.
      destruct (py_of_option KeyError (q !! "sid"%string)); [|done]. simpl in H.
      destruct (match q !! "t"%string with Some _ => _ | None => _ end); [|done].
      simpl in H. injection H as <-. by apply list_elem_of_singleton in Hin.
    - injection H as <-. by apply not_elem_of_nil in Hin. }
  destruct (forum_id =? 0).
  { apply py_mapM_Ret in H.
    apply list_elem_of_lookup in Hin as [i Hi].
    destruct (Forall2_lookup_r _ _ _ _ _ H Hi) as (href & _ & Hf).
    unfold forum_of_link in Hf.
    destruct (_get_url_query href) as [q|]; [|done]. simpl in Hf.
    destruct (py_of_option KeyError (q !! "f"%string)) as [fid|]; [|done].
    simpl in Hf. by destruct (int_of_str fid). }
  destruct (py_mapM topic_of_link (pg_topic_links pg)) as [tids|]; [|done].
  simpl in H.
  destruct (negb (start =? 0)).
  { injection H as <-. by eapply queue_topic_ok. }
  destruct (_pagination pg) as [pn|]; [|done]. simpl in H.
  destruct (sibling_pages (PhpBBForum forum_id) pn) as [sib|] eqn:Es; [|done].
  simpl in H. injection H as <-.
  apply elem_of_app in Hin as [Hin|Hin]; [by eapply queue_topic_ok|].
  apply sibling_pages_kind in Es. rewrite Forall_forall in Es.
  by destruct (Es _ Hin) as [i Hi].
Qed.

(** C5: with [force] 0 every topic id whose [<id>.json] is found by
    the walk of the output directory is in the resume set; the pages
    seeded from the command line and the pages queued from a forum
    listing contain no topic page of an id in the resume set; with
    [force] set the scan is not made and the resume set is empty. *)
Theorem resume_index_filters (fs : filesystem) (o : opts) :
  (o_force o = 0 ->
   forall id dir subdirs flist,
     (dir, subdirs, flist) ∈ walk fs (o_output o) ->
     (str_of_int id ++ ".json")%string ∈ flist ->
     id ∈ resume_set fs o) /\
  (forall forums_arg topics_arg s,
     PhpBBScraper_init fs o forums_arg topics_arg = Ret s ->
     o_scraped_topics (s_opts s) = resume_set fs o /\
     no_resumed_topic (resume_set fs o) (s_topics s) /\
     forall forum_id start pg pages,
       PhpBBForum_scrape (s_opts s) forum_id start pg = Ret pages ->
       no_resumed_topic (resume_set fs o) pages) /\
  (o_force o <> 0 -> resume_set fs o = []).
Proof.
  split; [|split].
  - intros Hf id dir subdirs flist Hdir Hfile. unfold resume_set.
    rewrite Hf. simpl. by eapply _load_state_topic_file.
  - intros forums_arg topics_arg s Hs.
    destruct (PhpBBScraper_init_ok _ _ _ _ _ Hs) as [H1 H2].
    split; [done|]. split; [done|].
    intros forum_id start pg pages Hp. rewrite <- H1.
    by eapply PhpBBForum_scrape_ok.
  - intros Hf. unfold resume_set.
    by destruct (Z.eqb_spec (o_force o) 0).
Qed.

(** Topic 12 is on disk: asked for topics 12 and 13, the scraper seeds
    topic 13 only, and the listing of forum 5 queues topic 13 only;
    under [--force] both are seeded. *)
Lemma resume_index_filters_example :
  resume_set resumed_disk sample_opts = [12] /\
  (s ← PhpBBScraper_init resumed_disk sample_opts [] ["12,13"%string];
   Ret (s_topics s)) = Ret [PhpBBTopic 13 0] /\
  PhpBBForum_scrape (with_scraped_topics sample_opts [12]) 5 0 listing_page
    = Ret [PhpBBTopic 13 0] /\
  resume_set resumed_disk (forced_opts 1) = [] /\
  (s ← PhpBBScraper_init resumed_disk (forced_opts 1) [] ["12,13"%string];
   Ret (s_topics s)) = Ret [PhpBBTopic 12 0; PhpBBTopic 13 0].
Proof. repeat split. Qed.

Lemma resume_index_filters_witness :
  12 ∈ resume_set resumed_disk sample_opts /\
  no_resumed_topic (resume_set resumed_disk sample_opts) [PhpBBTopic 13 0].
Proof.
  destruct (resume_index_filters resumed_disk sample_opts) as (H1 & H2 & _).
  split.
  - apply (H1 eq_refl 12 "out/5"%string [] ["_meta.json"; "12.json"]%string).
    + right. left.
    + right. left.
  - destruct (H2 [] ["12,13"%string] _ eq_refl) as (_ & H & _). exact H.
Defined.

(* ===================================================================== *)
(** * Media and avatars *)
(* ===================================================================== *)

(** [PhpBBTopic.save] at [force] 2: one request per referenced file,
    on disk or not. *)
Lemma media_tasks_force_2 (fs : filesystem) (o : opts) (fpaths : list path_seg)
    (use_session : bool) (l : list (string * string)) :
  o_force o = 2 ->
  media_tasks fs o fpaths use_session l =
    (fun i : string * string => FileSaver fpaths i.1 i.2 use_session) <$> l.
Proof.
  intros Hf. unfold media_tasks. rewrite Hf.
  induction l as [|i l IH]; [done|].
  rewrite !fmap_cons. cbn [concat]. rewrite IH.
  change (2 =? 2) with true. by rewrite orb_true_r.
Qed.

(** [PhpBBTopic.save] at [force] 0 and 1: a file that is on disk is
    passed over, every other file is requested. *)
Lemma media_tasks_skip_existing (fs : filesystem) (o : opts) (fpaths : list path_seg)
    (use_session : bool) (l : list (string * string)) :
  o_force o <> 2 ->
  media_tasks fs o fpaths use_session l =
    (fun i : string * string => FileSaver fpaths i.1 i.2 use_session) <$>
      List.filter (fun i => negb (isfile fs (full_path (o_output o) fpaths i.1))) l.
Proof.
  intros Hf. unfold media_tasks.
  destruct (Z.eqb_spec (o_force o) 2) as [|_]; [done|].
  induction l as [|i l IH]; [done|].
  rewrite fmap_cons. cbn [concat List.filter]. rewrite IH, orb_false_r.
  by destruct (isfile fs _).
Qed.

(** [PhpBBUsers.scrape] with [force] set: no avatar is requested, on
    disk or not. *)
Lemma avatar_tasks_forced (fs : filesystem) (o : opts) (fpaths : list path_seg)
    (uid : string) :
  o_force o <> 0 -> avatar_tasks fs o fpaths uid = [].
Proof.
  intros Hf. unfold avatar_tasks.
  destruct (Z.eqb_spec (o_force o) 0) as [|_]; [done|].
  simpl. by rewrite !orb_true_r.
Qed.

(** C8 on the code: at [force] 2 with [--save-media], the member list
    page of one member yields no avatar request, whether the avatar
    files are on disk or not (at [force] 0 and no files on disk it
    yields the two requests, png and jpg), while [PhpBBTopic.save] at
    [force] 2 does request an attachment that is already on disk. *)
Lemma avatars_skipped_at_force_2 :
  (PhpBBUsers_scrape full_disk (forced_opts 2) 0 members_page PageMerger_init).1
    = Ret [] /\
  (PhpBBUsers_scrape empty_disk (forced_opts 2) 0 members_page PageMerger_init).1
    = Ret [] /\
  (PhpBBUsers_scrape empty_disk (forced_opts 0) 0 members_page PageMerger_init).1
    = Ret [FileSaver [("users", "0")] "42.png"
                     "http://forum.example/download/file.php?avatar=42.png" true;
           FileSaver [("users", "0")] "42.jpg"
                     "http://forum.example/download/file.php?avatar=42.jpg" true]%string /\
  PhpBBTopic_save full_disk (TopicKey 7) [Some (PostItem post_with_file)]
                  [("5", "Forum")]%string (forced_opts 2)
    = Ret [FileSaver [("5", "Forum"); ("7", "files")] "a.png"
                     "http://forum.example/download/file.php?id=9" true]%string /\
  PhpBBTopic_save full_disk (TopicKey 7) [Some (PostItem post_with_file)]
                  [("5", "Forum")]%string (forced_opts 1)
    = Ret [].
Proof. repeat split. Qed.

(* ===================================================================== *)
(** * The merger: keys, invariants, order of calls *)
(* ===================================================================== *)

Section MergerKeys.
Context {Item Media Ctx : Type}.
Variable class_save :
  save_class -> Ctx -> doc_key -> list (option Item) -> py (list Media).

Implicit Types (m : merger Item Ctx) (v : pending Item Ctx).

Lemma append_frame m key (d : list Item) o :
  let r := PageMerger_append class_save m key d o in
  (forall k, k <> key -> pages r.2 !! k = pages m !! k) /\
  (saved r.2 = saved m \/ exists data, saved r.2 = saved m ++ [(key, data)]).
Proof.
  unfold PageMerger_append. destruct (pages m !! key) as [v|]; simpl; [|by split; [|left]].
  destruct (_ <=? 0).
  - destruct (class_save _ _ _ _); simpl.
    + split; [|right; eauto]. intros k Hk.
      by rewrite lookup_delete_ne, lookup_insert_ne.
    + split; [|right; eauto]. intros k Hk. by rewrite lookup_insert_ne.
  - simpl. split; [|by left]. intros k Hk. by rewrite lookup_insert_ne.
Qed.

(** X1: [append] and [add] for one key leave the documents of every
    other key as they are, whatever their outcome, and make at most
    one call of [save], for their own key. *)
Theorem merger_touches_only_its_key m ctx key cls (d : list Item) o size :
  let ra := PageMerger_append class_save m key d o in
  let rb := PageMerger_add class_save m ctx key cls d size in
  ((forall k, k <> key -> pages ra.2 !! k = pages m !! k) /\
   (saved ra.2 = saved m \/ exists data, saved ra.2 = saved m ++ [(key, data)])) /\
  ((forall k, k <> key -> pages rb.2 !! k = pages m !! k) /\
   (saved rb.2 = saved m \/ exists data, saved rb.2 = saved m ++ [(key, data)])).
Proof.
  split; [apply append_frame|].
  unfold PageMerger_add.
  destruct (append_frame
              (mkMerger (<[key := mkPending (replicate size None) (Z.of_nat size) ctx cls]>
                           (pages m)) (saved m)) key d 0) as [H1 H2].
  split; [|exact H2].
  intros k Hk. rewrite (H1 k Hk). simpl. by rewrite lookup_insert_ne.
Qed.

Lemma append_keeps_open_positive m key (d : list Item) o media m' :
  (forall k v, k <> key -> pages m !! k = Some v -> 0 < p_remain v) ->
  PageMerger_append class_save m key d o = (Ret media, m') ->
  open_positive m'.
Proof.
  unfold PageMerger_append. intros Hm H.
  destruct (pages m !! key) as [v|] eqn:Hv; [|done]. simpl in H.
  destruct (Z.leb_spec (p_remain v - Z.of_nat (length d)) 0) as [Hle|Hgt].
  - destruct (class_save _ _ _ _); [|done]. injection H as <- <-.
    intros k v'. simpl. rewrite delete_insert_eq.
    intros Hk. apply lookup_delete_Some in Hk as [Hne Hk]. by eapply Hm.
  - injection H as <- <-. intros k v'. simpl.
    destruct (decide (k = key)) as [->|Hne].
    + rewrite lookup_insert_eq. by intros [= <-].
    + rewrite lookup_insert_ne by done. by apply Hm.
Qed.

(** X2: in every merger reached from a new one by calls of [add] and
    [append] that returned, each open document has [remain > 0]: a
    document whose count reaches zero or less is saved and closed in
    the same call. *)
Theorem open_documents_wait_for_items m :
  merger_reachable class_save m -> open_positive m.
Proof.
  induction 1 as [|m ctx key cls d size media m' _ IH Hadd
                  |m key d o media m' _ IH Happ].
  - intros k v. unfold PageMerger_init. simpl. by rewrite lookup_empty.
  - unfold PageMerger_add in Hadd.
    eapply append_keeps_open_positive; [|exact Hadd].
    intros k v Hne. simpl. rewrite lookup_insert_ne by done. apply IH.
  - eapply append_keeps_open_positive; [|exact Happ].
    intros k v _. apply IH.
Qed.

(** What [append] does with its own key depends on that key's
    document only. *)
Lemma append_own_key m m0 key (d : list Item) o :
  pages m !! key = pages m0 !! key ->
  let r := PageMerger_append class_save m key d o in
  let r0 := PageMerger_append class_save m0 key d o in
  r.1 = r0.1 /\
  pages r.2 !! key = pages r0.2 !! key /\
  exists delta, saved r.2 = saved m ++ delta /\ saved r0.2 = saved m0 ++ delta.
Proof.
  intros Hk. unfold PageMerger_append. rewrite <- Hk.
  destruct (pages m !! key) as [v|] eqn:Hv; simpl.
  - destruct (_ <=? 0).
    + destruct (class_save _ _ _ _); simpl.
      * rewrite !lookup_delete_eq. split; [done|]. split; [done|].
        eexists. split; reflexivity.
      * rewrite !lookup_insert_eq. split; [done|]. split; [done|].
        eexists. split; reflexivity.
    + simpl. rewrite !lookup_insert_eq. split; [done|]. split; [done|].
      exists []. by rewrite !app_nil_r.
  - split; [done|]. split; [by rewrite Hv|]. exists []. by rewrite !app_nil_r.
Qed.

(** X3: two [append]s for different keys, each of which returns
    when it is the one made first, can be made in either order: in
    both orders both calls return, each with the same list, the open
    documents are the same afterwards, and the same calls of [save]
    were made. (A call that raises keeps the lock, so no call can
    follow it in either order.) *)
Theorem appends_on_different_keys_commute m k1 k2 (d1 d2 : list Item) o1 o2
    (media1 media2 : list Media) :
  k1 <> k2 ->
  (PageMerger_append class_save m k1 d1 o1).1 = Ret media1 ->
  (PageMerger_append class_save m k2 d2 o2).1 = Ret media2 ->
  let a1 := PageMerger_append class_save m k1 d1 o1 in
  let a2 := PageMerger_append class_save a1.2 k2 d2 o2 in
  let b2 := PageMerger_append class_save m k2 d2 o2 in
  let b1 := PageMerger_append class_save b2.2 k1 d1 o1 in
  (a1.1 = Ret media1 /\ a2.1 = Ret media2) /\
  (b2.1 = Ret media2 /\ b1.1 = Ret media1) /\
  pages a2.2 = pages b1.2 /\
  Permutation (saved a2.2) (saved b1.2).
Proof.
  intros Hne Hr1 Hr2 a1 a2 b2 b1. fold a1 in Hr1. fold b2 in Hr2.
  destruct (append_frame m k1 d1 o1) as [Fa1 _]. fold a1 in Fa1.
  destruct (append_frame a1.2 k2 d2 o2) as [Fa2 _]. fold a2 in Fa2.
  destruct (append_frame m k2 d2 o2) as [Fb2 _]. fold b2 in Fb2.
  destruct (append_frame b2.2 k1 d1 o1) as [Fb1 _]. fold b1 in Fb1.
  destruct (append_own_key m b2.2 k1 d1 o1) as (E1 & L1 & delta1 & S1 & S1');
    [by rewrite Fb2|]. fold a1 in E1, L1, S1. fold b1 in E1, L1, S1'.
  destruct (append_own_key a1.2 m k2 d2 o2) as (E2 & L2 & delta2 & S2 & S2');
    [by rewrite Fa1|]. fold a2 in E2, L2, S2. fold b2 in E2, L2, S2'.
  split; [by rewrite E2|]. split; [by rewrite <- E1|]. split.
  - apply map_eq. intros k.
    destruct (decide (k = k1)) as [->|Hk1].
    { by rewrite Fa2, L1. }
    destruct (decide (k = k2)) as [->|Hk2].
    { by rewrite L2, Fb1. }
    by rewrite Fa2, Fa1, Fb1, Fb2.
  - rewrite S2, S1, S1', S2', <- !app_assoc.
    apply Permutation_app_head, Permutation_app_comm.
Qed.
End MergerKeys.

Lemma open_documents_wait_for_items_example :
  open_positive half_topic.
Proof.
  apply (open_documents_wait_for_items (class_save empty_disk)).
  eapply reach_add; [apply reach_new|].
  unfold half_topic.
  exact (surjective_pairing
           (PageMerger_add (class_save empty_disk) PageMerger_init sample_ctx
                           (TopicKey 7) ClsTopic [PostItem (sample_post 1)] 2)).
Defined.

Lemma appends_on_different_keys_commute_example :
  let m := (PageMerger_add (class_save empty_disk) half_topic sample_ctx
                           (TopicKey 8) ClsTopic [PostItem (sample_post 5)] 3).2 in
  let d1 := [PostItem (sample_post 2)] in
  let d2 := [PostItem (sample_post 6)] in
  let a1 := PageMerger_append (class_save empty_disk) m (TopicKey 7) d1 1 in
  let a2 := PageMerger_append (class_save empty_disk) a1.2 (TopicKey 8) d2 1 in
  let b2 := PageMerger_append (class_save empty_disk) m (TopicKey 8) d2 1 in
  let b1 := PageMerger_append (class_save empty_disk) b2.2 (TopicKey 7) d1 1 in
  (a1.1 = Ret [] /\ a2.1 = Ret []) /\
  (b2.1 = Ret [] /\ b1.1 = Ret []) /\
  pages a2.2 = pages b1.2 /\
  Permutation (saved a2.2) (saved b1.2).
Proof.
  intros m d1 d2.
  apply (appends_on_different_keys_commute (class_save empty_disk) m
           (TopicKey 7) (TopicKey 8) d1 d2 1 1 [] []).
  - discriminate.
  - reflexivity.
  - reflexivity.
Defined.

(* ===================================================================== *)
(** * The queue and its two counters *)
(* ===================================================================== *)

Lemma queue_run_counts (q : RequestsIter) (n : nat) :
  queue_run q n ->
  _enqueued q = _processed q + Z.of_nat n + Z.of_nat (length (_queue q)).
Proof.
  induction 1 as [|q n t _ IH|q n t q' _ IH Hnext|q n _ IH]; simpl.
  - done.
  - rewrite length_app. simpl. lia.
  - unfold RequestsIter_next in Hnext.
    destruct (_queue q) as [|t' rest] eqn:Eq; [done|].
    injection Hnext as _ <-. simpl in *. lia.
  - lia.
Qed.

(** X4: when [processed] is called once for each task taken from the
    queue, the tasks ever enqueued are the processed ones, the ones
    taken and not yet processed, and the ones still queued; and
    [is_done] answers true exactly when no task is queued and none is
    in work. *)
Theorem is_done_when_all_work_is_done (q : RequestsIter) (n : nat) :
  queue_run q n ->
  _enqueued q = _processed q + Z.of_nat n + Z.of_nat (length (_queue q)) /\
  (is_done q = true <-> _queue q = [] /\ n = 0%nat).
Proof.
  intros Hrun. pose proof (queue_run_counts q n Hrun) as Hc.
  split; [done|].
  unfold is_done, queue_empty. destruct (_queue q) as [|t rest]; simpl in *.
  - destruct (Z.ltb_spec (_processed q) (_enqueued q)).
    + split; [done|]. intros [_ ->]. lia.
    + split; [|done]. intros _. split; [done|lia].
  - split; [done|]. by intros [? _].
Qed.

Lemma is_done_when_all_work_is_done_example :
  _enqueued one_in_flight = _processed one_in_flight + Z.of_nat 1 +
                            Z.of_nat (length (_queue one_in_flight)) /\
  (is_done one_in_flight = true <-> _queue one_in_flight = [] /\ 1%nat = 0%nat).
Proof.
  apply (is_done_when_all_work_is_done one_in_flight 1).
  apply (run_next (RequestsIter_put RequestsIter_init (PhpBBTopic 7 0)) 0
                  (PhpBBTopic 7 0)).
  - apply run_put, run_init.
  - reflexivity.
Defined.

(* ===================================================================== *)
(** * send_worker on any network *)
(* ===================================================================== *)

Section SendWorkerRuns.
Context {Page : Type}.
Variable net : nat -> request_outcome Page.

Lemma send_loop_requests (r : task) fuel : forall retry reqs,
  exists k, (k <= fuel)%nat /\
    sr_requests (send_loop net r fuel retry reqs) = reqs ++ replicate k r.
Proof.
  induction fuel as [|fuel IH]; intros retry reqs; simpl.
  - exists 0%nat. split; [lia|]. by rewrite app_nil_r.
  - destruct (net retry); simpl;
      try (exists 1%nat; split; [lia|done]).
    destruct (IH (S retry) (reqs ++ [r])) as (k & Hk & ->).
    exists (S k). split; [lia|]. by rewrite <- app_assoc.
Qed.

(** X5: whatever the network does, [send_worker] calls [request()] at
    most [max_retries] times (not at all for [max_retries <= 0]), and
    only on the task it was given. *)
Theorem send_worker_never_exceeds_budget (max_retries : Z) (r : task) :
  let res := send_worker net max_retries r in
  Z.of_nat (length (sr_requests res)) <= Z.max 0 max_retries /\
  Forall (fun t => t = r) (sr_requests res).
Proof.
  unfold send_worker.
  destruct (send_loop_requests r (Z.to_nat max_retries) 0 []) as (k & Hk & ->).
  simpl. rewrite length_replicate. split; [lia|].
  apply Forall_forall. by intros t [-> _]%elem_of_replicate.
Qed.

(** X6: the first call of [request()] that does not end in a
    connection error decides the result, when it comes within the
    budget: a response is returned with the task, whatever its
    status, and [send_worker] logs nothing itself (the one line there
    can be is the debug line of [FileSaver.request] for a status
    other than 200); an invalid or missing schema gives
    [(None, None)] at once with a debug line, the rest of the budget
    unused; on an [IndexError] two error lines are logged and
    [sys.exit(1)] is called. *)
Theorem send_worker_first_outcome (max_retries : Z) (r : task) (k : nat) :
  (forall i, (i < k)%nat -> net i = ConnectionError) ->
  net k <> ConnectionError ->
  Z.of_nat k < max_retries ->
  let res := send_worker net max_retries r in
  sr_requests res = replicate (S k) r /\
  sr_value res = match net k with
                 | Responded resp => Returned (Some resp) (Some r)
                 | RequestIndexError => Exited 1
                 | _ => Returned None None
                 end /\
  sr_log res = match net k with
               | Responded resp =>
                   if is_media_task r && negb (status_code resp =? 200)
                   then [DEBUG] else []
               | RequestIndexError => [ERROR; ERROR]
               | _ => [DEBUG]
               end.
Proof.
  intros Hnet Hk Hlt. unfold send_worker.
  rewrite (send_loop_first_outcome net r k); [|done|lia].
  destruct (Z.to_nat max_retries - k)%nat as [|fuel] eqn:E; [lia|].
  cbn [send_loop Nat.add app]. rewrite replicate_snoc.
  destruct (net k) as [resp| | | |]; try done.
  cbn [sr_requests sr_value sr_log]. split; [done|]. split; [done|].
  unfold request_log. destruct r; try done.
  cbn [is_media_task andb]. by destruct (status_code resp =? 200).
Qed.
End SendWorkerRuns.

Lemma send_worker_first_outcome_example :
  let net := fun i : nat => match i with
                            | 2%nat => Responded (sample_response 404)
                            | _ => ConnectionError
                            end in
  let f := FileSaver [("5"%string, "Forum"%string)] "a.png"%string
                     "http://forum.example/a.png"%string true in
  let res := send_worker net 3 f in
  sr_requests res = replicate 3 f /\
  sr_value res = Returned (Some (sample_response 404)) (Some f) /\
  sr_log res = [DEBUG].
Proof.
  intros net f.
  apply (send_worker_first_outcome net 3 f 2).
  - intros [|[|i]] Hi; [reflexivity|reflexivity|lia].
  - discriminate.
  - lia.
Defined.

(* ===================================================================== *)
(** * Counting tasks in the loops of main *)
(* ===================================================================== *)

Lemma fold_put_queue (l : list task) : forall q,
  _queue (fold_left RequestsIter_put l q) = _queue q ++ l /\
  _enqueued (fold_left RequestsIter_put l q) = _enqueued q + Z.of_nat (length l) /\
  _processed (fold_left RequestsIter_put l q) = _processed q.
Proof.
  induction l as [|t l IH]; intros q; simpl.
  - rewrite app_nil_r. repeat split; lia.
  - destruct (IH (RequestsIter_put q t)) as (H1 & H2 & H3).
    rewrite H1, H2, H3. simpl. rewrite <- app_assoc. repeat split; lia.
Qed.

(** X7: a task whose fetch runs out of retries is counted as processed
    twice in the first loop of [main]: once by [PhpBBScraper.scrape]
    and once more by [main], to which [scrape_worker] hands [[]] and
    not [None]. Nothing is enqueued and the merger is not touched.
    With the queue empty, [is_done] then answers true although one
    other task is still in work. *)
Theorem failed_fetch_counted_twice (net : nat -> request_outcome html_page)
    (fs : filesystem) (s : PhpBBScraper) (r : task) :
  (forall n, net n = ConnectionError) ->
  exists s',
    st_scraper (pipeline_step net fs s r) = Some s' /\
    _processed (s_queue s') = _processed (s_queue s) + 2 /\
    _enqueued (s_queue s') = _enqueued (s_queue s) /\
    _queue (s_queue s') = _queue (s_queue s) /\
    s_page_merger s' = s_page_merger s /\
    (_queue (s_queue s) = [] ->
     _enqueued (s_queue s) <= _processed (s_queue s) + 2 ->
     is_done (s_queue s') = true).
Proof.
  intros Hnet. unfold pipeline_step, send_worker.
  rewrite send_loop_connection_errors by done. simpl.
  eexists. split; [reflexivity|]. simpl.
  repeat split; try lia.
  intros Hq Hc. unfold is_done, queue_empty. simpl. rewrite Hq. simpl.
  by destruct (Z.ltb_spec (_processed (s_queue s) + 1 + 1) (_enqueued (s_queue s)));
    [lia|].
Qed.

Lemma failed_fetch_counted_twice_example :
  exists s',
    st_scraper (pipeline_step dead_net empty_disk (sample_scraper one_in_flight)
                              (PhpBBTopic 7 0)) = Some s' /\
    _processed (s_queue s') = _processed (s_queue (sample_scraper one_in_flight)) + 2 /\
    _enqueued (s_queue s') = _enqueued (s_queue (sample_scraper one_in_flight)) /\
    _queue (s_queue s') = _queue (s_queue (sample_scraper one_in_flight)) /\
    s_page_merger s' = s_page_merger (sample_scraper one_in_flight) /\
    (_queue (s_queue (sample_scraper one_in_flight)) = [] ->
     _enqueued (s_queue (sample_scraper one_in_flight))
       <= _processed (s_queue (sample_scraper one_in_flight)) + 2 ->
     is_done (s_queue s') = true).
Proof.
  apply (failed_fetch_counted_twice dead_net empty_disk
           (sample_scraper one_in_flight) (PhpBBTopic 7 0)).
  reflexivity.
Defined.

(** X8: a task answered with status 200 (on any call of [request()]
    within the budget) whose [scrape] returns is counted as processed
    once in the first loop of [main]; the pages
    it returns are put at the end of the queue in their order and
    counted as enqueued; the merger is the one [scrape] left. *)
Theorem expanded_task_counted_once (net : nat -> request_outcome html_page)
    (fs : filesystem) (s : PhpBBScraper) (r : task) (resp : response html_page)
    (pages : list task) (m' : page_merger) (k : nat) :
  answers_after net k resp ->
  Z.of_nat k < o_max_retries (s_opts s) ->
  status_code resp = 200 ->
  task_scrape fs (s_opts s) r resp (s_page_merger s) = (Ret pages, m') ->
  exists s',
    st_scraper (pipeline_step net fs s r) = Some s' /\
    s_page_merger s' = m' /\
    _queue (s_queue s') = _queue (s_queue s) ++ pages /\
    _enqueued (s_queue s') = _enqueued (s_queue s) + Z.of_nat (length pages) /\
    _processed (s_queue s') = _processed (s_queue s) + 1.
Proof.
  intros Hnet Hk Hstatus Hscrape. unfold pipeline_step.
  rewrite (send_worker_responds net _ r k resp Hnet Hk). simpl.
  unfold scrape_yield. rewrite Hstatus. simpl.
  unfold scrape_worker. simpl. rewrite Hscrape. simpl.
  destruct pages as [|t pages]; simpl.
  - eexists. split; [reflexivity|]. simpl. rewrite app_nil_r. repeat split; lia.
  - eexists. split; [reflexivity|]. simpl.
    destruct (fold_put_queue pages (RequestsIter_put (s_queue s) t)) as (H1 & H2 & H3).
    rewrite H1, H2, H3. simpl. rewrite <- app_assoc. repeat split; lia.
Qed.

Lemma expanded_task_counted_once_example :
  let s := sample_scraper one_in_flight in
  let resp := mkResponse 200 listing_page in
  exists s',
    st_scraper (pipeline_step (fun _ => Responded resp) empty_disk s (PhpBBForum 5 0))
      = Some s' /\
    s_page_merger s' = s_page_merger s /\
    _queue (s_queue s') = _queue (s_queue s) ++ [PhpBBTopic 12 0; PhpBBTopic 13 0] /\
    _enqueued (s_queue s') = _enqueued (s_queue s) + Z.of_nat 2 /\
    _processed (s_queue s') = _processed (s_queue s) + 1.
Proof.
  intros s resp.
  apply (expanded_task_counted_once (fun _ => Responded resp) empty_disk s
           (PhpBBForum 5 0) resp [PhpBBTopic 12 0; PhpBBTopic 13 0]
           (s_page_merger s) 0).
  - split; [|reflexivity]. intros i Hi. lia.
  - reflexivity.
  - reflexivity.
  - reflexivity.
Defined.

(** X9: in the second loop of [main] a file that was fetched with
    status 200 (on any call of [request()] within the budget) is
    never counted as processed: [FileSaver.scrape]
    returns [[]], [scrape_worker] turns that into [None], and the loop
    passes over [None]. The counters stay as they were, so while
    fewer tasks are processed than enqueued [is_done] keeps answering
    false. *)
Theorem fetched_media_not_counted (net : nat -> request_outcome html_page)
    (fs : filesystem) (s : PhpBBScraper) (paths : list path_seg)
    (fname url : string) (use_session : bool) (resp : response html_page)
    (k : nat) :
  answers_after net k resp ->
  Z.of_nat k < o_max_retries (s_opts s) ->
  status_code resp = 200 ->
  exists s',
    st_scraper (pipeline_step_media net fs s (FileSaver paths fname url use_session))
      = Some s' /\
    s_queue s' = s_queue s /\
    (_processed (s_queue s) < _enqueued (s_queue s) -> is_done (s_queue s') = false).
Proof.
  intros Hnet Hk Hstatus. unfold pipeline_step_media.
  rewrite (send_worker_responds net _ _ k resp Hnet Hk). simpl.
  unfold scrape_yield. rewrite Hstatus. simpl.
  eexists. split; [reflexivity|]. simpl. split; [done|].
  intros Hlt. unfold is_done.
  destruct (negb (queue_empty (s_queue s))); [done|].
  by destruct (Z.ltb_spec (_processed (s_queue s)) (_enqueued (s_queue s))); [|lia].
Qed.

Lemma fetched_media_not_counted_example :
  let s := sample_scraper one_in_flight in
  exists s',
    st_scraper (pipeline_step_media (status_net 200) empty_disk s
                  (FileSaver [("5", "Forum"); ("7", "files")] "a.png"
                             "http://forum.example/a.png" true)%string)
      = Some s' /\
    s_queue s' = s_queue s /\
    (_processed (s_queue s) < _enqueued (s_queue s) -> is_done (s_queue s') = false).
Proof.
  intros s.
  apply (fetched_media_not_counted (status_net 200) empty_disk s
           [("5", "Forum"); ("7", "files")]%string "a.png"%string
           "http://forum.example/a.png"%string true (sample_response 200) 0).
  - split; [|reflexivity]. intros i Hi. lia.
  - reflexivity.
  - reflexivity.
Defined.

(* ===================================================================== *)
(** * Pagination *)
(* ===================================================================== *)

Lemma elem_of_insert_sorted (x y : Z) (l : list Z) :
  x ∈ insert_sorted y l <-> x = y \/ x ∈ l.
Proof.
  induction l as [|z l IH]; simpl.
  - rewrite list_elem_of_singleton. split; [by left|]. by intros [?|?%not_elem_of_nil].
  - destruct (Z.ltb_spec y z).
    + by rewrite elem_of_cons.
    + destruct (Z.eqb_spec y z) as [->|Hne].
      * rewrite elem_of_cons. split; [by right|]. intros [->|?]; [by left|done].
      * rewrite !elem_of_cons, IH. tauto.
Qed.

Lemma insert_sorted_sorted (y : Z) (l : list Z) :
  StronglySorted Z.lt l -> StronglySorted Z.lt (insert_sorted y l).
Proof.
  induction 1 as [|z l Hl IH Hz]; simpl.
  - repeat constructor.
  - destruct (Z.ltb_spec y z).
    + constructor; [by constructor|]. constructor; [done|].
      eapply Forall_impl; [exact Hz|]. simpl. lia.
    + destruct (Z.eqb_spec y z) as [->|Hne]; [by constructor|].
      constructor; [done|]. apply Forall_forall. intros x Hx.
      apply elem_of_insert_sorted in Hx as [->|Hx]; [lia|].
      rewrite Forall_forall in Hz. by apply Hz.
Qed.

(** [sorted_set] is [sorted(set(..))]: strictly increasing, with the
    members of the list. *)
Lemma sorted_set_spec (l : list Z) :
  StronglySorted Z.lt (sorted_set l) /\ forall x, x ∈ sorted_set l <-> x ∈ l.
Proof.
  unfold sorted_set. induction l as [|y l [IH1 IH2]]; simpl.
  - split; [constructor|done].
  - split; [by apply insert_sorted_sorted|].
    intros x. by rewrite elem_of_insert_sorted, elem_of_cons, IH2.
Qed.

Lemma deltas_positive (l : list Z) :
  StronglySorted Z.lt l -> Forall (fun d => 0 < d) (deltas l).
Proof.
  induction 1 as [|a l Hl IH Ha]; [constructor|].
  destruct l as [|b l]; [constructor|]. simpl.
  constructor; [|exact IH]. inversion_clear Ha. lia.
Qed.

Lemma min_list_nonneg (l : list Z) :
  Forall (fun d => 0 < d) l -> 0 <= min_list 0 l.
Proof.
  unfold min_list. destruct l as [|x l]; [done|].
  inversion_clear 1 as [|? ? Hx Hl].
  assert (forall a, 0 < a -> 0 <= fold_left Z.min l a) as Hfold.
  { induction l as [|y l IH]; intros a Ha; simpl; [lia|].
    inversion_clear Hl. apply IH; [done|lia]. }
  by apply Hfold.
Qed.

Lemma _pagination_stride_nonneg (pg : html_page) (pn : pagination) :
  _pagination pg = Ret pn -> 0 <= pn_start_value pn.
Proof.
  unfold _pagination. intros H.
  assert (forall url pc sv,
            0 <= sv ->
            match pg_pagination_div pg with
            | None => Ret (mkPagination url 0 0 None)
            | Some None => Raise AttributeError
            | Some (Some n) =>
                Ret (mkPagination url (if pc =? 1 then Z.of_nat n else sv) pc (Some n))
            end = Ret pn -> 0 <= pn_start_value pn) as Hfin.
  { intros url pc sv Hsv. destruct (pg_pagination_div pg) as [[n|]|]; [|done|].
    - intros [= <-]. simpl. destruct (pc =? 1); lia.
    - by intros [= <-]. }
  destruct (last (pg_buttons pg)) as [[text href]|].
  - destruct (int_of_str text) as [pc|]; [|done]. simpl in H.
    destruct (_get_url_query href) as [url|]; [|done]. simpl in H.
    destruct (button_starts (pg_buttons pg)) as [ss|]; [|done]. simpl in H.
    eapply Hfin; [|exact H].
    apply min_list_nonneg, deltas_positive.
    exact (proj1 (sorted_set_spec (0 :: ss))).
  - apply (Hfin ∅ 1 0); [lia|]. exact H.
Qed.

Lemma sibling_pages_nonneg (mk : Z -> task) (pg : html_page) (pn : pagination)
    (pages : list task) :
  _pagination pg = Ret pn ->
  (forall start, 0 <= start -> start_nonneg (mk start)) ->
  sibling_pages mk pn = Ret pages ->
  Forall start_nonneg pages.
Proof.
  intros Hpn Hmk. unfold sibling_pages.
  destruct (pn_url pn !! "start"%string) as [s|]; [|intros [= <-]; constructor].
  destruct (int_of_str s); [|done]. simpl. intros [= <-].
  apply Forall_forall. intros t (i & -> & Hi)%list_elem_of_fmap.
  apply Hmk. unfold range_from_1 in Hi.
  apply list_elem_of_fmap in Hi as (j & -> & _).
  pose proof (_pagination_stride_nonneg pg pn Hpn). nia.
Qed.

(* ===================================================================== *)
(** * What save and the merger hand back *)
(* ===================================================================== *)

Lemma media_tasks_are_files (fs : filesystem) (o : opts) (fpaths : list path_seg)
    (use_session : bool) (l : list (string * string)) :
  Forall (fun t => is_media_task t = true) (media_tasks fs o fpaths use_session l).
Proof.
  unfold media_tasks. apply Forall_forall. intros t (x & Hx & Hl)%elem_of_concat.
  apply list_elem_of_fmap in Hl as (i & -> & _).
  destruct (_ || _); [|by apply not_elem_of_nil in Hx].
  by apply list_elem_of_singleton in Hx as ->.
Qed.

Lemma class_save_files (fs : filesystem) (cls : save_class) (ctx : save_ctx)
    (key : doc_key) (data : list (option item)) (media : list task) :
  class_save fs cls ctx key data = Ret media ->
  Forall (fun t => is_media_task t = true) media.
Proof.
  destruct cls; simpl; [|by intros [= <-]].
  unfold PhpBBTopic_save. intros H.
  destruct (o_save_media ctx.1 || o_save_attachments ctx.1).
  - destruct (py_mapM _ data) as [ms|] eqn:E; [|done]. simpl in H.
    destruct (save_io_ok _ _ _ _); injection H as <-; [|constructor].
    apply py_mapM_Ret in E. apply Forall_forall.
    intros t (x & Hx & Hl)%elem_of_concat.
    apply list_elem_of_lookup in Hl as [i Hi].
    destruct (Forall2_lookup_r _ _ _ _ _ E Hi) as (d & _ & Hd).
    unfold post_media_tasks in Hd. destruct d as [[p|u]|]; [|done|done].
    injection Hd as <-. apply elem_of_app in Hx as [Hx|Hx].
    + pose proof (media_tasks_are_files fs ctx.1
                    (ctx.2 ++ [(key_str key, "files"%string)]) true (files p)) as Hf.
      rewrite Forall_forall in Hf. by apply Hf.
    + destruct (media p) as [l|]; [|by apply not_elem_of_nil in Hx].
      pose proof (media_tasks_are_files fs ctx.1
                    (ctx.2 ++ [(key_str key, "files"%string)]) false l) as Hf.
      rewrite Forall_forall in Hf. by apply Hf.
  - simpl in H. destruct (save_io_ok _ _ _ _); injection H as <-; constructor.
Qed.

Lemma append_media_files (fs : filesystem) (m : page_merger) (key : doc_key)
    (d : list item) (o : nat) (media : list task) (m' : page_merger) :
  PageMerger_append (class_save fs) m key d o = (Ret media, m') ->
  Forall (fun t => is_media_task t = true) media.
Proof.
  unfold PageMerger_append. destruct (pages m !! key) as [v|]; [|done]. simpl.
  destruct (_ <=? 0).
  - destruct (class_save _ _ _ _ _) as [l|] eqn:E; [|done].
    intros [= <- _]. by eapply class_save_files.
  - intros [= <- _]. constructor.
Qed.

Lemma force_save_loop_files (fs : filesystem) (items : list (doc_key * pending item save_ctx)) :
  forall media log all,
  Forall (fun t => is_media_task t = true) media ->
  (force_save_loop (class_save fs) items media log).1 = Ret all ->
  Forall (fun t => is_media_task t = true) all.
Proof.
  induction items as [|[k v] items IH]; intros media log all Hm H; simpl in H.
  - by injection H as <-.
  - destruct (class_save _ _ _ _ _) as [more|] eqn:E; [|done].
    eapply IH; [|exact H]. apply Forall_app. split; [done|].
    by eapply class_save_files.
Qed.

(** X10: whatever [append], [add] and [force_save] hand back are file
    requests ([FileSaver]) only, never a forum, topic or user page. *)
Theorem merger_returns_file_requests (fs : filesystem) (m : page_merger) :
  (forall key d o media m',
     PageMerger_append (class_save fs) m key d o = (Ret media, m') ->
     Forall (fun t => is_media_task t = true) media) /\
  (forall ctx key cls d size media m',
     PageMerger_add (class_save fs) m ctx key cls d size = (Ret media, m') ->
     Forall (fun t => is_media_task t = true) media) /\
  (forall media,
     (PageMerger_force_save (class_save fs) m).1 = Ret media ->
     Forall (fun t => is_media_task t = true) media).
Proof.
  split; [|split].
  - intros. by eapply append_media_files.
  - intros ctx key cls d size media m'. unfold PageMerger_add.
    apply append_media_files.
  - intros media. unfold PageMerger_force_save. simpl.
    apply force_save_loop_files. constructor.
Qed.

(* ===================================================================== *)
(** * Offsets of the pages that are queued *)
(* ===================================================================== *)

Lemma media_start_nonneg (l : list task) :
  Forall (fun t => is_media_task t = true) l -> Forall start_nonneg l.
Proof. intros H. eapply Forall_impl; [exact H|]. by intros []. Qed.

Lemma new_PhpBBForumPassword_nonneg (o : opts) (pg : html_page) (pw : string)
    (t : task) :
  new_PhpBBForumPassword o pg pw = Ret t -> start_nonneg t.
Proof.
  unfold new_PhpBBForumPassword.
  destruct (py_of_option IndexError (pg_login_forum pg)); [|done]. simpl.
  destruct (_get_url_query _) as [q|]; [|done]. simpl.
  destruct (py_of_option KeyError (q !! "sid"%string)); [|done]. simpl.
  destruct (match q !! "t"%string with Some _ => _ | None => _ end); [|done].
  simpl. by intros [= <-].
Qed.

Lemma PhpBBForum_scrape_nonneg (o : opts) (forum_id start : Z) (pg : html_page)
    (pages : list task) :
  PhpBBForum_scrape o forum_id start pg = Ret pages -> Forall start_nonneg pages.
Proof.
  unfold PhpBBForum_scrape. intros H.
  destruct (pg_message pg); [apply message_wall_Ret in H as ->; constructor|].
  destruct (pg_login pg); [injection H as <-; constructor|].
  destruct (_is_password_required pg).
  { destruct (o_passwords_f o !! forum_id) as [pw|]; [|injection H as <-; constructor].
    destruct (new_PhpBBForumPassword o pg pw) as [t|] eqn:E; [|done].
    injection H as <-. constructor; [|constructor].
    by eapply new_PhpBBForumPassword_nonneg. }
  destruct (forum_id =? 0).
  { apply py_mapM_Ret in H. apply Forall_forall. intros t Ht.
    apply list_elem_of_lookup in Ht as [i Hi].
    destruct (Forall2_lookup_r _ _ _ _ _ H Hi) as (href & _ & Hf).
    unfold forum_of_link in Hf.
    destruct (_get_url_query href) as [q|]; [|done]. simpl in Hf.
    destruct (py_of_option KeyError (q !! "f"%string)) as [fid|]; [|done].
    simpl in Hf. destruct (int_of_str fid); [|done]. by injection Hf as <-. }
  destruct (py_mapM topic_of_link (pg_topic_links pg)) as [tids|]; [|done].
  simpl in H.
  assert (Forall start_nonneg (concat (queue_topic o <$> tids))) as Hq.
  { apply Forall_forall. intros t (l & Ht & Hl)%elem_of_concat.
    apply list_elem_of_fmap in Hl as (tid & -> & _). unfold queue_topic in Ht.
    destruct (bool_decide _); [by apply not_elem_of_nil in Ht|].
    by apply list_elem_of_singleton in Ht as ->. }
  destruct (negb (start =? 0)); [by injection H as <-|].
  destruct (_pagination pg) as [pn|] eqn:Ep; [|done]. simpl in H.
  destruct (sibling_pages (PhpBBForum forum_id) pn) as [sib|] eqn:Es; [|done].
  injection H as <-. apply Forall_app. split; [done|].
  by eapply (sibling_pages_nonneg (PhpBBForum forum_id) pg pn).
Qed.

Lemma PhpBBTopic_scrape_nonneg (fs : filesystem) (o : opts) (topic_id start : Z)
    (pg : html_page) (m m' : page_merger) (pages : list task) :
  PhpBBTopic_scrape fs o topic_id start pg m = (Ret pages, m') ->
  Forall start_nonneg pages.
Proof.
  unfold PhpBBTopic_scrape. intros H.
  destruct (pg_message pg);
    [injection H as H _; apply message_wall_Ret in H as ->; constructor|].
  destruct (pg_login pg); [injection H as <- _; constructor|].
  destruct (_is_password_required pg).
  { destruct (o_passwords_t o !! topic_id) as [pw|]; [|injection H as <- _; constructor].
    destruct (new_PhpBBForumPassword o pg pw) as [t|] eqn:E; [|done].
    injection H as <- _. constructor; [|constructor].
    by eapply new_PhpBBForumPassword_nonneg. }
  destruct (topic_page_parse o topic_id pg) as [[pn [[|] posts]]|] eqn:Ep;
    [| injection H as <- _; constructor | done].
  assert (_pagination pg = Ret pn) as Hpn.
  { unfold topic_page_parse in Ep.
    destruct (py_of_option IndexError (pg_topic_title pg)); [|done]. simpl in Ep.
    destruct (_pagination pg) as [pn'|]; [|done]. simpl in Ep.
    destruct (py_of_option IndexError (last (pg_breadcrumbs pg))); [|done].
    simpl in Ep. destruct (_parse_page _ _ _ _ _ _); [|done]. simpl in Ep.
    by injection Ep as ->. }
  destruct (negb (start =? 0)).
  { by apply append_media_files, media_start_nonneg in H. }
  destruct (pn_elements_count pn) as [size|]; [|done].
  destruct (PageMerger_add _ _ _ _ _ _ _) as [[media|] m1] eqn:Ea; [|done].
  destruct (sibling_pages (PhpBBTopic topic_id) pn) as [sib|] eqn:Es; [|done].
  injection H as <- _. apply Forall_app. split.
  - unfold PageMerger_add in Ea.
    by apply append_media_files, media_start_nonneg in Ea.
  - by eapply (sibling_pages_nonneg (PhpBBTopic topic_id) pg pn).
Qed.

Lemma avatar_tasks_files (fs : filesystem) (o : opts) (fpaths : list path_seg)
    (uid : string) :
  Forall (fun t => is_media_task t = true) (avatar_tasks fs o fpaths uid).
Proof.
  unfold avatar_tasks. simpl. destruct (_ || _), (_ || _); repeat constructor.
Qed.

Lemma PhpBBUsers_scrape_nonneg (fs : filesystem) (o : opts) (start : Z)
    (pg : html_page) (m m' : page_merger) (pages : list task) :
  PhpBBUsers_scrape fs o start pg m = (Ret pages, m') ->
  Forall start_nonneg pages.
Proof.
  unfold PhpBBUsers_scrape. intros H.
  destruct (negb (pg_title pg)); [done|].
  destruct (pg_message pg);
    [injection H as H _; apply message_wall_Ret in H as ->; constructor|].
  destruct (pg_login pg); [injection H as <- _; constructor|].
  destruct (py_mapM _ (pg_members pg)) as [rows|] eqn:Er; [|done]. simpl in H.
  destruct (_pagination pg) as [pn|] eqn:Ep; [|done]. simpl in H.
  assert (Forall start_nonneg (concat (snd <$> rows))) as Hav.
  { apply py_mapM_Ret in Er. apply media_start_nonneg, Forall_forall.
    intros t (l & Ht & Hl)%elem_of_concat.
    apply list_elem_of_fmap in Hl as ([u av] & -> & Hrow).
    apply list_elem_of_lookup in Hrow as [i Hi].
    destruct (Forall2_lookup_r _ _ _ _ _ Er Hi) as (tr & _ & Htr).
    unfold member_of_row in Htr.
    destruct (if o_parse_date o then _ else _); [|done]. simpl in Htr.
    destruct (_get_url_query _) as [q|]; [|done]. simpl in Htr.
    destruct (py_of_option KeyError (q !! "u"%string)) as [uid|]; [|done].
    simpl in Htr. injection Htr as _ <-. simpl in Ht.
    destruct (_ && _); [by apply not_elem_of_nil in Ht|].
    pose proof (avatar_tasks_files fs o [("users"%string, "0"%string)] uid) as Hf.
    rewrite Forall_forall in Hf. by apply Hf. }
  destruct (negb (start =? 0)).
  { destruct (PageMerger_append _ _ _ _ _) as [[media|] m1] eqn:Ea; [|done].
    injection H as <- _. apply Forall_app. split; [done|].
    by apply append_media_files, media_start_nonneg in Ea. }
  destruct (pn_elements_count pn) as [size|]; [|done].
  destruct (PageMerger_add _ _ _ _ _ _ _) as [[media|] m1] eqn:Ea; [|done].
  destruct (sibling_pages PhpBBUsers pn) as [sib|] eqn:Es; [|done].
  injection H as <- _. apply Forall_app. split; [done|].
  by eapply (sibling_pages_nonneg PhpBBUsers pg pn).
Qed.

(** X11: no page object ever gets a negative pagination offset. The
    pages seeded by [PhpBBScraper.__init__] and the pages returned by
    the [scrape] of any page object have [start >= 0]: the stride that
    [_pagination] computes is a difference of sorted distinct offsets
    or the element count, and the sibling pages are at multiples of
    it. *)
Theorem queued_offsets_never_negative (fs : filesystem) (o : opts) :
  (forall forums_arg topics_arg s,
     PhpBBScraper_init fs o forums_arg topics_arg = Ret s ->
     Forall start_nonneg (s_topics s)) /\
  (forall obj resp m pages m',
     task_scrape fs o obj resp m = (Ret pages, m') ->
     Forall start_nonneg pages).
Proof.
  split.
  - intros forums_arg topics_arg s. unfold PhpBBScraper_init.
    assert (forall is_topics arg st st',
              _parse_arg is_topics arg st = Ret st' ->
              Forall start_nonneg st.2 -> Forall start_nonneg st'.2) as Harg.
    { intros is_topics arg. induction arg as [|t arg IH]; intros st st' H Hst;
        simpl in H; [by injection H as <-|].
      destruct (parse_spec is_topics t st) as [st1|] eqn:E1; [|done]. simpl in H.
      eapply IH; [exact H|]. unfold parse_spec in E1.
      destruct (match split_first ":" t with Some _ => _ | None => _ end)
        as [t' pw].
      clear H. revert st st1 Hst E1.
      induction (split_on "," t') as [|r l IHl]; intros st st1 Hst E1;
        simpl in E1; [by injection E1 as <-|].
      destruct (parse_item is_topics pw r st) as [st2|] eqn:E2; [|done].
      simpl in E1. eapply IHl; [|exact E1]. clear E1.
      unfold parse_item in E2. destruct (negb (contains "-" r)).
      - destruct (int_of_str r) as [n|]; [|done]. simpl in E2.
        destruct (is_topics && _); [injection E2 as <-|].
        { simpl. apply Forall_app. split; [done|]. by repeat constructor. }
        destruct (negb is_topics); injection E2 as <-; [|done].
        simpl. apply Forall_app. split; [done|]. by repeat constructor.
      - destruct (split_on "-" r) as [|a [|b [|? ?]]]; try done.
        destruct (int_of_str a) as [x|]; [|done]. simpl in E2.
        destruct (int_of_str b) as [y|]; [|done]. simpl in E2.
        revert st Hst E2. induction (range_incl x y) as [|i rg IHr];
          intros st Hst E2; simpl in E2; [by injection E2 as <-|].
        destruct (is_topics && _); [done|]. destruct (negb is_topics); [done|].
        by apply IHr in E2. }
    intros H.
    destruct (_parse_arg false _ _) as [st|] eqn:E1; [|done]. simpl in H.
    destruct (_parse_arg true _ st) as [st'|] eqn:E2; [|done].
    injection H as <-. simpl.
    eapply Harg; [exact E2|]. eapply Harg; [exact E1|]. simpl.
    destruct (o_save_users _); by repeat constructor.
  - intros obj resp m pages m' H. destruct obj; simpl in H.
    + injection H as <- _. constructor.
    + unfold PhpBBForumPassword_scrape in H.
      destruct (negb (pg_title _)); [done|].
      destruct (pg_message _).
      { destruct (py_of_option KeyError _); [|done].
        injection H as H _. apply message_wall_Ret in H as ->. constructor. }
      destruct (pg_login _).
      { destruct (py_of_option KeyError _); [|done].
        injection H as <- _. constructor. }
      destruct (_is_password_required _).
      { destruct (py_of_option KeyError _); [|done].
        injection H as <- _. constructor. }
      destruct (contains "viewforum.php" url).
      * destruct (_ ← py_of_option KeyError _; _) as [fid|]; [|done].
        injection H as H _. by eapply PhpBBForum_scrape_nonneg.
      * by eapply PhpBBTopic_scrape_nonneg.
    + injection H as H _. by eapply PhpBBForum_scrape_nonneg.
    + by eapply PhpBBTopic_scrape_nonneg.
    + by eapply PhpBBUsers_scrape_nonneg.
Qed.

(* ===================================================================== *)
(** * Decimal strings *)
(* ===================================================================== *)

Lemma digit_not_char (c a : ascii) (d d' : Decimal.uint) :
  uint_of_char c (Some Decimal.Nil) = None ->
  uint_of_char a (Some d) = Some d' ->
  Ascii.eqb a c = false.
Proof.
  intros Hc Ha. apply Ascii.eqb_neq. intros ->.
  apply uint_of_char_spec in Ha.
  repeat (destruct Ha as [[-> _]|Ha]; [discriminate|]).
  destruct Ha as [-> _]. discriminate.
Qed.

Lemma uint_of_string_lacks (c : ascii) (s : string) (d : Decimal.uint) :
  uint_of_char c (Some Decimal.Nil) = None ->
  NilEmpty.uint_of_string s = Some d -> lacks c s = true.
Proof.
  intros Hc. revert d. induction s as [|a s IH]; intros d H;
    cbn [NilEmpty.uint_of_string lacks] in *; [done|].
  destruct (NilEmpty.uint_of_string s) as [d0|] eqn:E; [|done].
  rewrite (digit_not_char c a d0 d Hc H). simpl. by eapply IH.
Qed.

(** A string that [int] reads holds no dot. *)
Lemma int_of_str_lacks_dot (s : string) (z : Z) :
  int_of_str s = Ret z -> lacks "." s = true.
Proof.
  intros H. apply (all_chars_lacks int_char); [done|]. by eapply int_of_str_chars.
Qed.

Lemma string_of_uint_lacks (c : ascii) (d : Decimal.uint) :
  uint_of_char c (Some Decimal.Nil) = None ->
  lacks c (NilEmpty.string_of_uint d) = true.
Proof.
  intros Hc. induction d; cbn [NilEmpty.string_of_uint lacks]; [done|..];
    rewrite IHd, andb_true_r; apply negb_true_iff, Ascii.eqb_neq;
    intros <-; discriminate.
Qed.

(** [str(n)] for [n >= 0] holds no minus sign; for [n < 0] it is a
    minus sign and digits. *)
Lemma str_of_int_nonneg_lacks_minus (n : Z) :
  0 <= n -> lacks "-" (str_of_int n) = true.
Proof.
  intros Hn. unfold str_of_int. destruct n as [|p|p]; [done| |lia].
  simpl. unfold NilZero.string_of_uint.
  pose proof (string_of_uint_lacks "-" (Pos.to_uint p) eq_refl) as H.
  by destruct (Pos.to_uint p).
Qed.

Lemma str_of_int_neg (n : Z) :
  n < 0 -> exists ds, str_of_int n = String "-" ds /\ lacks "-" ds = true.
Proof.
  intros Hn. unfold str_of_int. destruct n as [|p|p]; [lia|lia|].
  simpl. eexists. split; [reflexivity|]. unfold NilZero.string_of_uint.
  pose proof (string_of_uint_lacks "-" (Pos.to_uint p) eq_refl) as H.
  by destruct (Pos.to_uint p).
Qed.

Lemma lacks_contains (c : ascii) (s : string) :
  lacks c s = true -> contains (String c EmptyString) s = false.
Proof.
  induction s as [|a s IH]; cbn [lacks contains String.prefix]; [done|].
  intros [Ha Hs]%andb_true_iff. rewrite (IH Hs), orb_false_r.
  apply negb_true_iff, Ascii.eqb_neq in Ha.
  by destruct (ascii_dec c a) as [->|_].
Qed.

Lemma lacks_split_on (c : ascii) (s : string) :
  lacks c s = true -> split_on c s = [s].
Proof.
  induction s as [|a s IH]; cbn [lacks split_on]; [done|].
  intros [Ha Hs]%andb_true_iff. apply negb_true_iff in Ha.
  by rewrite Ha, (IH Hs).
Qed.

(* ===================================================================== *)
(** * Which files make the resume set *)
(* ===================================================================== *)

Lemma substring_split (n : nat) : forall s : string,
  (n <= String.length s)%nat ->
  exists t, s = (String.substring 0 n s ++ t)%string /\
            String.length t = (String.length s - n)%nat.
Proof.
  induction n as [|n IH]; intros s Hn.
  - exists s. destruct s; simpl; split; try done; lia.
  - destruct s as [|a s]; simpl in *; [lia|].
    destruct (IH s ltac:(lia)) as (t & Ht & Hl). exists t.
    split; [|done].
    change (String a s = String a (String.substring 0 n s ++ t)%string).
    by rewrite <- Ht.
Qed.

Lemma prefix_length (a b : string) :
  String.prefix a b = true -> (String.length a <= String.length b)%nat.
Proof.
  revert b. induction a as [|c a IH]; intros b H; [simpl; lia|].
  destruct b as [|c' b]; simpl in H; [done|].
  destruct (ascii_dec c c'); [|done].
  specialize (IH _ H). simpl. lia.
Qed.

Lemma prefix_same_length (a b : string) :
  String.prefix a b = true -> String.length a = String.length b -> a = b.
Proof.
  revert b. induction a as [|c a IH]; intros b H Hl.
  - by destruct b.
  - destruct b as [|c' b]; simpl in H, Hl; [done|].
    destruct (ascii_dec c c') as [->|]; [|done].
    f_equal. apply IH; [done|]. lia.
Qed.

Lemma contains_short (sub s : string) :
  (String.length s < String.length sub)%nat -> contains sub s = false.
Proof.
  induction s as [|a s IH]; intros Hl.
  - simpl. destruct sub; [simpl in Hl; lia|done].
  - cbn [contains]. rewrite IH by (simpl in Hl; lia). rewrite orb_false_r.
    destruct (String.prefix sub (String a s)) eqn:E; [|done].
    apply prefix_length in E. lia.
Qed.

(** Behind a part without a dot, [.json] can only be the last five
    characters. *)
Lemma contains_json_tail (s t : string) :
  lacks "." s = true -> String.length t = 5%nat ->
  contains ".json" (s ++ t)%string = true -> t = ".json"%string.
Proof.
  intros Hs Ht. induction s as [|a s IH]; intros H.
  - change (contains ".json" t = true) in H.
    destruct t as [|b t]; [done|]. cbn [contains] in H.
    rewrite (contains_short ".json" t), orb_false_r in H by (simpl in *; lia).
    symmetry. by apply prefix_same_length.
  - cbn [lacks] in Hs. apply andb_true_iff in Hs as [Ha Hs].
    change (contains ".json" (String a (s ++ t)%string) = true) in H.
    cbn [contains] in H. apply orb_true_iff in H as [H|H]; [|by apply IH].
    exfalso. apply negb_true_iff, Ascii.eqb_neq in Ha.
    change (String.prefix ".json" (String a (s ++ t)%string))
      with (if ascii_dec "."%char a
            then String.prefix "json" (s ++ t)%string else false) in H.
    destruct (ascii_dec "."%char a) as [Heq|]; [by apply Ha|done].
Qed.

Lemma scraped_of_file_spec (f : string) (id : Z) :
  id ∈ scraped_of_file f <->
  exists s, f = (s ++ ".json")%string /\ int_of_str s = Ret id.
Proof.
  unfold scraped_of_file. split.
  - destruct (String.eqb f "_meta.json"); [by intros ?%not_elem_of_nil|].
    destruct (contains ".json" f) eqn:Ec; [|by intros ?%not_elem_of_nil].
    destruct (int_of_str (drop_last 5 f)) as [tid|] eqn:Ei;
      [|by intros ?%not_elem_of_nil].
    intros ->%list_elem_of_singleton. exists (drop_last 5 f). split; [|done].
    unfold drop_last in *.
    destruct (le_lt_dec 5 (String.length f)) as [Hlen|Hlen].
    + destruct (substring_split (String.length f - 5) f ltac:(lia))
        as (t & Hf & Ht).
      rewrite Hf at 1. f_equal.
      apply (contains_json_tail (String.substring 0 (String.length f - 5) f));
        [by eapply int_of_str_lacks_dot|lia|by rewrite <- Hf].
    + exfalso. replace (String.length f - 5)%nat with 0%nat in Ei by lia.
      by destruct f.
  - intros (s & -> & Hs).
    pose proof (drop_last_append s ".json") as Hdrop. simpl in Hdrop.
    destruct (String.eqb_spec (s ++ ".json")%string "_meta.json") as [Heq|_].
    + exfalso. rewrite Heq in Hdrop. rewrite <- Hdrop in Hs.
      vm_compute in Hs. discriminate.
    + rewrite contains_append, Hdrop, Hs. by left.
Qed.

(** X12: the resume set holds exactly the numbers of the walked files
    whose name is a string that [int] reads followed by [.json]:
    every such file adds its number ([7.json], and also [+7.json],
    [ 7.json], [0_7.json]), and nothing else adds one (not
    [_meta.json], not [users.json], not a name with [.json] in the
    middle). *)
Theorem _load_state_exact (fs : filesystem) (output : string) (id : Z) :
  id ∈ _load_state fs output <->
  exists dir subdirs flist s,
    (dir, subdirs, flist) ∈ walk fs output /\
    (s ++ ".json")%string ∈ flist /\
    int_of_str s = Ret id.
Proof.
  unfold _load_state. rewrite elem_of_concat. split.
  - intros (l & Hid & Hl).
    apply list_elem_of_fmap in Hl as ([[dir subdirs] flist] & -> & Hw).
    simpl in Hid. apply elem_of_concat in Hid as (l' & Hid & Hl').
    apply list_elem_of_fmap in Hl' as (f & -> & Hf).
    apply scraped_of_file_spec in Hid as (s & -> & Hs).
    by exists dir, subdirs, flist, s.
  - intros (dir & subdirs & flist & s & Hw & Hf & Hs).
    exists (concat (scraped_of_file <$> flist)). split.
    + apply elem_of_concat. exists (scraped_of_file (s ++ ".json")%string).
      split; [apply scraped_of_file_spec; eauto|].
      by apply list_elem_of_fmap_2.
    + apply list_elem_of_fmap. by exists (dir, subdirs, flist).
Qed.

(** File names are read as [int] reads them: a sign, white space and
    single underscores are taken. *)
Lemma _load_state_odd_names :
  _load_state odd_names_disk "out" = [7; 8; 10].
Proof. reflexivity. Qed.

(* ===================================================================== *)
(** * Targets given on the command line *)
(* ===================================================================== *)

Lemma parse_range_adds_nothing (is_topics : bool) (password : option string)
    (l : list Z) : forall st st',
  parse_range is_topics password l st = Ret st' ->
  st'.2 = st.2 /\
  (l <> [] -> is_topics = true /\
              forall i, i ∈ l -> i ∈ o_scraped_topics st.1).
Proof.
  induction l as [|i l IH]; intros st st' H; simpl in H.
  - injection H as <-. by split.
  - destruct is_topics; simpl in H; [|done].
    destruct (bool_decide (i ∈ _)) eqn:Hi; [|done]. simpl in H.
    apply bool_decide_eq_true in Hi. rewrite set_password_scraped in Hi.
    destruct (IH _ _ H) as [H1 H2]. split; [done|]. intros _. split; [done|].
    intros j [->|Hj]%elem_of_cons; [done|].
    destruct l as [|k l]; [by apply not_elem_of_nil in Hj|].
    destruct (H2 ltac:(done)) as [_ H3]. specialize (H3 j Hj).
    simpl in H3. by rewrite set_password_scraped in H3.
Qed.

Lemma contains_lacks (c : ascii) (s : string) :
  contains (String c EmptyString) s = false -> lacks c s = true.
Proof.
  induction s as [|a s IH]; cbn [lacks contains String.prefix]; [done|].
  intros [Hp Hs]%orb_false_iff. rewrite (IH Hs), andb_true_r.
  apply negb_true_iff, Ascii.eqb_neq. intros ->.
  destruct (ascii_dec c c) as [_|Hne]; [|by destruct Hne]. by destruct s.
Qed.

Lemma elem_of_range_incl (x y i : Z) : x <= i <= y -> i ∈ range_incl x y.
Proof.
  intros Hi. unfold range_incl. apply list_elem_of_fmap.
  exists (Z.to_nat (i - x)). split; [lia|].
  apply elem_of_seq. lia.
Qed.

Lemma parse_item_seed (is_topics : bool) (password : option string) (r : string)
    (st st' : opts * list task) :
  parse_item is_topics password r st = Ret st' ->
  st'.2 = st.2 ++ item_seed is_topics (o_scraped_topics st.1) r /\
  o_scraped_topics st'.1 = o_scraped_topics st.1 /\
  (forall a b x y,
     split_on "-" r = [a; b] -> int_of_str a = Ret x -> int_of_str b = Ret y ->
     x <= y ->
     is_topics = true /\ forall i, x <= i <= y -> i ∈ o_scraped_topics st.1).
Proof.
  unfold parse_item, item_seed. intros H.
  destruct (contains "-" r) eqn:Hc; cbn [negb] in H.
  - destruct (split_on "-" r) as [|a [|b [|? ?]]] eqn:Es; try done.
    destruct (int_of_str a) as [x|] eqn:Ea; [|done]. simpl in H.
    destruct (int_of_str b) as [y|] eqn:Eb; [|done]. simpl in H.
    assert (o_scraped_topics st'.1 = o_scraped_topics st.1) as Hsc.
    { clear -H. revert st H. induction (range_incl x y) as [|i l IH];
        intros st H; simpl in H; [by injection H as <-|].
      destruct (is_topics && _); [done|]. destruct (negb is_topics); [done|].
      rewrite (IH _ H). simpl. apply set_password_scraped. }
    apply parse_range_adds_nothing in H as [H1 H2].
    split; [by rewrite app_nil_r|]. split; [done|].
    intros a' b' x' y' [= <- <-] Hx' Hy' Hxy.
    rewrite Ea in Hx'. rewrite Eb in Hy'. injection Hx' as <-. injection Hy' as <-.
    destruct H2 as [Ht Hin].
    { intros Hnil. pose proof (elem_of_range_incl x y x ltac:(lia)) as Hx.
      rewrite Hnil in Hx. by apply not_elem_of_nil in Hx. }
    split; [done|]. intros i Hi. by apply Hin, elem_of_range_incl.
  - destruct (int_of_str r) as [n|]; [|done]. simpl in H.
    rewrite set_password_scraped in H.
    assert (forall a b, split_on "-" r = [a; b] -> False) as Hsplit.
    { intros a b. by rewrite (lacks_split_on _ _ (contains_lacks _ _ Hc)). }
    destruct is_topics; simpl in H.
    + destruct (bool_decide (n ∈ o_scraped_topics st.1)); simpl in H;
        injection H as <-; simpl; rewrite ?app_nil_r, set_password_scraped;
        (split; [done|]; split; [done|]);
        intros a b ? ? Hs; by destruct (Hsplit _ _ Hs).
    + injection H as <-. simpl. rewrite set_password_scraped.
      split; [done|]. split; [done|].
      intros a b ? ? Hs; by destruct (Hsplit _ _ Hs).
Qed.

Lemma parse_items_seed (is_topics : bool) (password : option string)
    (l : list string) : forall st st',
  parse_items is_topics password l st = Ret st' ->
  st'.2 = st.2 ++ concat (item_seed is_topics (o_scraped_topics st.1) <$> l) /\
  o_scraped_topics st'.1 = o_scraped_topics st.1 /\
  (forall r a b x y,
     r ∈ l -> split_on "-" r = [a; b] -> int_of_str a = Ret x ->
     int_of_str b = Ret y -> x <= y ->
     is_topics = true /\ forall i, x <= i <= y -> i ∈ o_scraped_topics st.1).
Proof.
  induction l as [|r l IH]; intros st st' H; simpl in H.
  - injection H as <-. simpl. rewrite app_nil_r. split; [done|]. split; [done|].
    intros r a b x y Hr. by apply not_elem_of_nil in Hr.
  - destruct (parse_item is_topics password r st) as [st1|] eqn:E; [|done].
    simpl in H. apply parse_item_seed in E as (E1 & E2 & E3).
    apply IH in H as (H1 & H2 & H3). rewrite E2 in H1, H2, H3.
    split; [|split; [done|]].
    + rewrite H1, E1. simpl. by rewrite app_assoc.
    + intros r' a b x y [->|Hr]%elem_of_cons; [apply E3|by apply H3].
Qed.

(** X13: in [_parse_arg] only the items without a minus sign seed a
    page (an item is a part between commas of a target, before its
    [:password]). When [_parse_arg] returns, the seeded pages are the
    first pages of the forums, or of the topics not in the resume
    set, named by those items, in their order; an item [a-b] adds
    none. With a range [a-b] that is not empty, [_parse_arg] returns
    only for topics, and only when every id of the range is in the
    resume set: for any other id the constructor is called without
    [start] and raises [TypeError]. *)
Theorem ranges_never_seed (is_topics : bool) (arg : list string) :
  forall st st' : opts * list task,
  _parse_arg is_topics arg st = Ret st' ->
  st'.2 = st.2 ++ arg_seed is_topics (o_scraped_topics st.1) arg /\
  (forall t r a b x y,
     t ∈ arg -> r ∈ target_items t -> split_on "-" r = [a; b] ->
     int_of_str a = Ret x -> int_of_str b = Ret y -> x <= y ->
     is_topics = true /\ forall i, x <= i <= y -> i ∈ o_scraped_topics st.1).
Proof.
  unfold arg_seed. induction arg as [|t arg IH]; intros st st' H; simpl in H.
  - injection H as <-. simpl. rewrite app_nil_r. split; [done|].
    intros t r a b x y Ht. by apply not_elem_of_nil in Ht.
  - destruct (parse_spec is_topics t st) as [st1|] eqn:E; [|done]. simpl in H.
    assert (parse_items is_topics
              (match split_first ":" t with Some (_, r) => Some r | None => None end)
              (target_items t) st = Ret st1) as E'.
    { unfold parse_spec in E. unfold target_items.
      by destruct (split_first ":" t) as [[l r]|]. }
    apply parse_items_seed in E' as (E1 & E2 & E3).
    apply IH in H as (H1 & H3). rewrite E2 in H1, H3. split.
    + rewrite H1, E1. cbn [fmap list_fmap concat]. by rewrite app_assoc.
    + intros t' r a b x y [->|Ht]%elem_of_cons; [apply E3|by apply H3].
Qed.

Lemma ranges_never_seed_example :
  (with_scraped_topics sample_opts [12], [PhpBBTopic 13 0]).2 =
    (with_scraped_topics sample_opts [12], @nil task).2 ++
    arg_seed true (o_scraped_topics (with_scraped_topics sample_opts [12], @nil task).1)
             ["13,12-12"%string] /\
  (forall t r a b x y,
     t ∈ ["13,12-12"%string] -> r ∈ target_items t -> split_on "-" r = [a; b] ->
     int_of_str a = Ret x -> int_of_str b = Ret y -> x <= y ->
     true = true /\
     forall i, x <= i <= y ->
       i ∈ o_scraped_topics (with_scraped_topics sample_opts [12], @nil task).1).
Proof.
  apply (ranges_never_seed true ["13,12-12"%string]
           (with_scraped_topics sample_opts [12], [])
           (with_scraped_topics sample_opts [12], [PhpBBTopic 13 0])).
  reflexivity.
Defined.

(** X14: a single id on the command line, written in decimal. A
    forum id [n >= 0] seeds the first page of that forum; a topic id
    [n >= 0] seeds the first page of that topic unless it is in the
    resume set; a negative id is taken for a range because of its
    minus sign and raises [ValueError]. *)
Theorem decimal_target (is_topics : bool) (n : Z) (st : opts * list task) :
  (0 <= n ->
   parse_item is_topics None (str_of_int n) st =
     Ret (st.1,
          st.2 ++ (if is_topics
                   then (if bool_decide (n ∈ o_scraped_topics st.1) then []
                         else [PhpBBTopic n 0])
                   else [PhpBBForum n 0]))) /\
  (n < 0 -> parse_item is_topics None (str_of_int n) st = Raise ValueError).
Proof.
  split; intros Hn; unfold parse_item.
  - rewrite (lacks_contains "-" _ (str_of_int_nonneg_lacks_minus n Hn)).
    simpl. rewrite int_of_str_of_int. simpl.
    destruct is_topics; simpl; [|done].
    destruct (bool_decide _); simpl; [|done]. by rewrite app_nil_r.
  - destruct (str_of_int_neg n Hn) as (ds & -> & Hds).
    cbn [contains String.prefix]. destruct (ascii_dec "-" "-"); [|done].
    cbn [orb negb split_on]. rewrite Ascii.eqb_refl, (lacks_split_on _ _ Hds).
    replace (String.prefix "" ds) with true by (by destruct ds). done.
Qed.

Lemma decimal_target_example :
  parse_item true None (str_of_int 13) (with_scraped_topics sample_opts [12], []) =
    Ret (with_scraped_topics sample_opts [12], [PhpBBTopic 13 0]) /\
  parse_item true None (str_of_int (-13)) (sample_opts, []) = Raise ValueError.
Proof.
  destruct (decimal_target true 13 (with_scraped_topics sample_opts [12], []))
    as [H1 _].
  destruct (decimal_target true (-13) (sample_opts, [])) as [_ H2].
  split; [exact (H1 ltac:(lia))|exact (H2 ltac:(lia))].
Defined.

(** X15: started without targets, the scraper seeds the board index
    (forum 0) and nothing else; with [--save-users] and no targets it
    seeds the member list and no forum at all. *)
Theorem default_seed (fs : filesystem) (o : opts) :
  PhpBBScraper_init fs o [] [] =
    Ret (mkScraper (with_scraped_topics o (resume_set fs o)) PageMerger_init
                   (if o_save_users o then [PhpBBUsers 0] else [PhpBBForum 0 0])
                   0 RequestsIter_init).
Proof.
  unfold PhpBBScraper_init. cbn [o_save_users with_scraped_topics].
  by destruct (o_save_users o).
Qed.

(* ===================================================================== *)
(** * Walls *)
(* ===================================================================== *)

(** X16: a page that shows the board's message box or the login form
    is dropped by every page object: [scrape] never returns a page
    from it and leaves the merger as it is, for a forum, a topic, a
    member list, a password submission and a file alike. It returns
    [[]] when its log lines can be formatted; otherwise it raises
    [AttributeError] (a message without [.string], a document without
    title) or [KeyError] (a password submission without the hidden
    input [f]). *)
Theorem walled_page_dropped (fs : filesystem) (o : opts) (obj : task)
    (resp : response html_page) (m : page_merger) :
  pg_message (content resp) = true \/ pg_login (content resp) = true ->
  exists out,
    task_scrape fs o obj resp m = (out, m) /\
    (forall pages, out = Ret pages -> pages = []) /\
    (forall e, out = Raise e -> e = AttributeError \/ e = KeyError) /\
    (wall_readable obj (content resp) -> out = Ret []).
Proof.
  intros Hwall. unfold wall_readable.
  destruct obj as [paths fname url us|url tid params|fid start|tid start|start];
    cbn [task_scrape].
  - exists (Ret []). split; [done|]. split; [by intros ? [= <-]|]. by split.
  - unfold PhpBBForumPassword_scrape.
    destruct (pg_title (content resp)); cbn [negb];
      [|eexists; split; [done|]; split; [done|]; split;
         [intros e [= <-]; by left|by intros (_ & ? & _)]].
    destruct (pg_message (content resp)).
    { eexists. split; [done|]. unfold message_wall.
      destruct (params !! "f"%string); cbn;
        [|split; [done|]; split; [intros e [= <-]; by right|];
          by intros (_ & _ & [? ?])].
      destruct (pg_message_string (content resp)); cbn.
      - split; [by intros ? [= <-]|]. by split.
      - split; [done|]. split; [intros e [= <-]; by left|].
        intros (Hm & _). by destruct (Hm eq_refl). }
    destruct (pg_login (content resp)); [|by destruct Hwall].
    eexists. split; [done|].
    destruct (params !! "f"%string); cbn.
    + split; [by intros ? [= <-]|]. by split.
    + split; [done|]. split; [intros e [= <-]; by right|].
      by intros (_ & _ & [? ?]).
  - unfold PhpBBForum_scrape.
    destruct (pg_message (content resp)).
    { eexists. split; [done|]. unfold message_wall.
      destruct (pg_message_string (content resp)); cbn.
      - split; [by intros ? [= <-]|]. by split.
      - split; [done|]. split; [intros e [= <-]; by left|].
        intros (Hm & _). by destruct (Hm eq_refl). }
    destruct (pg_login (content resp)); [|by destruct Hwall].
    exists (Ret []). split; [done|]. split; [by intros ? [= <-]|]. by split.
  - unfold PhpBBTopic_scrape.
    destruct (pg_message (content resp)).
    { eexists. split; [done|]. unfold message_wall.
      destruct (pg_message_string (content resp)); cbn.
      - split; [by intros ? [= <-]|]. by split.
      - split; [done|]. split; [intros e [= <-]; by left|].
        intros (Hm & _). by destruct (Hm eq_refl). }
    destruct (pg_login (content resp)); [|by destruct Hwall].
    exists (Ret []). split; [done|]. split; [by intros ? [= <-]|]. by split.
  - unfold PhpBBUsers_scrape.
    destruct (pg_title (content resp)); cbn [negb];
      [|eexists; split; [done|]; split; [done|]; split;
         [intros e [= <-]; by left|by intros (_ & ?)]].
    destruct (pg_message (content resp)).
    { eexists. split; [done|]. unfold message_wall.
      destruct (pg_message_string (content resp)); cbn.
      - split; [by intros ? [= <-]|]. by split.
      - split; [done|]. split; [intros e [= <-]; by left|].
        intros (Hm & _). by destruct (Hm eq_refl). }
    destruct (pg_login (content resp)); [|by destruct Hwall].
    exists (Ret []). split; [done|]. split; [by intros ? [= <-]|]. by split.
Qed.

Lemma walled_page_dropped_example :
  exists out,
    task_scrape empty_disk sample_opts (PhpBBTopic 7 0)
                (mkResponse 200 message_page) half_topic = (out, half_topic) /\
    (forall pages, out = Ret pages -> pages = []) /\
    (forall e, out = Raise e -> e = AttributeError \/ e = KeyError) /\
    (wall_readable (PhpBBTopic 7 0) (content (mkResponse 200 message_page)) ->
     out = Ret []).
Proof.
  apply (walled_page_dropped empty_disk sample_opts (PhpBBTopic 7 0)
           (mkResponse 200 message_page) half_topic).
  left. reflexivity.
Defined.

(** The page of the example is dropped with [[]]; a message box
    whose paragraph is not a single string makes the same call
    raise. *)
Lemma walled_page_outcomes :
  task_scrape empty_disk sample_opts (PhpBBTopic 7 0)
              (mkResponse 200 message_page) half_topic = (Ret [], half_topic) /\
  task_scrape empty_disk sample_opts (PhpBBTopic 7 0)
              (mkResponse 200 markup_message_page) half_topic
    = (Raise AttributeError, half_topic).
Proof. split; reflexivity. Qed.

(* ===================================================================== *)
(** * PhpBBTopic.save *)
(* ===================================================================== *)

Lemma post_media_mapM (fs : filesystem) (o : opts) (fpaths : list path_seg)
    (data : list (option item)) :
  posts_only data ->
  ((None ∈ data) /\
   py_mapM (post_media_tasks fs o fpaths) data = Raise TypeError) \/
  ((None ∉ data) /\
   exists ms, py_mapM (post_media_tasks fs o fpaths) data = Ret ms).
Proof.
  induction 1 as [|d data Hd _ IH]; simpl.
  - right. split; [apply not_elem_of_nil|eauto].
  - destruct d as [[p|u]|]; [|done|].
    + simpl. destruct IH as [[Hin ->]|[Hnot [ms ->]]].
      * left. split; [by right|done].
      * right. split; [|simpl; eauto].
        by intros [?|?]%elem_of_cons.
    + left. split; [by left|done].
Qed.

(** X17: on the slot array of a topic, [PhpBBTopic.save] raises
    exactly when files are to be saved ([--save-media] or
    [--save-attachments]) and a slot is empty, and what it raises is
    [TypeError]; without those flags an array with empty slots is
    saved as it is. *)
Theorem topic_save_raises_on_empty_slot (fs : filesystem) (id : doc_key)
    (data : list (option item)) (paths : list path_seg) (o : opts) :
  posts_only data ->
  (PhpBBTopic_save fs id data paths o = Raise TypeError <->
   o_save_media o || o_save_attachments o = true /\ None ∈ data) /\
  (forall e, PhpBBTopic_save fs id data paths o = Raise e -> e = TypeError).
Proof.
  intros Hdata. unfold PhpBBTopic_save.
  destruct (o_save_media o || o_save_attachments o).
  - destruct (post_media_mapM fs o (paths ++ [(key_str id, "files"%string)])
                data Hdata) as [[Hin ->]|[Hnot [ms ->]]]; simpl.
    + split; [by split|]. by intros e [= <-].
    + destruct (save_io_ok fs o paths id); (split; [|done]);
        (split; [done|]); by intros [_ ?].
  - simpl. destruct (save_io_ok fs o paths id); (split; [|done]);
      (split; [done|]); by intros [? _].
Qed.

Lemma topic_save_raises_on_empty_slot_example :
  (PhpBBTopic_save empty_disk (TopicKey 7) [Some (PostItem (sample_post 1)); None]
                   [] (forced_opts 0) = Raise TypeError <->
   o_save_media (forced_opts 0) || o_save_attachments (forced_opts 0) = true /\
   None ∈ [Some (PostItem (sample_post 1)); None]) /\
  (forall e, PhpBBTopic_save empty_disk (TopicKey 7)
               [Some (PostItem (sample_post 1)); None] [] (forced_opts 0) = Raise e ->
             e = TypeError).
Proof.
  apply (topic_save_raises_on_empty_slot empty_disk (TopicKey 7)
           [Some (PostItem (sample_post 1)); None] [] (forced_opts 0)).
  repeat constructor.
Defined.

Lemma compact_no_empty_slot {A : Type} (data : list (option A)) :
  None ∉ compact data.
Proof.
  unfold compact. intros Hin. apply list_elem_of_In, filter_In in Hin as [_ H].
  done.
Qed.

Lemma compact_posts_only (data : list (option item)) :
  posts_only data -> posts_only (compact data).
Proof.
  unfold posts_only, compact. intros H. apply Forall_forall.
  intros d Hd. apply list_elem_of_In, filter_In in Hd as [Hd _].
  rewrite Forall_forall in H. by apply H, list_elem_of_In.
Qed.

(** X18: [force_save] never raises on topics: the empty slots on which
    [PhpBBTopic.save] would raise are the ones it filters out before
    the call. When the slot arrays of the open topic documents hold
    posts, [force_save] returns, having called [save] for every open
    document. *)
Theorem force_save_returns (fs : filesystem) (m : page_merger) :
  (forall k v, pages m !! k = Some v -> p_class v = ClsTopic -> posts_only (p_data v)) ->
  exists media,
    (PageMerger_force_save (class_save fs) m).1 = Ret media /\
    length (saved (PageMerger_force_save (class_save fs) m).2)
      = (length (saved m) + size (pages m))%nat.
Proof.
  intros Hposts. unfold PageMerger_force_save.
  destruct (force_save_loop_returns (class_save fs) (map_to_list (pages m)) [] (saved m))
    as [[media Hret] Hlog].
  - apply Forall_forall. intros [k v] Hin. simpl.
    apply elem_of_map_to_list in Hin.
    destruct (p_class v) eqn:Hc; simpl; [|eauto].
    destruct (topic_save_raises_on_empty_slot fs k (compact (p_data v))
                (p_ctx v).2 (p_ctx v).1) as [H1 H2].
    { by apply compact_posts_only, (Hposts k v). }
    destruct (PhpBBTopic_save _ _ _ _ _) as [l|e] eqn:E; [eauto|].
    exfalso. rewrite (H2 e eq_refl) in H1.
    destruct (proj1 H1 eq_refl) as [_ Hnone].
    by apply (compact_no_empty_slot (p_data v)).
  - exists media. split; [done|]. simpl. rewrite Hlog.
    by rewrite length_app, length_fmap, length_map_to_list.
Qed.

Lemma force_save_returns_example :
  exists media,
    (PageMerger_force_save (class_save empty_disk) half_topic).1 = Ret media /\
    length (saved (PageMerger_force_save (class_save empty_disk) half_topic).2)
      = (length (saved half_topic) + size (pages half_topic))%nat.
Proof.
  apply (force_save_returns empty_disk half_topic).
  intros k v Hk _.
  assert (pages half_topic =
            {[TopicKey 7 := mkPending [Some (PostItem (sample_post 1)); None] 1
                                      sample_ctx ClsTopic]}) as Hp by reflexivity.
  rewrite Hp in Hk. apply lookup_singleton_Some in Hk as [_ <-].
  repeat constructor.
Defined.

(** X19: what [PhpBBTopic.save] asks to be fetched. With
    [--save-media] or [--save-attachments] set and the document
    written, at [force] 2 it returns one request for every attachment
    and every inline media file of every post, in post order; at any
    other [force] it returns the requests for the files that are not
    on disk. *)
Theorem topic_save_requests (fs : filesystem) (id : doc_key) (posts : list post)
    (paths : list path_seg) (o : opts) :
  o_save_media o || o_save_attachments o = true ->
  save_io_ok fs o paths id = true ->
  let fpaths := paths ++ [(key_str id, "files"%string)] in
  let data := (fun p => Some (PostItem p)) <$> posts in
  (o_force o = 2 ->
   PhpBBTopic_save fs id data paths o =
     Ret (concat (all_file_requests fpaths <$> posts))) /\
  (o_force o <> 2 ->
   PhpBBTopic_save fs id data paths o =
     Ret (concat (missing_file_requests fs o fpaths <$> posts))).
Proof.
  intros Hflags Hio fpaths data. unfold PhpBBTopic_save.
  rewrite Hflags, Hio. fold fpaths.
  assert (forall f : post -> list task,
            (forall p, post_media_tasks fs o fpaths (Some (PostItem p)) = Ret (f p)) ->
            py_mapM (post_media_tasks fs o fpaths) data = Ret (f <$> posts)) as Hmap.
  { intros f Hf. subst data. induction posts as [|p posts IH]; [done|].
    rewrite !fmap_cons. cbn [py_mapM]. by rewrite Hf, IH. }
  split; intros Hforce.
  - rewrite (Hmap (all_file_requests fpaths)); [done|].
    intros p. unfold post_media_tasks, all_file_requests.
    rewrite media_tasks_force_2 by done.
    destruct (media p); [|done]. by rewrite media_tasks_force_2.
  - rewrite (Hmap (missing_file_requests fs o fpaths)); [done|].
    intros p. unfold post_media_tasks, missing_file_requests.
    rewrite media_tasks_skip_existing by done.
    destruct (media p); [|done]. by rewrite media_tasks_skip_existing.
Qed.

Lemma topic_save_requests_example :
  let fpaths := [("5", "Forum")]%string ++ [(key_str (TopicKey 7), "files"%string)] in
  let data := (fun p => Some (PostItem p)) <$> [post_with_file] in
  (o_force (forced_opts 2) = 2 ->
   PhpBBTopic_save full_disk (TopicKey 7) data [("5", "Forum")]%string (forced_opts 2) =
     Ret (concat (all_file_requests fpaths <$> [post_with_file]))) /\
  (o_force (forced_opts 2) <> 2 ->
   PhpBBTopic_save full_disk (TopicKey 7) data [("5", "Forum")]%string (forced_opts 2) =
     Ret (concat (missing_file_requests full_disk (forced_opts 2) fpaths
                    <$> [post_with_file]))).
Proof.
  apply (topic_save_requests full_disk (TopicKey 7) [post_with_file]
           [("5", "Forum")]%string (forced_opts 2)).
  - reflexivity.
  - reflexivity.
Defined.

(* ===================================================================== *)
(** * A topic of two pages *)
(* ===================================================================== *)

Lemma two_slices (A : Type) (d0 d1 : list A) (x : A) :
  slice_assign (slice_assign (replicate (length d0 + length d1) x) 0 d0)
               (length d0) d1 = d0 ++ d1.
Proof.
  assert (slice_assign (replicate (length d0 + length d1) x) 0 d0
          = d0 ++ replicate (length d1) x) as ->.
  { unfold slice_assign. simpl. rewrite drop_replicate. do 2 f_equal. lia. }
  unfold slice_assign.
  rewrite take_app_length, drop_app_add, drop_replicate, Nat.sub_diag.
  simpl. by rewrite app_nil_r.
Qed.

(** X20: the two pages of a topic through [PhpBBTopic.scrape]. The
    first page (offset 0) opens the document with the element count
    of the page and returns the sibling pages, saving nothing; the
    second page, at the offset where the first ended, completes it:
    [save] is called once, with the posts of the first page followed
    by the posts of the second. *)
Theorem two_page_topic_saved_once (fs : filesystem) (o : opts) (tid : Z)
    (pg0 pg1 : html_page) (pn0 pn1 : pagination) (posts0 posts1 : list post)
    (m : page_merger) :
  pg_message pg0 = false -> pg_login pg0 = false -> _is_password_required pg0 = false ->
  pg_message pg1 = false -> pg_login pg1 = false -> _is_password_required pg1 = false ->
  topic_page_parse o tid pg0 = Ret (pn0, (true, posts0)) ->
  topic_page_parse o tid pg1 = Ret (pn1, (true, posts1)) ->
  posts0 <> [] -> posts1 <> [] ->
  pn_elements_count pn0 = Some (length posts0 + length posts1)%nat ->
  let doc := (fun p => Some (PostItem p)) <$> (posts0 ++ posts1) in
  let r0 := PhpBBTopic_scrape fs o tid 0 pg0 m in
  let r1 := PhpBBTopic_scrape fs o tid (Z.of_nat (length posts0)) pg1 r0.2 in
  r0.1 = sibling_pages (PhpBBTopic tid) pn0 /\
  saved r0.2 = saved m /\
  r1.1 = class_save fs ClsTopic (o, pg_breadcrumbs pg0) (TopicKey tid) doc /\
  saved r1.2 = saved m ++ [(TopicKey tid, doc)].
Proof.
  intros Hm0 Hl0 Hp0 Hm1 Hl1 Hp1 Hparse0 Hparse1 Hne0 Hne1 Hsize doc r0 r1.
  assert (0 < length posts0 /\ 0 < length posts1)%nat as [Hlen0 Hlen1].
  { destruct posts0, posts1; simpl; try done; lia. }
  assert (r0 = (sibling_pages (PhpBBTopic tid) pn0,
                mkMerger (<[TopicKey tid :=
                   mkPending (slice_assign
                                (replicate (length posts0 + length posts1) None) 0
                                (Some <$> (PostItem <$> posts0)))
                             (Z.of_nat (length posts0 + length posts1)
                              - Z.of_nat (length (PostItem <$> posts0)))
                             (o, pg_breadcrumbs pg0) ClsTopic]>
                   (<[TopicKey tid :=
                      mkPending (replicate (length posts0 + length posts1) None)
                                (Z.of_nat (length posts0 + length posts1))
                                (o, pg_breadcrumbs pg0) ClsTopic]> (pages m)))
                  (saved m))) as Hr0.
  { subst r0. unfold PhpBBTopic_scrape.
    rewrite Hm0, Hl0, Hp0, Hparse0, Hsize. simpl. unfold PageMerger_add.
    erewrite append_incomplete;
      [|apply lookup_insert_eq|simpl; rewrite length_fmap; lia].
    simpl. by destruct (sibling_pages (PhpBBTopic tid) pn0). }
  subst r1. rewrite Hr0. simpl. split; [done|]. split; [done|].
  unfold PhpBBTopic_scrape. rewrite Hm1, Hl1, Hp1, Hparse1.
  destruct (Z.eqb_spec (Z.of_nat (length posts0)) 0) as [|_]; [lia|]. simpl.
  rewrite Nat2Z.id.
  match goal with
  | |- context [PageMerger_append ?cs ?m0 ?k ?d ?off] =>
      destruct (append_complete cs k m0
                  (mkPending (slice_assign
                                (replicate (length posts0 + length posts1) None) 0
                                (Some <$> (PostItem <$> posts0)))
                             (Z.of_nat (length posts0 + length posts1)
                              - Z.of_nat (length (PostItem <$> posts0)))
                             (o, pg_breadcrumbs pg0) ClsTopic)
                  d off) as (H1 & H2 & _)
  end.
  { simpl. apply lookup_insert_eq. }
  { simpl. rewrite !length_fmap. lia. }
  simpl in H1, H2.
  assert (slice_assign
            (slice_assign (replicate (length posts0 + length posts1) None) 0
                          (Some <$> (PostItem <$> posts0)))
            (length posts0) (Some <$> (PostItem <$> posts1)) = doc) as Hdoc.
  { pose proof (two_slices _ (Some <$> (PostItem <$> posts0))
                  (Some <$> (PostItem <$> posts1)) None) as H.
    rewrite !length_fmap in H. rewrite H. subst doc.
    by rewrite fmap_app, <- !list_fmap_compose. }
  rewrite Hdoc in H1, H2. by split.
Qed.

Lemma two_page_topic_saved_once_example :
  let p1 := mkPost 11 None (DateText "today") [] None "text" "subject" 7
                   ("5", "Forum")%string in
  let p2 := mkPost 13 None (DateText "later") [] None "more" "subject" 7
                   ("5", "Forum")%string in
  let doc := (fun p => Some (PostItem p)) <$> ([p1] ++ [p2]) in
  let r0 := PhpBBTopic_scrape empty_disk sample_opts 7 0 first_topic_page
                              PageMerger_init in
  let r1 := PhpBBTopic_scrape empty_disk sample_opts 7 (Z.of_nat (length [p1]))
                              second_topic_page r0.2 in
  r0.1 = sibling_pages (PhpBBTopic 7) (mkPagination ∅ 2 1 (Some 2%nat)) /\
  saved r0.2 = saved (PageMerger_init : page_merger) /\
  r1.1 = class_save empty_disk ClsTopic
           (sample_opts, pg_breadcrumbs first_topic_page) (TopicKey 7) doc /\
  saved r1.2 = saved (PageMerger_init : page_merger) ++ [(TopicKey 7, doc)].
Proof.
  intros p1 p2.
  apply (two_page_topic_saved_once empty_disk sample_opts 7
           first_topic_page second_topic_page
           (mkPagination ∅ 2 1 (Some 2%nat)) (mkPagination ∅ 2 1 (Some 2%nat))
           [p1] [p2] PageMerger_init);
    try reflexivity; discriminate.
Defined.

(* ===================================================================== *)
(** * Order in the queue and on the page *)
(* ===================================================================== *)

Lemma drain_all (q : RequestsIter) : forall n,
  (length (_queue q) <= n)%nat ->
  drain n q = (_queue q, mkRequestsIter [] (_enqueued q) (_processed q)).
Proof.
  destruct q as [l e p]. simpl. induction l as [|t l IH]; intros n Hn.
  - by destruct n.
  - destruct n as [|n]; [simpl in Hn; lia|]. simpl.
    rewrite (IH n) by (simpl in Hn; lia). done.
Qed.

(** X21: the queue is first in, first out. After [put] of some tasks,
    iterating over the queue until [StopIteration] yields the tasks
    that were queued before followed by the new ones, each once and
    in the order of the [put]s; it counts the new ones as enqueued
    and does not touch the processed count. *)
Theorem queue_is_fifo (q : RequestsIter) (l : list task) (n : nat) :
  (length (_queue q) + length l <= n)%nat ->
  drain n (fold_left RequestsIter_put l q) =
    (_queue q ++ l,
     mkRequestsIter [] (_enqueued q + Z.of_nat (length l)) (_processed q)).
Proof.
  intros Hn. destruct (fold_put_queue l q) as (H1 & H2 & H3).
  rewrite drain_all by (rewrite H1, length_app; lia).
  by rewrite H1, H2, H3.
Qed.

Lemma queue_is_fifo_example :
  drain 3 (fold_left RequestsIter_put [PhpBBTopic 8 0; PhpBBTopic 9 0]
                     (RequestsIter_put RequestsIter_init (PhpBBTopic 7 0))) =
    ([PhpBBTopic 7 0] ++ [PhpBBTopic 8 0; PhpBBTopic 9 0],
     mkRequestsIter [] (1 + Z.of_nat 2) 0).
Proof.
  apply (queue_is_fifo (RequestsIter_put RequestsIter_init (PhpBBTopic 7 0))
           [PhpBBTopic 8 0; PhpBBTopic 9 0] 3).
  simpl. lia.
Defined.

(** X22: [_parse_page] keeps the posts in page order. When it answers
    [True], the posts it added are one per [div.post], in the order of
    the page, each the dict made of that element; when it answers
    [False], the posts added so far are the ones before the first
    element whose content [_html2bb] could not transform. *)
Theorem _parse_page_in_order (o : opts) (topic_id : Z) (title : string)
    (forum_id : path_seg) (ps : list post_elem) (acc : list post)
    (b : bool) (posts : list post) :
  _parse_page o topic_id title forum_id ps acc = Ret (b, posts) ->
  exists new,
    posts = acc ++ new /\
    Forall2 (fun p x => parse_post o topic_id title forum_id p = Ret (Some x))
            (take (length new) ps) new /\
    (if b then length new = length ps
     else exists p, ps !! length new = Some p /\ pe_bb p = None /\
                    parse_post o topic_id title forum_id p = Ret None).
Proof.
  revert acc. induction ps as [|p ps IH]; intros acc H; simpl in H.
  - injection H as <- <-. exists []. rewrite app_nil_r. repeat split. constructor.
  - destruct (parse_post o topic_id title forum_id p) as [[x|]|] eqn:Ep;
      simpl in H; [| |done].
    + destruct (IH _ H) as (new & -> & Hall & Hb).
      exists (x :: new). rewrite <- app_assoc. split; [done|]. split.
      * simpl. by constructor.
      * destruct b; simpl; [by rewrite Hb|done].
    + injection H as <- <-. exists []. rewrite app_nil_r.
      split; [done|]. split; [constructor|].
      exists p. split; [done|]. split; [|done].
      unfold parse_post in Ep.
      destruct (int_of_str _); [|done]. simpl in Ep.
      destruct (match pe_member p with Some _ => _ | None => _ end); [|done].
      simpl in Ep. destruct (py_of_option IndexError (pe_date p)) as [d|]; [|done].
      simpl in Ep. destruct (au_link d && au_span d); [|done].
      simpl in Ep. destruct (if o_parse_date o then _ else _); [|done].
      simpl in Ep. destruct (pe_content p); [|done].
      simpl in Ep. by destruct (pe_bb p).
Qed.

Lemma _parse_page_in_order_example :
  exists new,
    [] = [] ++ new /\
    Forall2 (fun p x => parse_post sample_opts 7 "subject"
                                   ("5", "Forum")%string p = Ret (Some x))
            (take (length new) [bad_post_elem; good_post_elem]) new /\
    (exists p, [bad_post_elem; good_post_elem] !! length new = Some p /\
               pe_bb p = None /\
               parse_post sample_opts 7 "subject" ("5", "Forum")%string p = Ret None).
Proof.
  apply (_parse_page_in_order sample_opts 7 "subject" ("5", "Forum")%string
           [bad_post_elem; good_post_elem] [] false []).
  reflexivity.
Defined.

(* ===================================================================== *)
(** * File names *)
(* ===================================================================== *)

Lemma lacks_app (c : ascii) (a b : string) :
  lacks c (a ++ b)%string = lacks c a && lacks c b.
Proof.
  induction a as [|x a IH]; simpl; [done|].
  by rewrite IH, andb_assoc.
Qed.

Lemma string_app_assoc (a b c : string) :
  (a ++ (b ++ c))%string = ((a ++ b) ++ c)%string.
Proof.
  induction a as [|x a IH]; [done|].
  change (String x (a ++ (b ++ c)) = String x ((a ++ b) ++ c))%string.
  by rewrite IH.
Qed.

Lemma string_app_nil_r (a : string) : (a ++ "")%string = a.
Proof.
  induction a as [|x a IH]; [done|].
  change (String x (a ++ "") = String x a)%string. by rewrite IH.
Qed.

Lemma sanitize_lacks (c : ascii) (s : string) :
  sanitize_char c <> c -> lacks c (sanitize s) = true.
Proof.
  intros Hc. induction s as [|a s IH]; cbn [sanitize lacks]; [done|].
  rewrite IH, andb_true_r. apply negb_true_iff, Ascii.eqb_neq.
  intros E. apply Hc. unfold sanitize_char in *.
  destruct (Ascii.eqb a "/" || Ascii.eqb a "\" || Ascii.eqb a "|" || Ascii.eqb a ":")
    eqn:Ea.
  - by subst c.
  - subst c. by rewrite Ea.
Qed.

Lemma sanitize_length (s : string) : String.length (sanitize s) = String.length s.
Proof. induction s as [|a s IH]; simpl; [done|]. by rewrite IH. Qed.

Lemma sanitize_lacks_dot (s : string) : lacks "." (sanitize s) = lacks "." s.
Proof.
  induction s as [|a s IH]; cbn [sanitize lacks]; [done|]. rewrite IH. f_equal.
  unfold sanitize_char.
  destruct (Ascii.eqb_spec a "/") as [->|?]; [done|].
  destruct (Ascii.eqb_spec a "\") as [->|?]; [done|].
  destruct (Ascii.eqb_spec a "|") as [->|?]; [done|].
  by destruct (Ascii.eqb_spec a ":") as [->|?].
Qed.

Lemma split_last_lacks (c : ascii) (s : string) :
  lacks c s = true -> split_last c s = None.
Proof.
  induction s as [|a s IH]; cbn [lacks split_last]; [done|].
  intros [Ha Hs]%andb_true_iff. rewrite (IH Hs).
  apply negb_true_iff in Ha. by rewrite Ha.
Qed.

Lemma split_last_join (c : ascii) (s : string) :
  match split_last c s with
  | Some (l, r) => s = (l ++ String c r)%string
  | None => lacks c s = true
  end.
Proof.
  induction s as [|a s IH]; cbn [lacks split_last]; [done|].
  destruct (split_last c s) as [[l r]|].
  - by rewrite IH.
  - rewrite IH, andb_true_r. destruct (Ascii.eqb_spec a c) as [->|?]; done.
Qed.

Lemma path_join_app (d a b : string) :
  lacks "/" (a ++ b)%string = true ->
  (path_join d a ++ b)%string = path_join d (a ++ b)%string.
Proof.
  intros H. unfold path_join, starts_with.
  assert (forall s, lacks "/" s = true -> String.prefix "/" s = false) as Hp.
  { intros [|x s]; cbn [lacks String.prefix]; [done|].
    intros [Hx _]%andb_true_iff. apply negb_true_iff, Ascii.eqb_neq in Hx.
    by destruct (ascii_dec "/" x) as [<-|_]. }
  rewrite (Hp _ H). rewrite lacks_app in H. apply andb_true_iff in H as [Ha _].
  rewrite (Hp _ Ha).
  destruct (String.eqb d "" || ends_with d "/");
    by rewrite ?string_app_assoc.
Qed.

(** X23: [FileSaver.full_path] puts the file directly in the
    document's directory. The result is [os.path.join] of that
    directory and one name: the given name with every [/], [\], [|]
    and [:] replaced (so of the same length, and without any of the
    four), followed by [.unk] exactly when the given name has no dot.
    A name from a page can thus not point into another directory by a
    separator. *)
Theorem full_path_one_name (output : string) (paths : list path_seg) (fname : string) :
  full_path output paths fname =
    path_join (fold_left path_join paths.*1 output) (saved_name fname) /\
  String.length (saved_name fname) =
    (String.length fname + (if lacks "." fname then 4 else 0))%nat /\
  lacks "/" (saved_name fname) = true /\ lacks "\" (saved_name fname) = true /\
  lacks "|" (saved_name fname) = true /\ lacks ":" (saved_name fname) = true.
Proof.
  assert (forall c, sanitize_char c <> c ->
                    lacks c ".unk" = true -> lacks c (saved_name fname) = true) as Hl.
  { intros c Hc Hu. unfold saved_name. rewrite lacks_app, sanitize_lacks by done.
    by destruct (lacks "." fname). }
  split; [|split; [|repeat split; by apply Hl]].
  - unfold full_path, saved_name.
    pose proof (split_last_join "." (sanitize fname)) as Hs.
    destruct (split_last "." (sanitize fname)) as [[base ext]|] eqn:E.
    + assert (lacks "." fname = false) as ->.
      { rewrite <- sanitize_lacks_dot, Hs, lacks_app. cbn [lacks].
        rewrite Ascii.eqb_refl. apply andb_false_r. }
      rewrite string_app_nil_r. rewrite Hs at 1.
      apply (path_join_app _ base (String "." ext)).
      rewrite <- Hs. by apply sanitize_lacks.
    + rewrite <- sanitize_lacks_dot, Hs.
      apply path_join_app. rewrite lacks_app, sanitize_lacks by done. done.
  - unfold saved_name. rewrite string_length_append, sanitize_length.
    by destruct (lacks "." fname).
Qed.

(* ===================================================================== *)
(** * Addresses *)
(* ===================================================================== *)

Lemma split_first_lacks (c : ascii) (s : string) :
  lacks c s = true -> split_first c s = None.
Proof.
  induction s as [|a s IH]; cbn [lacks split_first]; [done|].
  intros [Ha Hs]%andb_true_iff. apply negb_true_iff in Ha.
  by rewrite Ha, (IH Hs).
Qed.

Lemma split_first_app (c : ascii) (a b : string) :
  lacks c a = true -> split_first c (a ++ String c b)%string = Some (a, b).
Proof.
  induction a as [|x a IH]; simpl.
  - by rewrite Ascii.eqb_refl.
  - intros [Hx Ha]%andb_true_iff. apply negb_true_iff in Hx.
    by rewrite Hx, (IH Ha).
Qed.

Lemma split_on_app (c : ascii) (a b : string) :
  lacks c a = true -> split_on c (a ++ String c b)%string = a :: split_on c b.
Proof.
  induction a as [|x a IH]; simpl.
  - by rewrite Ascii.eqb_refl.
  - intros [Hx Ha]%andb_true_iff. apply negb_true_iff in Hx.
    by rewrite Hx, (IH Ha).
Qed.

Lemma contains_mid (c : ascii) (a b : string) :
  contains (String c EmptyString) (a ++ String c b)%string = true.
Proof.
  induction a as [|x a IH].
  - change (contains (String c EmptyString) (String c b) = true).
    simpl. destruct (ascii_dec c c) as [_|Hne]; [|by destruct Hne].
    by destruct b.
  - change (contains (String c EmptyString) (String x (a ++ String c b)%string) = true).
    cbn [contains]. rewrite IH. apply orb_true_r.
Qed.

Lemma contains_join_head (c : ascii) (sep k v : string) (rest : list string) :
  contains (String c EmptyString) (join sep ((k ++ String c v)%string :: rest)) = true.
Proof.
  cbn [join]. destruct rest as [|r rest]; [apply contains_mid|].
  rewrite <- string_app_assoc.
  apply (contains_mid c k (v ++ sep ++ join sep (r :: rest))%string).
Qed.

Lemma split_on_join (c : ascii) (l : list string) :
  l <> [] -> Forall (fun a => lacks c a = true) l ->
  split_on c (join (String c EmptyString) l) = l.
Proof.
  induction l as [|a l IH]; [done|]. intros _ Hall.
  apply Forall_cons in Hall as [Ha Hl]. cbn [join].
  destruct l as [|b l]; [by apply lacks_split_on|].
  change (a ++ String c EmptyString ++ join (String c EmptyString) (b :: l))%string
    with (a ++ String c (join (String c EmptyString) (b :: l)))%string.
  rewrite split_on_app by done. by rewrite IH.
Qed.

Lemma lacks_join (c : ascii) (sep : string) (l : list string) :
  lacks c sep = true -> Forall (fun a => lacks c a = true) l ->
  lacks c (join sep l) = true.
Proof.
  intros Hsep. induction l as [|a l IH]; [done|]. intros Hall.
  apply Forall_cons in Hall as [Ha Hl]. cbn [join].
  destruct l as [|b l]; [done|].
  by rewrite !lacks_app, Ha, Hsep, IH.
Qed.

Lemma url_query_string_built (base q : string) :
  lacks "?" base = true -> lacks "#" base = true -> lacks "#" q = true ->
  url_query_string (base ++ String "?" q)%string = q.
Proof.
  intros H1 H2 H3. unfold url_query_string. cbv zeta.
  rewrite (split_first_lacks "#").
  - cbv beta iota. by rewrite split_first_app.
  - rewrite lacks_app, H2. cbn [lacks]. by rewrite H3.
Qed.

Lemma query_pair_built (k v : string) :
  lacks "=" k = true -> lacks "=" v = true ->
  query_pair (k ++ "=" ++ v)%string = Ret (k, v).
Proof.
  intros Hk Hv. unfold query_pair.
  change (k ++ "=" ++ v)%string with (k ++ String "=" v)%string.
  by rewrite split_on_app, lacks_split_on.
Qed.

Lemma py_mapM_query_pairs (kvs : list (string * string)) :
  Forall (fun kv => query_safe kv.1 /\ query_safe kv.2) kvs ->
  py_mapM query_pair ((fun kv => kv.1 ++ "=" ++ kv.2)%string <$> kvs) = Ret kvs.
Proof.
  induction kvs as [|[k v] l IH]; [done|]. intros Hall.
  apply Forall_cons in Hall as [[(_ & Hk & _) (_ & Hv & _)] Hl].
  simpl in Hk, Hv. cbn [fmap list_fmap py_mapM fst snd].
  rewrite (query_pair_built k v Hk Hv). cbn [fmap list_fmap] in IH.
  simpl. by rewrite (IH Hl).
Qed.

(** The query of an address made of [name=value] parts reads back as
    those parts. *)
Lemma _get_url_query_built (base : string) (kvs : list (string * string)) :
  lacks "?" base = true -> lacks "#" base = true ->
  Forall (fun kv => query_safe kv.1 /\ query_safe kv.2) kvs ->
  _get_url_query
    (base ++ "?" ++ join "&" ((fun kv => kv.1 ++ "=" ++ kv.2)%string <$> kvs))%string
  = Ret (fold_left (fun (d : gmap string string) kv => <[kv.1 := kv.2]> d) kvs ∅).
Proof.
  intros H1 H2 Hall. unfold _get_url_query.
  set (args := (fun kv => kv.1 ++ "=" ++ kv.2)%string <$> kvs).
  assert (forall c, (c = "&" \/ c = "#")%char ->
                    Forall (fun a => lacks c a = true) args) as Hargs.
  { intros c Hc. apply Forall_fmap. eapply Forall_impl; [exact Hall|].
    intros [k v] [(Hk1 & Hk2 & Hk3) (Hv1 & Hv2 & Hv3)]. simpl in *.
    rewrite !lacks_app. destruct Hc as [-> | ->].
    - by rewrite Hk1, Hv1.
    - by rewrite Hk3, Hv3. }
  change (base ++ "?" ++ join "&" args)%string
    with (base ++ String "?" (join "&" args))%string.
  rewrite url_query_string_built;
    [|done|done|apply lacks_join; [done|apply Hargs; by right]].
  destruct kvs as [|kv kvs]; [done|].
  assert (contains "=" (join "&" args) = true) as ->.
  { subst args. cbn [fmap list_fmap]. apply (contains_join_head "="). }
  cbn [negb]. rewrite (split_on_join "&"); [|by subst args|apply Hargs; by left].
  subst args. by rewrite (py_mapM_query_pairs _ Hall).
Qed.

Lemma str_of_int_query_safe (n : Z) : query_safe (str_of_int n).
Proof.
  assert (forall c, uint_of_char c (Some Decimal.Nil) = None -> c <> "-"%char ->
                    lacks c (str_of_int n) = true) as H.
  { intros c Hc Hm.
    assert (forall d, lacks c (NilZero.string_of_uint d) = true) as Hu.
    { intros d. unfold NilZero.string_of_uint.
      pose proof (string_of_uint_lacks c d Hc) as Hp.
      destruct d; try exact Hp.
      cbn [lacks]. rewrite andb_true_r. apply negb_true_iff, Ascii.eqb_neq.
      intros <-. discriminate. }
    unfold str_of_int. destruct (Z.to_int n) as [d|d]; cbn [NilZero.string_of_int].
    - apply Hu.
    - cbn [lacks]. rewrite Hu, andb_true_r.
      apply negb_true_iff, Ascii.eqb_neq. congruence. }
  repeat split; by apply H.
Qed.

Lemma sid_arg_pairs (o : opts) :
  sid_arg o = (fun kv => kv.1 ++ "=" ++ kv.2)%string <$> sid_kv o.
Proof. unfold sid_arg, sid_kv. by destruct (o_sid o). Qed.

Lemma int_arg_pairs (name : string) (n : Z) :
  int_arg name n = (fun kv => kv.1 ++ "=" ++ kv.2)%string <$> int_kv name n.
Proof. unfold int_arg, int_kv. by destruct (n =? 0). Qed.

Lemma sid_kv_safe (o : opts) :
  splits_plainly o ->
  Forall (fun kv => query_safe kv.1 /\ query_safe kv.2) (sid_kv o).
Proof.
  intros (_ & _ & Hsid). unfold sid_kv. destruct (o_sid o) as [sid|]; [|done].
  constructor; [|done]. split; [done|]. by apply Hsid.
Qed.

Lemma int_kv_safe (name : string) (n : Z) :
  query_safe name ->
  Forall (fun kv => query_safe kv.1 /\ query_safe kv.2) (int_kv name n).
Proof.
  intros Hn. unfold int_kv. destruct (n =? 0); [done|].
  constructor; [|done]. split; [done|]. apply str_of_int_query_safe.
Qed.

Lemma page_address_query (o : opts) (page : string) (kvs : list (string * string)) :
  splits_plainly o -> lacks "?" page = true -> lacks "#" page = true ->
  Forall (fun kv => query_safe kv.1 /\ query_safe kv.2) kvs ->
  _get_url_query
    (o_url o ++ (page ++ "?") ++
     join "&" ((fun kv => kv.1 ++ "=" ++ kv.2)%string <$> kvs))%string
  = Ret (query_of kvs).
Proof.
  intros (H1 & H2 & _) Hp1 Hp2 Hall. unfold query_of.
  rewrite <- (_get_url_query_built (o_url o ++ page)%string kvs);
    [|by rewrite lacks_app, H1, Hp1|by rewrite lacks_app, H2, Hp2|done].
  f_equal. by rewrite <- !string_app_assoc.
Qed.

Lemma PhpBBTopic_url_query (o : opts) (topic_id start post : Z) :
  splits_plainly o ->
  _get_url_query (PhpBBTopic_url o topic_id start post) =
    Ret (query_of (sid_kv o ++ int_kv "t" topic_id ++ int_kv "start" start ++
                   int_kv "p" post)).
Proof.
  intros Ho. unfold PhpBBTopic_url.
  rewrite sid_arg_pairs, !int_arg_pairs, <- !fmap_app.
  apply (page_address_query o "/viewtopic.php"); [done..|].
  repeat apply Forall_app_2; (by apply sid_kv_safe) || (by apply int_kv_safe).
Qed.

Lemma PhpBBUsers_url_query (o : opts) (start : Z) :
  splits_plainly o ->
  _get_url_query (PhpBBUsers_url o start) =
    Ret (query_of (sid_kv o ++ int_kv "start" start)).
Proof.
  intros Ho. unfold PhpBBUsers_url.
  rewrite sid_arg_pairs, !int_arg_pairs, <- !fmap_app.
  apply (page_address_query o "/memberlist.php"); [done..|].
  repeat apply Forall_app_2; (by apply sid_kv_safe) || (by apply int_kv_safe).
Qed.

Lemma PhpBBForum_url_query (o : opts) (forum_id start : Z) :
  splits_plainly o ->
  _get_url_query (PhpBBForum_url o forum_id start) =
    Ret (query_of (sid_kv o ++ int_kv "f" forum_id ++ int_kv "start" start)).
Proof.
  intros Ho. unfold PhpBBForum_url.
  rewrite sid_arg_pairs, !int_arg_pairs, <- !fmap_app.
  destruct (sid_kv o ++ int_kv "f" forum_id ++ int_kv "start" start) as [|kv kvs] eqn:E.
  - cbn [fmap list_fmap]. destruct Ho as (H1 & H2 & _).
    unfold _get_url_query, url_query_string. cbv zeta.
    by rewrite (split_first_lacks "#"), (split_first_lacks "?").
  - cbn [fmap list_fmap].
    apply (page_address_query o "/viewforum.php" (kv :: kvs)); [done..|].
    rewrite <- E.
    repeat apply Forall_app_2; (by apply sid_kv_safe) || (by apply int_kv_safe).
Qed.

Lemma plain_address_splits (o : opts) : plain_address o -> splits_plainly o.
Proof.
  intros [Hu Hsid]. split; [|split].
  - by apply (all_chars_lacks address_char).
  - by apply (all_chars_lacks address_char).
  - intros sid Hs. specialize (Hsid sid Hs).
    repeat split; by apply (all_chars_lacks is_alnum).
Qed.

(** X24: [_get_url_query] reads back what [_url] writes. For a board
    address [opts['url']] made of letters, digits and [- . _ ~ : / %]
    and a session id made of letters and digits (on such addresses
    [urlparse] neither raises nor drops a character, and the query
    is what follows the first [?]), the query of the address a forum, topic or
    member list page requests holds the session id under [sid] (when
    there is one) and the decimal of every argument that is not [0]
    under its name; an argument that is [0] has no entry. *)
Theorem address_query_round_trip (o : opts) (id start post : Z) :
  plain_address o ->
  (exists q, _get_url_query (PhpBBTopic_url o id start post) = Ret q /\
     q !! "sid"%string = o_sid o /\ q !! "t"%string = int_param id /\
     q !! "start"%string = int_param start /\ q !! "p"%string = int_param post) /\
  (exists q, _get_url_query (PhpBBForum_url o id start) = Ret q /\
     q !! "sid"%string = o_sid o /\ q !! "f"%string = int_param id /\
     q !! "start"%string = int_param start /\ q !! "t"%string = None) /\
  (exists q, _get_url_query (PhpBBUsers_url o start) = Ret q /\
     q !! "sid"%string = o_sid o /\ q !! "start"%string = int_param start).
Proof.
  intros Ho%plain_address_splits. split; [|split]; eexists;
    (split; [by (apply PhpBBTopic_url_query || apply PhpBBForum_url_query ||
                 apply PhpBBUsers_url_query)|]);
    unfold sid_kv, int_kv, int_param, query_of;
    destruct (o_sid o); destruct (id =? 0); destruct (start =? 0);
    try destruct (post =? 0); cbn [app fold_left fst snd];
    repeat split; by simplify_map_eq.
Qed.

Lemma address_query_round_trip_example :
  (exists q, _get_url_query (PhpBBTopic_url session_opts 7 20 0) = Ret q /\
     q !! "sid"%string = o_sid session_opts /\ q !! "t"%string = int_param 7 /\
     q !! "start"%string = int_param 20 /\ q !! "p"%string = int_param 0) /\
  (exists q, _get_url_query (PhpBBForum_url session_opts 7 20) = Ret q /\
     q !! "sid"%string = o_sid session_opts /\ q !! "f"%string = int_param 7 /\
     q !! "start"%string = int_param 20 /\ q !! "t"%string = None) /\
  (exists q, _get_url_query (PhpBBUsers_url session_opts 20) = Ret q /\
     q !! "sid"%string = o_sid session_opts /\ q !! "start"%string = int_param 20).
Proof.
  apply (address_query_round_trip session_opts 7 20 0).
  split; [reflexivity|]. intros sid [= <-]. reflexivity.
Defined.

(** X25: a link written like the scraper's own addresses leads back to
    the same page. For a board address and a session id as in X24 and
    an id that is not [0], the
    topic id [PhpBBForum.scrape] reads from the address of a topic
    page is that topic's id, whatever the offset, and the forum it
    queues for the address of a forum page is that forum at offset
    [0]. *)
Theorem own_links_read_back (o : opts) (id start post : Z) :
  plain_address o -> id <> 0 ->
  topic_of_link (PhpBBTopic_url o id start post) = Ret id /\
  forum_of_link (PhpBBForum_url o id start) = Ret (PhpBBForum id 0).
Proof.
  intros Ho%plain_address_splits Hid. apply Z.eqb_neq in Hid.
  unfold topic_of_link, forum_of_link.
  rewrite PhpBBTopic_url_query, PhpBBForum_url_query by done.
  cbn [mbind py_mbind py_bind].
  assert (query_of (sid_kv o ++ int_kv "t" id ++ int_kv "start" start ++
                    int_kv "p" post) !! "t"%string = Some (str_of_int id)) as ->.
  { unfold sid_kv, int_kv, query_of. rewrite Hid.
    destruct (o_sid o); destruct (start =? 0); destruct (post =? 0);
      cbn [app fold_left fst snd]; by simplify_map_eq. }
  assert (query_of (sid_kv o ++ int_kv "f" id ++ int_kv "start" start)
            !! "f"%string = Some (str_of_int id)) as ->.
  { unfold sid_kv, int_kv, query_of. rewrite Hid.
    destruct (o_sid o); destruct (start =? 0);
      cbn [app fold_left fst snd]; by simplify_map_eq. }
  cbn [mbind py_mbind py_bind py_of_option]. by rewrite int_of_str_of_int.
Qed.

Lemma own_links_read_back_example :
  topic_of_link (PhpBBTopic_url session_opts 7 20 0) = Ret 7 /\
  forum_of_link (PhpBBForum_url session_opts 7 20) = Ret (PhpBBForum 7 0).
Proof.
  apply (own_links_read_back session_opts 7 20 0); [|lia].
  split; [reflexivity|]. intros sid [= <-]. reflexivity.
Defined.

(* ===================================================================== *)
(** * The command line *)
(* ===================================================================== *)

Lemma read_option_exit (st : main_opts) (oa : string * string) (rc : Z) :
  read_option st oa = Exits rc -> rc = 0 /\ oa.1 ∈ ["-h"; "--help"]%string.
Proof.
  unfold read_option, main_int. cbv zeta.
  repeat case_bool_decide; try done; try (by destruct (int_of_str oa.2)).
  by intros [= <-].
Qed.

Lemma read_options_exit (parsed : list (string * string)) : forall st rc,
  read_options parsed st = Exits rc ->
  rc = 0 /\ exists oa, oa ∈ parsed /\ oa.1 ∈ ["-h"; "--help"]%string.
Proof.
  induction parsed as [|oa l IH]; intros st rc H; simpl in H; [done|].
  destruct (read_option st oa) as [st1|rc1|e] eqn:E; [| |done].
  - destruct (IH _ _ H) as (-> & oa' & Hin & Ho). split; [done|].
    exists oa'. split; [by right|done].
  - injection H as ->. destruct (read_option_exit _ _ _ E) as [-> Ho].
    split; [done|]. exists oa. split; [by left|done].
Qed.

(** X26: the exit codes of [main] before the crawl. [sys.exit] is
    reached with code [2] when [getopt] refuses the command line and
    with code [0] when [-h] or [--help] is among the options, and in
    no other way: code [1], written for a missing address, is never
    used. A command line without any argument left for the address
    ends in the [IndexError] of [args[-1]] instead, whatever the
    options. *)
Theorem usage_exit_codes (st : main_opts)
    (r : option (list (string * string) * list string)) (rc : Z) :
  main_options st r = Exits rc ->
  ((rc = 2 /\ r = None) \/
   (rc = 0 /\ exists parsed args oa,
      r = Some (parsed, args) /\ oa ∈ parsed /\ oa.1 ∈ ["-h"; "--help"]%string)) /\
  forall parsed, main_options st (Some (parsed, [])) = Fails IndexError.
Proof.
  intros H. split; [|done]. unfold main_options in H.
  destruct r as [[parsed args]|]; [|injection H as <-; by left].
  destruct (last args) as [u|]; [|done]. cbn [set_url mo_url] in H.
  destruct (read_options parsed _) as [st1|rc1|e] eqn:E; [done| |done].
  injection H as ->. destruct (read_options_exit _ _ _ E) as (-> & oa & Hin & Ho).
  right. split; [done|]. by exists parsed, args, oa.
Qed.

Lemma usage_exit_codes_example :
  ((0 = 2 /\ Some ([("-h", "")%string], ["http://forum.test"%string]) = None) \/
   (0 = 0 /\ exists parsed args oa,
      Some ([("-h", "")%string], ["http://forum.test"%string]) = Some (parsed, args) /\
      oa ∈ parsed /\ oa.1 ∈ ["-h"; "--help"]%string)) /\
  forall parsed, main_options scraper_opts (Some (parsed, [])) = Fails IndexError.
Proof.
  apply (usage_exit_codes scraper_opts
           (Some ([("-h", "")%string], ["http://forum.test"%string])) 0).
  reflexivity.
Defined.

Lemma read_option_long_value (st : main_opts) (oa : string * string) :
  oa.1 ∈ getopt_names -> oa.1 ∉ short_value_options ->
  match read_option st oa with
  | Goes st' =>
      mo_max_workers st' = mo_max_workers st /\
      mo_pool_size st' = mo_pool_size st /\
      mo_headers st' = mo_headers st /\
      mo_output st' = mo_output st /\
      mo_log_file st' = mo_log_file st
  | Exits rc => rc = 0
  | Fails _ => False
  end.
Proof.
  destruct oa as [o a]. cbn [fst]. intros Hin Hn.
  unfold getopt_names in Hin. rewrite !elem_of_cons, elem_of_nil in Hin.
  assert (forall s, s ∈ short_value_options -> o <> s) as Hs by (intros s ? ->; done).
  destruct_or!; try done; subst o;
    try (by (exfalso; eapply Hs; [|reflexivity]; unfold short_value_options;
             rewrite !elem_of_cons; tauto));
    by vm_compute.
Qed.

(** X27: the options with a value are read under their short name
    only. When the option names are ones [getopt] returns and none of
    them is [-w], [-p], [-a], [-c], [-o] or [-l], the loop over the
    options never raises, and it leaves the worker count, the pool
    size, the headers, the output directory and the log file as they
    were: [--workers], [--pool-size], [--user-agent], [--cookie],
    [--output] and [--log-file] are compared with a name ending in
    [=], which [getopt] does not return, so their value is dropped. *)
Theorem value_options_only_short (parsed : list (string * string)) (st : main_opts) :
  Forall (fun oa => oa.1 ∈ getopt_names /\ oa.1 ∉ short_value_options) parsed ->
  match read_options parsed st with
  | Goes st' =>
      mo_max_workers st' = mo_max_workers st /\
      mo_pool_size st' = mo_pool_size st /\
      mo_headers st' = mo_headers st /\
      mo_output st' = mo_output st /\
      mo_log_file st' = mo_log_file st
  | Exits rc => rc = 0
  | Fails _ => False
  end.
Proof.
  revert st. induction parsed as [|oa l IH]; intros st Hall; [done|].
  apply Forall_cons in Hall as [[Hin Hn] Hl]. cbn [read_options].
  pose proof (read_option_long_value st oa Hin Hn) as H1.
  destruct (read_option st oa) as [st1|rc|e]; [|done..].
  specialize (IH st1 Hl). destruct (read_options l st1); [|done..].
  destruct H1 as (<- & <- & <- & <- & <-). exact IH.
Qed.

Lemma value_options_only_short_example :
  match read_options long_value_options scraper_opts with
  | Goes st' =>
      mo_max_workers st' = mo_max_workers scraper_opts /\
      mo_pool_size st' = mo_pool_size scraper_opts /\
      mo_headers st' = mo_headers scraper_opts /\
      mo_output st' = mo_output scraper_opts /\
      mo_log_file st' = mo_log_file scraper_opts
  | Exits rc => rc = 0
  | Fails _ => False
  end.
Proof.
  apply (value_options_only_short long_value_options scraper_opts).
  unfold long_value_options, getopt_names, short_value_options.
  repeat (apply Forall_cons_2;
          [split; [cbn [fst]; rewrite !elem_of_cons; tauto|
                   rewrite !elem_of_cons, elem_of_nil; cbn [fst];
                   intros H; destruct_or!; done]|]).
  apply Forall_nil_2.
Defined.

Lemma times_cons (o : string) (oa : string * string) (l : list (string * string)) :
  times o (oa :: l) = ((if decide (oa.1 = o) then 1 else 0) + times o l)%nat.
Proof. unfold times. rewrite filter_cons. by destruct (decide (oa.1 = o)). Qed.

Lemma read_option_force (st st1 : main_opts) (oa : string * string) :
  read_option st oa = Goes st1 ->
  mo_force st1 = mo_force st + (if decide (oa.1 = "--force"%string) then 1 else 0).
Proof.
  unfold read_option, main_int. cbv zeta.
  repeat case_bool_decide; try done;
    try (destruct (int_of_str oa.2); [|done]);
    intros [= <-]; cbn [mo_force set_flags set_numbers set_targets set_header
                        set_output set_log_file set_log_level];
    try case_decide; try lia; try congruence.
Qed.

(** X28: the force level is the number of [--force] flags. When the
    loop over the options ends, [force] has grown by one for every
    [--force] and by nothing else; it is not capped, so three flags
    give level [3], which is neither [0], [1] nor [2]. *)
Theorem force_counts_flags (parsed : list (string * string)) (st st' : main_opts) :
  read_options parsed st = Goes st' ->
  mo_force st' = mo_force st + Z.of_nat (times "--force" parsed).
Proof.
  revert st. induction parsed as [|oa l IH]; intros st H; simpl in H.
  - injection H as <-. unfold times. simpl. lia.
  - destruct (read_option st oa) as [st1| |] eqn:E; [|done..].
    rewrite (IH _ H), (read_option_force _ _ _ E), times_cons.
    destruct (decide (oa.1 = "--force"%string)); lia.
Qed.

Lemma force_counts_flags_example :
  mo_force (set_numbers scraper_opts 3 10 1) =
    mo_force scraper_opts +
    Z.of_nat (times "--force" [("--force", ""); ("--force", ""); ("--force", "")]%string).
Proof.
  apply (force_counts_flags
           [("--force", ""); ("--force", ""); ("--force", "")]%string
           scraper_opts (set_numbers scraper_opts 3 10 1)).
  reflexivity.
Defined.

Lemma read_option_log (st st1 : main_opts) (oa : string * string) :
  oa.1 ∈ getopt_names -> read_option st oa = Goes st1 ->
  mo_log_level st1 =
    (if decide (oa.1 = "-v"%string) then more_verbose (mo_log_level st)
     else mo_log_level st) /\
  (if decide (oa.1 = "-l"%string) then is_Some (mo_log_file st1)
   else mo_log_file st1 = mo_log_file st).
Proof.
  destruct oa as [o a]. cbn [fst]. intros Hin.
  unfold getopt_names in Hin. rewrite !elem_of_cons, elem_of_nil in Hin.
  destruct_or!; try done; subst o; unfold read_option, main_int; cbn;
    try (destruct (int_of_str a); [|done]);
    intros [= <-]; cbn; split; try done; by eexists.
Qed.

Lemma more_verbose_iter (n : nat) (l : log_level) :
  Nat.iter n more_verbose (more_verbose l) = more_verbose (Nat.iter n more_verbose l).
Proof. induction n as [|n IH]; simpl; [done|]. by rewrite IH. Qed.

Lemma read_options_log (parsed : list (string * string)) : forall st st',
  Forall (fun oa => oa.1 ∈ getopt_names) parsed ->
  read_options parsed st = Goes st' ->
  mo_log_level st' = Nat.iter (times "-v" parsed) more_verbose (mo_log_level st) /\
  (if decide (times "-l" parsed = 0%nat) then mo_log_file st' = mo_log_file st
   else is_Some (mo_log_file st')).
Proof.
  induction parsed as [|oa l IH]; intros st st' Hall H; simpl in H.
  - injection H as <-. by vm_compute.
  - apply Forall_cons in Hall as [Hin Hl].
    destruct (read_option st oa) as [st1| |] eqn:E; [|done..].
    destruct (read_option_log _ _ _ Hin E) as [Hv Hf].
    destruct (IH _ _ Hl H) as [Hv' Hf']. rewrite !times_cons. split.
    + rewrite Hv', Hv. destruct (decide (oa.1 = "-v"%string)); [|done].
      simpl. by rewrite more_verbose_iter.
    + destruct (decide (oa.1 = "-l"%string)).
      * rewrite decide_False by lia.
        destruct (decide (times "-l" l = 0%nat)); [by rewrite Hf'|done].
      * simpl. destruct (decide (times "-l" l = 0%nat)); [by rewrite Hf', Hf|done].
Qed.

(** X29: the [-v] flags count only with a log file. After the
    options are read, the log level is [INFO] when no [-l] was given,
    however many [-v] there are; with [-l] it is [WARNING], [INFO] or
    [DEBUG] for no, one or more than one [-v]. *)
Theorem verbosity_needs_log_file (parsed : list (string * string))
    (args : list string) (st' : main_opts) :
  Forall (fun oa => oa.1 ∈ getopt_names) parsed ->
  main_options scraper_opts (Some (parsed, args)) = Goes st' ->
  mo_log_level st' =
    if decide (times "-l" parsed = 0%nat) then INFO
    else match times "-v" parsed with
         | O => WARNING
         | S O => INFO
         | _ => DEBUG
         end.
Proof.
  intros Hall H. unfold main_options in H.
  destruct (last args) as [u|]; [|done]. cbn [set_url mo_url] in H.
  destruct (read_options parsed _) as [st1| |] eqn:E; [|done..].
  injection H as <-. destruct (read_options_log _ _ _ Hall E) as [Hv Hf].
  cbn [mo_log_level mo_log_file scraper_opts set_url] in Hv, Hf.
  unfold settle_log_level.
  destruct (decide (times "-l" parsed = 0%nat)).
  - by rewrite Hf.
  - destruct Hf as [f ->]. rewrite Hv.
    destruct (times "-v" parsed) as [|[|k]]; [done..|].
    clear. induction k as [|k IH]; [done|].
    change (Nat.iter (S (S (S k))) more_verbose WARNING)
      with (more_verbose (Nat.iter (S (S k)) more_verbose WARNING)).
    by rewrite IH.
Qed.

Lemma verbosity_needs_log_file_example :
  exists st',
    main_options scraper_opts
      (Some ([("-v", ""); ("-v", "")]%string, ["http://forum.test"%string])) = Goes st' /\
    mo_log_level st' =
      if decide (times "-l" [("-v", ""); ("-v", "")]%string = 0%nat) then INFO
      else match times "-v" [("-v", ""); ("-v", "")]%string with
           | O => WARNING
           | S O => INFO
           | _ => DEBUG
           end.
Proof.
  eexists. split; [reflexivity|].
  apply (verbosity_needs_log_file [("-v", ""); ("-v", "")]%string
           ["http://forum.test"%string]); [|reflexivity].
  unfold getopt_names.
  repeat (apply Forall_cons_2; [cbn [fst]; rewrite !elem_of_cons; tauto|]).
  apply Forall_nil_2.
Defined.
